(** * Gmail bulk cleanup: the batch deletion engine

    A shallow embedding of the two programs of the repository,

    - [gmail_bulk_delete.py], the command-line tool, and
    - [gmail_ui.py], the Flask server with its browser page,

    and the properties of their paginated list / batch-delete loop, of the
    count operation, of the confirmation prompts and of the admission flag
    of the web server.

    Python integers are unbounded, so they are [Z].  Strings are [string],
    the bytes of their UTF-8 encoding.  The Gmail service is an external
    collaborator: it is a
    record of functions over an abstract world [W], and every call the
    programs issue is appended to a trace next to that world. *)

From Stdlib Require Import String Ascii DecimalString.
From Stdlib Require Import ZArith Bool Arith Lia List.
Import ListNotations.

Local Open Scope string_scope.
Local Open Scope Z_scope.
Local Open Scope list_scope.

(** ** Python values and exceptions *)

(** The exceptions the programs distinguish: [except HttpError] against
    everything else ([except Exception], or no handler at all). *)
Inductive exn : Type :=
| HttpError (detail : string)
| OtherError (detail : string).

(** [str(e)] *)
Definition str_exn (e : exn) : string :=
  match e with
  | HttpError d => d
  | OtherError d => d
  end.

Inductive res (A : Type) : Type :=
| Ret (a : A)
| Raise (e : exn).

Arguments Ret {A} a.
Arguments Raise {A} e.

(** Truth value of a string ([not s] is [negb (truthy_str s)]). *)
Definition truthy_str (s : string) : bool :=
  match s with
  | EmptyString => false
  | String _ _ => true
  end.

(** Truth value of [dict.get(key)]: [None] and [''] are false. *)
Definition truthy_opt (o : option string) : bool :=
  match o with
  | None => false
  | Some s => truthy_str s
  end.

(** Truth value of a list. *)
Definition truthy_list {A : Type} (l : list A) : bool :=
  match l with
  | [] => false
  | _ :: _ => true
  end.

(** *** White space

    A character of a string is one to four of its bytes, and in UTF-8 the
    bytes of one character never occur inside another, so that removing
    white space characters from the ends of a text is removing their
    encodings from the ends of its bytes. *)

(** [str.isspace] on ASCII characters: U+0009 to U+000D and U+001C to
    U+0020. *)
Definition py_isspace (c : ascii) : bool :=
  let n := nat_of_ascii c in
  ((9 <=? n) && (n <=? 13) || (28 <=? n) && (n <=? 32))%nat.

(** Whitespace of JavaScript's [String.prototype.trim] on ASCII characters:
    U+0009 to U+000D and U+0020. *)
Definition js_isspace (c : ascii) : bool :=
  let n := nat_of_ascii c in
  ((9 <=? n) && (n <=? 13) || (n =? 32))%nat.

(** The no-break space U+00A0, bytes C2 A0. *)
Definition is_nbsp (a b : ascii) : bool :=
  ((nat_of_ascii a =? 194) && (nat_of_ascii b =? 160))%nat.

(** The next-line control U+0085, bytes C2 85. *)
Definition is_nel (a b : ascii) : bool :=
  ((nat_of_ascii a =? 194) && (nat_of_ascii b =? 133))%nat.

(** The byte order mark U+FEFF, bytes EF BB BF. *)
Definition is_bom (a b c : ascii) : bool :=
  ((nat_of_ascii a =? 239) && (nat_of_ascii b =? 187)
   && (nat_of_ascii c =? 191))%nat.

(** The white space of both languages that takes three bytes: U+1680
    (E1 9A 80), U+2000 to U+200A (E2 80 80 to E2 80 8A), U+2028 and U+2029
    (E2 80 A8, E2 80 A9), U+202F (E2 80 AF), U+205F (E2 81 9F) and U+3000
    (E3 80 80). *)
Definition is_space3 (a b c : ascii) : bool :=
  let a := nat_of_ascii a in
  let b := nat_of_ascii b in
  let c := nat_of_ascii c in
  ((a =? 225) && (b =? 154) && (c =? 128)
   || (a =? 226) && (b =? 128)
      && ((128 <=? c) && (c <=? 138) || (c =? 168) || (c =? 169)
          || (c =? 175))
   || (a =? 226) && (b =? 129) && (c =? 159)
   || (a =? 227) && (b =? 128) && (c =? 128))%nat.

(** The number of bytes of the white space character a string begins
    with, 0 when it begins with none: for [str.strip()] the characters of
    [str.isspace], which are U+0009 to U+000D, U+001C to U+0020, U+0085,
    U+00A0 and the three-byte ones. *)
Definition py_space (s : string) : nat :=
  match s with
  | String a s1 =>
      if py_isspace a then 1%nat
      else
        match s1 with
        | String b s2 =>
            if is_nel a b || is_nbsp a b then 2%nat
            else
              match s2 with
              | String c _ => if is_space3 a b c then 3%nat else 0%nat
              | EmptyString => 0%nat
              end
        | EmptyString => 0%nat
        end
  | EmptyString => 0%nat
  end.

(** The same for [String.prototype.trim], whose white space and line
    terminators are U+0009 to U+000D, U+0020, U+00A0, U+FEFF and the
    three-byte ones. *)
Definition js_space (s : string) : nat :=
  match s with
  | String a s1 =>
      if js_isspace a then 1%nat
      else
        match s1 with
        | String b s2 =>
            if is_nbsp a b then 2%nat
            else
              match s2 with
              | String c _ =>
                  if is_space3 a b c || is_bom a b c then 3%nat else 0%nat
              | EmptyString => 0%nat
              end
        | EmptyString => 0%nat
        end
  | EmptyString => 0%nat
  end.

Section Strip.
Variable space : string -> nat.

(** White space characters are removed from the front as long as there
    is one. *)
Fixpoint lstrip (s : string) : string :=
  match space s, s with
  | 1%nat, String _ s1 => lstrip s1
  | 2%nat, String _ (String _ s2) => lstrip s2
  | 3%nat, String _ (String _ (String _ s3)) => lstrip s3
  | _, _ => s
  end.

(** The string is cut where what follows is white space only. *)
Fixpoint rstrip (s : string) : string :=
  match s with
  | EmptyString => EmptyString
  | String c s' =>
      match lstrip s with
      | EmptyString => EmptyString
      | _ => String c (rstrip s')
      end
  end.

Definition strip_with (s : string) : string := rstrip (lstrip s).
End Strip.

(** [s.strip()] *)
Definition strip : string -> string := strip_with py_space.

(** [s.trim()] of the browser page. *)
Definition trim : string -> string := strip_with js_space.

(** The text of one no-break space, U+00A0. *)
Definition nbsp : string :=
  String (ascii_of_nat 194) (String (ascii_of_nat 160) EmptyString).

Definition lower_ascii (c : ascii) : ascii :=
  let n := nat_of_ascii c in
  if ((65 <=? n) && (n <=? 90))%nat then ascii_of_nat (n + 32) else c.

(** [s.lower()], as far as the comparison with an ASCII word without [k]
    goes: the ASCII capitals are lowered and the bytes of the other
    characters are kept (beyond ASCII only the Kelvin sign lowercases to
    an ASCII letter, [k]). *)
Fixpoint lower (s : string) : string :=
  match s with
  | EmptyString => EmptyString
  | String c s' => String (lower_ascii c) (lower s')
  end.

(** ** The remote service *)

(** One element of [results['messages']]; the loop reads [msg['id']]. *)
Record Message : Type := { msg_id : string }.

(** The dictionary a [messages().list(...).execute()] call returns; every
    key may be absent. *)
Record ListResult : Type := {
  messages : option (list Message);
  nextPageToken : option string;
  resultSizeEstimate : option Z
}.

(** [results.get('messages', [])] *)
Definition get_messages (results : ListResult) : list Message :=
  match messages results with
  | Some l => l
  | None => []
  end.

(** [results.get('resultSizeEstimate', 0)] *)
Definition get_resultSizeEstimate (results : ListResult) : Z :=
  match resultSizeEstimate results with
  | Some n => n
  | None => 0
  end.

(** The service object: [get_gmail_service()] either builds it or raises,
    and its two calls either return or raise. *)
Record Service (W : Type) : Type := {
  authorize : W -> res unit * W;
  messages_list :
    string -> Z -> option string -> W -> res ListResult * W;
  messages_batchDelete : list string -> W -> res unit * W
}.

Arguments authorize {W} _ _.
Arguments messages_list {W} _ _ _ _ _.
Arguments messages_batchDelete {W} _ _ _.

(** Lines the command-line tool writes to the console (their text is not
    modelled, only which line is written). *)
Inductive console : Type :=
| PrintErrorCounting (e : exn)
| PrintDeletedBatch (n total : Z)
| PrintErrorDuringDeletion (e : exn)
| PromptFilterNumber (n : nat)
| PrintInvalidChoice
| PromptCustomQuery
| PrintQueryCannotBeEmpty
| PrintConfirmationBanner (query : string) (count : Z)
| PrintLargeDeletion (count : Z)
| PromptUnderstand
| PromptTypeDelete
| PrintFilterList
| PrintFound (count : Z)
| PrintNoEmailsFound
| PrintCancelled
| PrintSuccess (deleted : Z)
| PrintFatal (e : exn).

(** What a run does to the outside, in order. *)
Inductive effect : Type :=
| CallAuthorize
| CallList (q : string) (maxResults : Z) (pageToken : option string)
| CallBatchDelete (ids : list string)
| Print (line : console).

(** The world of the remote service together with the trace of the effects
    issued so far (oldest first). *)
Record IO (W : Type) : Type := mkIO {
  world : W;
  trace : list effect
}.

Arguments mkIO {W} _ _.
Arguments world {W} _.
Arguments trace {W} _.

Section Calls.
Context {W : Type} (service : Service W).

(** [get_gmail_service()] *)
Definition call_authorize (io : IO W) : res unit * IO W :=
  let '(out, w) := authorize service (world io) in
  (out, mkIO w (trace io ++ [CallAuthorize])).

(** [service.users().messages().list(userId='me', q=..., maxResults=...,
    pageToken=...).execute()] *)
Definition call_list (q : string) (maxResults : Z)
           (pageToken : option string) (io : IO W) : res ListResult * IO W :=
  let '(out, w) := messages_list service q maxResults pageToken (world io) in
  (out, mkIO w (trace io ++ [CallList q maxResults pageToken])).

(** [service.users().messages().batchDelete(userId='me',
    body={'ids': ids}).execute()] *)
Definition call_batchDelete (ids : list string) (io : IO W)
  : res unit * IO W :=
  let '(out, w) := messages_batchDelete service ids (world io) in
  (out, mkIO w (trace io ++ [CallBatchDelete ids])).

Definition print (line : console) (io : IO W) : IO W :=
  mkIO (world io) (trace io ++ [Print line]).
End Calls.

(** The batches submitted by a trace, in order. *)
Fixpoint batches (tr : list effect) : list (list string) :=
  match tr with
  | [] => []
  | CallBatchDelete ids :: tr' => ids :: batches tr'
  | _ :: tr' => batches tr'
  end.

(** The [maxResults] argument of every listing call of a trace. *)
Fixpoint list_sizes (tr : list effect) : list Z :=
  match tr with
  | [] => []
  | CallList _ m _ :: tr' => m :: list_sizes tr'
  | _ :: tr' => list_sizes tr'
  end.

(** The query of every listing call of a trace. *)
Fixpoint list_queries (tr : list effect) : list string :=
  match tr with
  | [] => []
  | CallList q _ _ :: tr' => q :: list_queries tr'
  | _ :: tr' => list_queries tr'
  end.

(** How a [while True] loop of the deletion functions leaves one
    iteration, and how it ends. [total_deleted] is the local variable. *)
Inductive iteration : Type :=
| Continue (page_token : option string) (total_deleted : Z)
| Break (total_deleted : Z)
| Throw (e : exn) (total_deleted : Z).

Inductive loop_end : Type :=
| Broke (total_deleted : Z)
| Threw (e : exn) (total_deleted : Z).

(** ** gmail_bulk_delete.py: the command-line tool *)

Module gmail_bulk_delete.

(** [CONFIG['batch_size']] *)
Definition CONFIG_batch_size : Z := 500.

Record Filter : Type := {
  label : string;
  query : string;
  category : string
}.

(** [FILTERS], in the order the dictionary is written. *)
Definition FILTERS : list (string * Filter) := [
  ("old_2y", {| label := "Emails older than 2 years";
                query := "older_than:2y"; category := "Time-based" |});
  ("old_1y", {| label := "Emails older than 1 year";
                query := "older_than:1y"; category := "Time-based" |});
  ("old_6m", {| label := "Emails older than 6 months";
                query := "older_than:6m"; category := "Time-based" |});
  ("old_3m", {| label := "Emails older than 3 months";
                query := "older_than:3m"; category := "Time-based" |});
  ("cat_promotions", {| label := "Promotions";
                query := "category:promotions"; category := "Categories" |});
  ("cat_social", {| label := "Social updates";
                query := "category:social"; category := "Categories" |});
  ("cat_updates", {| label := "Updates & notifications";
                query := "category:updates"; category := "Categories" |});
  ("cat_forums", {| label := "Forums";
                query := "category:forums"; category := "Categories" |});
  ("no_star", {| label := "Unstarred emails (excluding important)";
                query := "-is:starred -label:Important";
                category := "Star Status" |});
  ("read_all", {| label := "All read emails";
                query := "is:read"; category := "Read Status" |});
  ("read_old", {| label := "Read emails older than 1 year";
                query := "is:read older_than:1y";
                category := "Read Status" |});
  ("no_attach", {| label := "Emails without attachments";
                query := "-has:attachment"; category := "Attachments" |});
  ("no_attach_old",
     {| label := "Read emails without attachments older than 1 year";
        query := "is:read -has:attachment older_than:1y";
        category := "Attachments" |});
  ("trash", {| label := "Already in Trash";
                query := "in:trash"; category := "Labels" |});
  ("spam", {| label := "Spam folder";
                query := "in:spam"; category := "Labels" |});
  ("clean_up", {| label := "Promotions + Social older than 6 months";
        query := "(category:promotions OR category:social) older_than:6m";
        category := "Combined" |});
  ("aggressive", {| label := "Read, no attachments, older than 1 year";
        query :=
          "is:read -has:attachment older_than:1y -is:starred -label:Important";
        category := "Combined" |})
].

(** Lookup in a dictionary with string keys, kept as an association list
    (keys are unique in every dictionary built here). *)
Fixpoint dict_get {A : Type} (d : list (string * A)) (k : string)
  : option A :=
  match d with
  | [] => None
  | (k', v) :: d' => if String.eqb k' k then Some v else dict_get d' k
  end.

Section Operations.
Context {W : Type} (service : Service W).

(** [count_emails(service, query)]: an [HttpError] is printed and the
    function returns 0. *)
Definition count_emails (query : string) (io : IO W) : res Z * IO W :=
  match call_list service query 1 None io with
  | (Ret results, io1) => (Ret (get_resultSizeEstimate results), io1)
  | (Raise (HttpError d), io1) =>
      (Ret 0, print (PrintErrorCounting (HttpError d)) io1)
  | (Raise e, io1) => (Raise e, io1)
  end.

(** The body of the [while True] loop of [delete_emails_by_query]. *)
Definition loop_body (query : string) (batch_size : Z)
           (page_token : option string) (total_deleted : Z) (io : IO W)
  : iteration * IO W :=
  match call_list service query batch_size page_token io with
  | (Raise e, io1) => (Throw e total_deleted, io1)
  | (Ret results, io1) =>
      let messages := get_messages results in
      if negb (truthy_list messages) then (Break total_deleted, io1)
      else
        let message_ids := map msg_id messages in
        match call_batchDelete service message_ids io1 with
        | (Raise e, io2) => (Throw e total_deleted, io2)
        | (Ret _, io2) =>
            let total_deleted :=
              total_deleted + Z.of_nat (length message_ids) in
            let io3 :=
              print (PrintDeletedBatch (Z.of_nat (length message_ids))
                                       total_deleted) io2 in
            let page_token := nextPageToken results in
            if negb (truthy_opt page_token)
            then (Break total_deleted, io3)
            else (Continue page_token total_deleted, io3)
        end
  end.

(** [while True: ...], cut after [fuel] iterations ([None]: still
    running). *)
Fixpoint while_true (fuel : nat) (query : string) (batch_size : Z)
         (page_token : option string) (total_deleted : Z) (io : IO W)
  : option loop_end * IO W :=
  match fuel with
  | O => (None, io)
  | S fuel' =>
      match loop_body query batch_size page_token total_deleted io with
      | (Continue page_token' total_deleted', io') =>
          while_true fuel' query batch_size page_token' total_deleted' io'
      | (Break total_deleted', io') => (Some (Broke total_deleted'), io')
      | (Throw e total_deleted', io') =>
          (Some (Threw e total_deleted'), io')
      end
  end.

(** [delete_emails_by_query(service, query, batch_size)] *)
Definition delete_emails_by_query (fuel : nat) (query : string)
           (batch_size : Z) (io : IO W) : option (res Z) * IO W :=
  let batch_size := if batch_size >? 500 then 500 else batch_size in
  match while_true fuel query batch_size None 0 io with
  | (None, io') => (None, io')
  | (Some (Broke total_deleted), io') => (Some (Ret total_deleted), io')
  | (Some (Threw (HttpError d) total_deleted), io') =>
      (Some (Ret total_deleted),
       print (PrintErrorDuringDeletion (HttpError d)) io')
  | (Some (Threw e _), io') => (Some (Raise e), io')
  end.
End Operations.

(** [input(prompt)]: the prompt is written, then a line is read; at the
    end of the input Python raises [EOFError]. *)
Definition input (prompt : console) (stdin : list string)
  : res string * list string * list console :=
  match stdin with
  | [] => (Raise (OtherError "EOFError"), [], [prompt])
  | line :: rest => (Ret line, rest, [prompt])
  end.

(** [str(n)] of a natural number. *)
Definition str_nat (n : nat) : string :=
  NilEmpty.string_of_uint (Nat.to_uint n).

(** The grouping dictionary of [display_filters]: a new category is
    appended, a known one gets the filter appended to its list. *)
Fixpoint group_add (cat : string) (item : string * Filter)
         (categories : list (string * list (string * Filter)))
  : list (string * list (string * Filter)) :=
  match categories with
  | [] => [(cat, [item])]
  | (c, l) :: rest =>
      if String.eqb c cat then (c, l ++ [item]) :: rest
      else (c, l) :: group_add cat item rest
  end.

Definition group (filters : list (string * Filter))
  : list (string * list (string * Filter)) :=
  fold_left (fun categories item =>
               group_add (category (snd item)) item categories)
            filters [].

(** [sorted(...)] on strings. *)
Fixpoint insert_sorted (s : string) (l : list string) : list string :=
  match l with
  | [] => [s]
  | x :: l' => if String.leb s x then s :: l else x :: insert_sorted s l'
  end.

Definition sorted (l : list string) : list string :=
  fold_right insert_sorted [] l.

(** [display_filters()]: the returned [filter_map], numbers as strings to
    filter keys, with ['custom'] last. *)
Definition display_filters : list (string * string) :=
  let categories := group FILTERS in
  let keys :=
    flat_map (fun c => match dict_get categories c with
                       | Some l => map fst l
                       | None => []
                       end)
             (sorted (map fst categories)) in
  let keys := (keys ++ ["custom"])%list in
  combine (map str_nat (seq 1 (length keys))) keys.

(** [get_user_filter_choice(filter_map)], reading the lines of [stdin]. *)
Fixpoint get_user_filter_choice (filter_map : list (string * string))
         (stdin : list string)
  : res (string * string) * list string * list console :=
  let prompt := PromptFilterNumber (length filter_map) in
  match stdin with
  | [] => (Raise (OtherError "EOFError"), [], [prompt])
  | line :: rest =>
      let choice := strip line in
      match dict_get filter_map choice with
      | None =>
          let '(r, rest', out) := get_user_filter_choice filter_map rest in
          (r, rest', prompt :: PrintInvalidChoice :: out)
      | Some filter_key =>
          if String.eqb filter_key "custom" then
            match rest with
            | [] => (Raise (OtherError "EOFError"), [],
                     [prompt; PromptCustomQuery])
            | line2 :: rest2 =>
                let query := strip line2 in
                if negb (truthy_str query) then
                  let '(r, rest', out) :=
                    get_user_filter_choice filter_map rest2 in
                  (r, rest',
                   prompt :: PromptCustomQuery :: PrintQueryCannotBeEmpty
                     :: out)
                else (Ret (query, "Custom query"), rest2,
                      [prompt; PromptCustomQuery])
            end
          else
            match dict_get FILTERS filter_key with
            | None => (Raise (OtherError "KeyError"), rest, [prompt])
            | Some filter_info =>
                (Ret (query filter_info, label filter_info), rest, [prompt])
            end
      end
  end.

(** [confirm_deletion(query, count)] *)
Definition confirm_deletion (query : string) (count : Z)
           (stdin : list string) : res bool * list string * list console :=
  let banner := [PrintConfirmationBanner query count] in
  if count >? 1000 then
    match input PromptUnderstand stdin with
    | (Raise e, rest, out) =>
        (Raise e, rest, banner ++ PrintLargeDeletion count :: out)%list
    | (Ret line, rest, out) =>
        let confirm1 := lower line in
        if negb (String.eqb confirm1 "yes") then
          (Ret false, rest, banner ++ PrintLargeDeletion count :: out)%list
        else
          match input PromptTypeDelete rest with
          | (Raise e, rest', out') =>
              (Raise e, rest',
               banner ++ PrintLargeDeletion count :: out ++ out')%list
          | (Ret line2, rest', out') =>
              (Ret (String.eqb (strip line2) "DELETE"), rest',
               banner ++ PrintLargeDeletion count :: out ++ out')%list
          end
    end
  else
    match input PromptTypeDelete stdin with
    | (Raise e, rest, out) => (Raise e, rest, banner ++ out)%list
    | (Ret line2, rest, out) =>
        (Ret (String.eqb (strip line2) "DELETE"), rest, banner ++ out)%list
    end.

(** How [main()] ends: it returns, or leaves through [sys.exit(code)]. *)
Inductive main_end : Type :=
| Returned
| SysExit (code : Z).

Section Main.
Context {W : Type} (service : Service W).

Definition prints (lines : list console) (io : IO W) : IO W :=
  fold_left (fun io line => print line io) lines io.

(** [main()]: authenticate, choose a filter, preview the count, confirm,
    delete.  Every exception ends in [sys.exit(1)]; [None] means the
    deletion loop is still running after [fuel] iterations. *)
Definition main (fuel : nat) (stdin : list string) (io : IO W)
  : option main_end * list string * IO W :=
  match call_authorize service io with
  | (Raise e, io1) => (Some (SysExit 1), stdin, print (PrintFatal e) io1)
  | (Ret _, io1) =>
      let filter_map := display_filters in
      let io2 := print PrintFilterList io1 in
      match get_user_filter_choice filter_map stdin with
      | (Raise e, stdin1, out) =>
          (Some (SysExit 1), stdin1, print (PrintFatal e) (prints out io2))
      | (Ret (query, label), stdin1, out) =>
          let io3 := prints out io2 in
          match count_emails service query io3 with
          | (Raise e, io4) =>
              (Some (SysExit 1), stdin1, print (PrintFatal e) io4)
          | (Ret count, io4) =>
              let io5 := print (PrintFound count) io4 in
              if count =? 0 then
                (Some Returned, stdin1, print PrintNoEmailsFound io5)
              else
                match confirm_deletion query count stdin1 with
                | (Raise e, stdin2, out2) =>
                    (Some (SysExit 1), stdin2,
                     print (PrintFatal e) (prints out2 io5))
                | (Ret false, stdin2, out2) =>
                    (Some Returned, stdin2,
                     print PrintCancelled (prints out2 io5))
                | (Ret true, stdin2, out2) =>
                    let io6 := prints out2 io5 in
                    match delete_emails_by_query service fuel query
                            CONFIG_batch_size io6 with
                    | (None, io7) => (None, stdin2, io7)
                    | (Some (Raise e), io7) =>
                        (Some (SysExit 1), stdin2,
                         print (PrintFatal e) io7)
                    | (Some (Ret deleted), io7) =>
                        (Some Returned, stdin2,
                         print (PrintSuccess deleted) io7)
                    end
                end
          end
      end
  end.
End Main.

End gmail_bulk_delete.

(** ** gmail_ui.py: the web server and its page *)

Module gmail_ui.

(** [CONFIG['batch_size']] *)
Definition CONFIG_batch_size : Z := 500.

(** The dictionary [deletion_progress]; the key ['error'] is absent until
    an exception handler writes it. *)
Record Progress : Type := mkProgress {
  current : Z;
  total : Z;
  status : string;
  error : option string
}.

Definition set_current (v : Z) (p : Progress) : Progress :=
  mkProgress v (total p) (status p) (error p).
Definition set_total (v : Z) (p : Progress) : Progress :=
  mkProgress (current p) v (status p) (error p).
Definition set_status (v : string) (p : Progress) : Progress :=
  mkProgress (current p) (total p) v (error p).
Definition set_error (v : string) (p : Progress) : Progress :=
  mkProgress (current p) (total p) (status p) (Some v).

(** The module-level globals and their initial values. *)
Record Globals : Type := mkGlobals {
  deletion_in_progress : bool;
  deletion_progress : Progress
}.

Definition initial_progress : Progress :=
  mkProgress 0 0 "idle" None.

Definition initial_globals : Globals :=
  mkGlobals false initial_progress.

Section Operations.
Context {W : Type} (service : Service W).

(** [count_emails(service, query)]: an [HttpError] gives -1. *)
Definition count_emails (query : string) (io : IO W) : res Z * IO W :=
  match call_list service query 1 None io with
  | (Ret results, io1) => (Ret (get_resultSizeEstimate results), io1)
  | (Raise (HttpError _), io1) => (Ret (-1), io1)
  | (Raise e, io1) => (Raise e, io1)
  end.

(** The body of the [while True] loop of [delete_emails_by_query]. *)
Definition loop_body (query : string) (page_token : option string)
           (total_deleted : Z) (p : Progress) (io : IO W)
  : iteration * Progress * IO W :=
  match call_list service query CONFIG_batch_size page_token io with
  | (Raise e, io1) => (Throw e total_deleted, p, io1)
  | (Ret results, io1) =>
      let messages := get_messages results in
      if negb (truthy_list messages) then (Break total_deleted, p, io1)
      else
        let message_ids := map msg_id messages in
        match call_batchDelete service message_ids io1 with
        | (Raise e, io2) => (Throw e total_deleted, p, io2)
        | (Ret _, io2) =>
            let total_deleted :=
              total_deleted + Z.of_nat (length message_ids) in
            let p := set_current total_deleted p in
            let page_token := nextPageToken results in
            if negb (truthy_opt page_token)
            then (Break total_deleted, p, io2)
            else (Continue page_token total_deleted, p, io2)
        end
  end.

Fixpoint while_true (fuel : nat) (query : string)
         (page_token : option string) (total_deleted : Z)
         (p : Progress) (io : IO W) : option loop_end * Progress * IO W :=
  match fuel with
  | O => (None, p, io)
  | S fuel' =>
      match loop_body query page_token total_deleted p io with
      | (Continue page_token' total_deleted', p', io') =>
          while_true fuel' query page_token' total_deleted' p' io'
      | (Break total_deleted', p', io') =>
          (Some (Broke total_deleted'), p', io')
      | (Throw e total_deleted', p', io') =>
          (Some (Threw e total_deleted'), p', io')
      end
  end.

(** [delete_emails_by_query(service, query)], on the global
    [deletion_progress]. *)
Definition delete_emails_by_query (fuel : nat) (query : string)
           (p : Progress) (io : IO W)
  : option (res Z) * Progress * IO W :=
  let p := set_status "deleting" p in
  match while_true fuel query None 0 p io with
  | (None, p', io') => (None, p', io')
  | (Some (Broke total_deleted), p', io') =>
      (Some (Ret total_deleted), set_status "complete" p', io')
  | (Some (Threw (HttpError _) _), p', io') =>
      (Some (Ret (-1)), set_status "error" p', io')
  | (Some (Threw e _), p', io') => (Some (Raise e), p', io')
  end.

(** The [except Exception as e] block of [do_deletion]. *)
Definition on_exception (e : exn) (g : Globals) : Globals :=
  mkGlobals false
    (set_error (str_exn e) (set_status "error" (deletion_progress g))).

(** [do_deletion()], the worker of one job, run without interruption;
    the boolean tells whether it has returned within [fuel] iterations
    of the loop. *)
Definition do_deletion (fuel : nat) (query : string) (g : Globals)
           (io : IO W) : bool * Globals * IO W :=
  let g := mkGlobals true (deletion_progress g) in
  match call_authorize service io with
  | (Raise e, io1) => (true, on_exception e g, io1)
  | (Ret _, io1) =>
      match count_emails query io1 with
      | (Raise e, io2) => (true, on_exception e g, io2)
      | (Ret cnt, io2) =>
          let p := set_current 0 (set_total cnt (deletion_progress g)) in
          match delete_emails_by_query fuel query p io2 with
          | (None, p', io3) => (false, mkGlobals true p', io3)
          | (Some (Ret deleted), p', io3) =>
              (true, mkGlobals false p', io3)
          | (Some (Raise e), p', io3) =>
              (true, on_exception e (mkGlobals true p'), io3)
          end
      end
  end.
End Operations.

(** *** The server as a transition system

    The Flask handlers run on request threads and every accepted job runs
    [do_deletion] on a thread of its own.  A worker thread is a program
    counter into [do_deletion]; one scheduling step runs the statements
    up to the next program point. *)
Inductive pc : Type :=
| AtStart      (* before [deletion_in_progress = True] *)
| AtPrepare    (* before [service = get_gmail_service()] *)
| AtLoopEntry  (* before [deletion_progress['status'] = 'deleting'] *)
| InLoop (page_token : option string) (total_deleted : Z)
               (* before an iteration of [while True] *)
| AtReturn     (* before [deletion_in_progress = False] *)
| Finished.

Record Thread : Type := mkThread {
  target_query : string;
  at_pc : pc
}.

Record Server (W : Type) : Type := mkServer {
  globals : Globals;
  io : IO W;
  threads : list Thread
}.

Arguments mkServer {W} _ _ _.
Arguments globals {W} _.
Arguments io {W} _.
Arguments threads {W} _.

Inductive request : Type :=
| GetIndex
| GetFilters
| PostCount (query : option string)
| PostDelete (query : option string)
| GetProgress.

(** The JSON bodies the handlers return, with the HTTP status when it is
    not 200; the page and the filter table are not modelled further. *)
Inductive response : Type :=
| Html
| JsonFilters
| JsonCount (cnt : Z)
| JsonError (msg : string) (code : Z)
| JsonStatus (s : string)
| JsonProgress (p : Progress).

Inductive event : Type :=
| Request (r : request)
| Schedule (tid : nat).

Section Server.
Context {W : Type} (service : Service W).

(** One scheduling step of a worker thread. *)
Definition thread_step (t : Thread) (g : Globals) (io : IO W)
  : Thread * Globals * IO W :=
  let query := target_query t in
  match at_pc t with
  | AtStart =>
      (mkThread query AtPrepare, mkGlobals true (deletion_progress g), io)
  | AtPrepare =>
      match call_authorize service io with
      | (Raise e, io1) => (mkThread query Finished, on_exception e g, io1)
      | (Ret _, io1) =>
          match count_emails service query io1 with
          | (Raise e, io2) =>
              (mkThread query Finished, on_exception e g, io2)
          | (Ret cnt, io2) =>
              (mkThread query AtLoopEntry,
               mkGlobals (deletion_in_progress g)
                 (set_current 0 (set_total cnt (deletion_progress g))),
               io2)
          end
      end
  | AtLoopEntry =>
      (mkThread query (InLoop None 0),
       mkGlobals (deletion_in_progress g)
         (set_status "deleting" (deletion_progress g)),
       io)
  | InLoop page_token total_deleted =>
      match loop_body service query page_token total_deleted
              (deletion_progress g) io with
      | (Continue page_token' total_deleted', p', io') =>
          (mkThread query (InLoop page_token' total_deleted'),
           mkGlobals (deletion_in_progress g) p', io')
      | (Break _, p', io') =>
          (mkThread query AtReturn,
           mkGlobals (deletion_in_progress g) (set_status "complete" p'),
           io')
      | (Throw (HttpError _) _, p', io') =>
          (mkThread query AtReturn,
           mkGlobals (deletion_in_progress g) (set_status "error" p'),
           io')
      | (Throw e _, p', io') =>
          (mkThread query Finished,
           on_exception e (mkGlobals (deletion_in_progress g) p'), io')
      end
  | AtReturn =>
      (mkThread query Finished, mkGlobals false (deletion_progress g), io)
  | Finished => (t, g, io)
  end.

(** The route handlers.  [request.json.get('query')] is a string or
    absent, and [not query] holds for the absent and for the empty one. *)
Definition count (query : option string) (s : Server W)
  : response * Server W :=
  match query with
  | Some q =>
      if negb (truthy_str q) then (JsonError "No query" 400, s)
      else
        match call_authorize service (io s) with
        | (Raise e, io1) =>
            (JsonError (str_exn e) 500, mkServer (globals s) io1 (threads s))
        | (Ret _, io1) =>
            match count_emails service q io1 with
            | (Raise e, io2) =>
                (JsonError (str_exn e) 500,
                 mkServer (globals s) io2 (threads s))
            | (Ret cnt, io2) =>
                (JsonCount cnt, mkServer (globals s) io2 (threads s))
            end
        end
  | None => (JsonError "No query" 400, s)
  end.

Definition delete (query : option string) (s : Server W)
  : response * Server W :=
  if deletion_in_progress (globals s)
  then (JsonError "Deletion in progress" 400, s)
  else
    match query with
    | Some q =>
        if negb (truthy_str q) then (JsonError "No query" 400, s)
        else (JsonStatus "deleting",
              mkServer (globals s) (io s)
                       (threads s ++ [mkThread q AtStart]))
    | None => (JsonError "No query" 400, s)
    end.

Definition progress (s : Server W) : response * Server W :=
  (JsonProgress (deletion_progress (globals s)), s).

Definition handle (r : request) (s : Server W) : response * Server W :=
  match r with
  | GetIndex => (Html, s)
  | GetFilters => (JsonFilters, s)
  | PostCount q => count q s
  | PostDelete q => delete q s
  | GetProgress => progress s
  end.

(** Replace the thread [tid] of a thread list. *)
Fixpoint set_thread (tid : nat) (t : Thread) (l : list Thread)
  : list Thread :=
  match l, tid with
  | [], _ => []
  | _ :: l', O => t :: l'
  | x :: l', S tid' => x :: set_thread tid' t l'
  end.

(** One event: a request is handled, or a worker is scheduled. *)
Definition step (ev : event) (s : Server W)
  : option response * Server W :=
  match ev with
  | Request r => let '(resp, s') := handle r s in (Some resp, s')
  | Schedule tid =>
      match nth_error (threads s) tid with
      | None => (None, s)
      | Some t =>
          let '(t', g', io') := thread_step t (globals s) (io s) in
          (None, mkServer g' io' (set_thread tid t' (threads s)))
      end
  end.

(** A schedule, event by event, with the responses it produces. *)
Fixpoint exec (evs : list event) (s : Server W)
  : list response * Server W :=
  match evs with
  | [] => ([], s)
  | ev :: evs' =>
      let '(r, s1) := step ev s in
      let '(rs, s2) := exec evs' s1 in
      (match r with Some x => x :: rs | None => rs end, s2)
  end.
End Server.

(** A worker is live from its admission until it has run
    [deletion_in_progress = False] or its exception handler. *)
Definition live (t : Thread) : bool :=
  match at_pc t with
  | Finished => false
  | _ => true
  end.

Definition running_jobs {W : Type} (s : Server W) : nat :=
  length (filter live (threads s)).

Definition initial_server {W : Type} (w : W) : Server W :=
  mkServer initial_globals (mkIO w []) [].

(** A worker that has been admitted and has not yet run its first
    statement. *)
Definition at_start (t : Thread) : bool :=
  match at_pc t with
  | AtStart => true
  | _ => false
  end.

(** A start request races the admission flag when it is handled while
    such a worker exists. *)
Definition races {W : Type} (ev : event) (s : Server W) : bool :=
  match ev with
  | Request (PostDelete _) => existsb at_start (threads s)
  | _ => false
  end.

(** Schedules in which no start request races the flag. *)
Fixpoint race_free {W : Type} (service : Service W) (evs : list event)
         (s : Server W) : Prop :=
  match evs with
  | [] => True
  | ev :: evs' =>
      races ev s = false /\ race_free service evs' (snd (step service ev s))
  end.

(** A worker scheduled [n] times in a row, nothing else running. *)
Fixpoint run_alone {W : Type} (service : Service W) (n : nat) (t : Thread)
         (g : Globals) (io : IO W) : Thread * Globals * IO W :=
  match n with
  | O => (t, g, io)
  | S n' =>
      let '(t', g', io') := thread_step service t g io in
      run_alone service n' t' g' io'
  end.

(** *** The page: [deleteEmails()] of the script in [HTML_TEMPLATE] *)
Inductive page_action : Type :=
| ShowStatus (msg : string)
| ConfirmDelete (emailCount : Z)  (* first [confirm(...)] dialog *)
| ConfirmFinal                    (* second [confirm(...)] dialog *)
| ShowProgress
| FetchDelete (query : string).   (* [fetch('/api/delete', ...)] *)

(** [deleteEmails()], with the value of the custom-query field, the
    selected filter, [emailCount], and the user's answers to the
    [confirm] dialogs in order. *)
Definition deleteEmails (customQuery : string)
           (selectedFilter : option string) (emailCount : Z)
           (answer1 answer2 : bool) : list page_action :=
  let query :=
    if truthy_str (trim customQuery) then Some (trim customQuery)
    else selectedFilter in
  match query with
  | Some q =>
      if negb (truthy_str q) || (emailCount =? 0)
      then [ShowStatus "No emails to delete"]
      else if negb answer1 then [ConfirmDelete emailCount]
      else if negb answer2 then [ConfirmDelete emailCount; ConfirmFinal]
      else [ConfirmDelete emailCount; ConfirmFinal; ShowProgress;
            FetchDelete q]
  | None => [ShowStatus "No emails to delete"]
  end.

End gmail_ui.

(** ** Remote services to run the programs against *)

(** A scripted remote: the answers of the listing calls and of the
    batch-delete calls are fixed in advance and handed out in order,
    whatever the arguments; when the listing answers are used up the
    listing is empty, and when the deletion answers are used up deletions
    succeed. *)
Record Script : Type := mkScript {
  auth : res unit;
  listings : list (res ListResult);
  deletions : list (res unit)
}.

Definition empty_result : ListResult :=
  {| messages := None; nextPageToken := None; resultSizeEstimate := None |}.

Definition scripted : Service Script := {|
  authorize w := (auth w, w);
  messages_list _ _ _ w :=
    match listings w with
    | [] => (Ret empty_result, w)
    | r :: l => (r, mkScript (auth w) l (deletions w))
    end;
  messages_batchDelete _ w :=
    match deletions w with
    | [] => (Ret tt, w)
    | d :: l => (d, mkScript (auth w) (listings w) l)
    end
|}.

(** A mailbox: the world is the list of the identifiers that match the
    query, in listing order.  A listing call returns the first [maxResults]
    of them and a continuation token when more remain; a batch-delete call
    removes its identifiers. *)
Definition mailbox : Service (list string) := {|
  authorize w := (Ret tt, w);
  messages_list _ m _ w :=
    let page := firstn (Z.to_nat m) w in
    (Ret {| messages :=
              match page with
              | [] => None
              | _ => Some (map Build_Message page)
              end;
            nextPageToken :=
              if (length w <=? Z.to_nat m)%nat then None else Some "next";
            resultSizeEstimate := Some (Z.of_nat (length w)) |}, w);
  messages_batchDelete ids w :=
    (Ret tt, filter (fun x => negb (existsb (String.eqb x) ids)) w)
|}.

(** The remote returns at most [maxResults] messages per page. *)
Definition honours_maxResults {W : Type} (service : Service W) : Prop :=
  forall q m t w results w',
    messages_list service q m t w = (Ret results, w') ->
    Z.of_nat (length (get_messages results)) <= Z.max 0 m.

(** ** Pages *)

(** The listing answers [rs] present the pages [pages] to a deletion loop:
    every page is non-empty, every page but the last comes with a
    continuation token, and after the last page either no token is given or
    the next listing is empty. *)
Inductive serves : list (list string) -> list ListResult -> Prop :=
| serves_end : forall rs,
    (forall r rs', rs = r :: rs' -> get_messages r = []) ->
    serves [] rs
| serves_last : forall ids r rs,
    map msg_id (get_messages r) = ids ->
    ids <> [] ->
    truthy_opt (nextPageToken r) = false ->
    serves [ids] (r :: rs)
| serves_next : forall ids r pages rs,
    map msg_id (get_messages r) = ids ->
    ids <> [] ->
    truthy_opt (nextPageToken r) = true ->
    serves pages rs ->
    serves (ids :: pages) (r :: rs).

(** The page [ids] as a listing answer. *)
Definition page (ids : list string) (token : option string) : ListResult :=
  {| messages := Some (map Build_Message ids);
     nextPageToken := token;
     resultSizeEstimate := None |}.

(** The usual presentation of pages: a token on every page but the last. *)
Fixpoint paginate (pages : list (list string)) : list ListResult :=
  match pages with
  | [] => []
  | [ids] => [page ids None]
  | ids :: rest => page ids (Some "next") :: paginate rest
  end.

(** A remote that lists [rs] and never fails. *)
Definition listing (rs : list ListResult) : Script :=
  mkScript (Ret tt) (map Ret rs) [].

(** [ceil(n / b)] *)
Definition ceil_div (n b : nat) : nat := ((n + b - 1) / b)%nat.

(** Every page but the last holds exactly [B] identifiers and the last one
    between 1 and [B]. *)
Fixpoint full_pages (B : nat) (pages : list (list string)) : Prop :=
  match pages with
  | [] => True
  | p :: rest =>
      match rest with
      | [] => (0 < length p <= B)%nat
      | _ :: _ => length p = B /\ full_pages B rest
      end
  end.

(** Identifiers [first], ..., [first + n - 1]. *)
Definition ids_from (first n : nat) : list string :=
  map gmail_bulk_delete.str_nat (seq first n).

(** ** One iteration, seen from outside *)

(** What one iteration of either loop adds to the outside: a listing call
    and, when the page is not empty, one batch-delete call with exactly the
    identifiers of the page. *)
Inductive iteration_effects {W : Type} (service : Service W) (q : string)
          (m : Z) (pt : option string) (w : W)
  : iteration -> Z -> W -> list (list string) -> Prop :=
| it_list_raises : forall e w1 td,
    messages_list service q m pt w = (Raise e, w1) ->
    iteration_effects service q m pt w (Throw e td) td w1 []
| it_empty : forall r w1 td,
    messages_list service q m pt w = (Ret r, w1) ->
    get_messages r = [] ->
    iteration_effects service q m pt w (Break td) td w1 []
| it_delete_raises : forall r w1 e w2 td,
    messages_list service q m pt w = (Ret r, w1) ->
    get_messages r <> [] ->
    messages_batchDelete service (map msg_id (get_messages r)) w1
      = (Raise e, w2) ->
    iteration_effects service q m pt w (Throw e td) td w2
                      [map msg_id (get_messages r)]
| it_last : forall r w1 u w2 td,
    messages_list service q m pt w = (Ret r, w1) ->
    get_messages r <> [] ->
    messages_batchDelete service (map msg_id (get_messages r)) w1
      = (Ret u, w2) ->
    truthy_opt (nextPageToken r) = false ->
    iteration_effects service q m pt w
      (Break (td + Z.of_nat (length (get_messages r)))) td w2
      [map msg_id (get_messages r)]
| it_more : forall r w1 u w2 td,
    messages_list service q m pt w = (Ret r, w1) ->
    get_messages r <> [] ->
    messages_batchDelete service (map msg_id (get_messages r)) w1
      = (Ret u, w2) ->
    truthy_opt (nextPageToken r) = true ->
    iteration_effects service q m pt w
      (Continue (nextPageToken r)
                (td + Z.of_nat (length (get_messages r)))) td w2
      [map msg_id (get_messages r)].

(** The value of [total_deleted] when an iteration, or the loop, is left. *)
Definition iteration_total (it : iteration) : Z :=
  match it with
  | Continue _ td => td
  | Break td => td
  | Throw _ td => td
  end.

Definition loop_end_total (e : loop_end) : Z :=
  match e with
  | Broke td => td
  | Threw _ td => td
  end.

(** At most [fuel] iterations in a row: how the loop ends ([None]: it is
    still running), the world it leaves and the batches it submitted. *)
Inductive loop_run {W : Type} (service : Service W) (q : string) (m : Z)
  : nat -> option string -> Z -> W ->
    option loop_end -> W -> list (list string) -> Prop :=
| run_out_of_fuel : forall pt td w,
    loop_run service q m O pt td w None w []
| run_break : forall fuel pt td w td' w' bs,
    iteration_effects service q m pt w (Break td') td w' bs ->
    loop_run service q m (S fuel) pt td w (Some (Broke td')) w' bs
| run_throw : forall fuel pt td w e td' w' bs,
    iteration_effects service q m pt w (Throw e td') td w' bs ->
    loop_run service q m (S fuel) pt td w (Some (Threw e td')) w' bs
| run_continue : forall fuel pt td w pt' td' w1 bs1 r w' bs2,
    iteration_effects service q m pt w (Continue pt' td') td w1 bs1 ->
    loop_run service q m fuel pt' td' w1 r w' bs2 ->
    loop_run service q m (S fuel) pt td w r w' (bs1 ++ bs2).

(** No identifier appears in two different batches. *)
Definition disjoint_batches (bs : list (list string)) : Prop :=
  forall i j b1 b2 x,
    nth_error bs i = Some b1 -> nth_error bs j = Some b2 ->
    In x b1 -> In x b2 -> i = j.


(** Events that admit no new job: everything but a start request with a
    query. *)
Definition starts_no_job (ev : gmail_ui.event) : bool :=
  match ev with
  | gmail_ui.Request (gmail_ui.PostDelete q) => negb (truthy_opt q)
  | _ => true
  end.

(** What the admission flag guarantees as long as no start request races
    it: at most one worker is live; while the flag is set exactly one is,
    and it has passed its first statement; while it is clear a live worker
    can only be one that has not yet run its first statement. *)
Definition admission_invariant {W : Type} (s : gmail_ui.Server W) : Prop :=
  (gmail_ui.running_jobs s <= 1)%nat /\
  (if gmail_ui.deletion_in_progress (gmail_ui.globals s)
   then gmail_ui.running_jobs s = 1%nat /\
        Forall (fun t => gmail_ui.at_start t = false) (gmail_ui.threads s)
   else Forall (fun t => gmail_ui.live t = true ->
                         gmail_ui.at_start t = true) (gmail_ui.threads s)).

(** ** Concrete inputs used by the examples below *)

(** Five pages of one hundred identifiers each. *)
Definition five_pages : list (list string) :=
  [ids_from 0 100; ids_from 100 100; ids_from 200 100; ids_from 300 100;
   ids_from 400 100].

(** The answer of the count listing: no page, only the estimate. *)
Definition estimate (n : Z) : ListResult :=
  {| messages := None; nextPageToken := None; resultSizeEstimate := Some n |}.

(** A remote that lists [five_pages] and fails the third batch-delete. *)
Definition fails_after_two : Script :=
  mkScript (Ret tt) (map Ret (paginate five_pages))
           [Ret tt; Ret tt; Raise (HttpError "503 backend error")].

(** The same remote seen by the web worker, whose count listing comes
    first. *)
Definition fails_after_two_counted : Script :=
  mkScript (Ret tt) (Ret (estimate 500) :: map Ret (paginate five_pages))
           [Ret tt; Ret tt; Raise (HttpError "503 backend error")].

(** The same, the third batch-delete failing with an exception that is not
    an [HttpError]. *)
Definition reset_after_two_counted : Script :=
  mkScript (Ret tt) (Ret (estimate 500) :: map Ret (paginate five_pages))
           [Ret tt; Ret tt; Raise (OtherError "connection reset")].

(** A remote whose listing fails. *)
Definition listing_down : Script :=
  mkScript (Ret tt) [Raise (HttpError "503 backend error")] [].

From Stdlib Require Import Permutation Sorted.
From Stdlib Require DecimalNat.

(** ** Credentials: [get_gmail_service()] of both programs *)

(** What the function reads of a credentials object. *)
Record Credentials : Type := mkCredentials {
  access_token : string;
  valid : bool;
  expired : bool;
  refresh_token : option string
}.

(** The file [token.pickle]: absent, a pickled credentials object, or
    something [pickle.load] fails on. *)
Inductive token_file : Type :=
| Absent
| Pickled (creds : Credentials)
| Unreadable.

(** The two files of the working directory; [credentials_json] tells
    whether [credentials.json] exists.  Writing [token.pickle] is taken to
    succeed. *)
Record Disk : Type := mkDisk {
  token_pickle : token_file;
  credentials_json : bool
}.

(** The library calls: [creds.refresh(Request())], which gives the
    refreshed object or raises;
    [InstalledAppFlow.from_client_secrets_file(...).run_local_server(port=0)];
    and [build('gmail', 'v1', credentials=creds)]. *)
Record OAuth : Type := mkOAuth {
  refresh : Credentials -> res Credentials;
  run_local_server : res Credentials;
  build : Credentials -> res unit
}.

Inductive auth_event : Type :=
| Refresh (creds : Credentials)
| RunLocalServer
| WriteToken (creds : Credentials)
| Build (creds : Credentials).

(** [get_gmail_service()]; [not_found] is the message of the
    [FileNotFoundError].  The result is the credentials the service was
    built with; the events are the library calls and the write of
    [token.pickle], in order. *)
Definition get_gmail_service (not_found : string) (oauth : OAuth) (d : Disk)
  : res Credentials * Disk * list auth_event :=
  let build_with (c : Credentials) (d : Disk) (evs : list auth_event) :=
    match build oauth c with
    | Ret _ => (Ret c, d, evs ++ [Build c])
    | Raise e => (Raise e, d, evs ++ [Build c])
    end in
  let save_and_build (obtained : res Credentials * list auth_event) :=
    match obtained with
    | (Raise e, evs) => (Raise e, d, evs)
    | (Ret c, evs) =>
        build_with c (mkDisk (Pickled c) (credentials_json d))
                   (evs ++ [WriteToken c])
    end in
  let flow :=
    if negb (credentials_json d)
    then (Raise (OtherError not_found), [])
    else (run_local_server oauth, [RunLocalServer]) in
  match token_pickle d with
  | Unreadable => (Raise (OtherError "pickle.load failed"), d, [])
  | Absent => save_and_build flow
  | Pickled creds =>
      if valid creds then build_with creds d []
      else if expired creds && truthy_opt (refresh_token creds)
           then save_and_build (refresh oauth creds, [Refresh creds])
           else save_and_build flow
  end.

(** The messages of the two programs. *)
Definition cli_not_found : string :=
  "
❌ credentials.json not found!
Please download OAuth credentials from Google Cloud Console:
https://console.cloud.google.com/apis/credentials
".

Definition ui_not_found : string := "credentials.json not found!".

(** ** Grouping the filter table: [display_filters()] and [get_filters()] *)

(** [if cat not in categories: categories[cat] = []] followed by
    [categories[cat].append(item)], on a dictionary kept in insertion
    order. *)
Fixpoint dict_append {A : Type} (cat : string) (item : A)
         (categories : list (string * list A)) : list (string * list A) :=
  match categories with
  | [] => [(cat, [item])]
  | (c, l) :: rest =>
      if String.eqb c cat then (c, l ++ [item]) :: rest
      else (c, l) :: dict_append cat item rest
  end.

(** The grouping loop over a table whose rows have category [cat] and are
    stored as [val]. *)
Definition group_by {R A : Type} (cat : R -> string) (val : R -> A)
           (rows : list R) : list (string * list A) :=
  fold_left (fun categories row => dict_append (cat row) (val row) categories)
            rows [].

(** [display_filters()] over an arbitrary table: the same statements as
    [gmail_bulk_delete.display_filters], which is its value at
    [FILTERS]. *)
Definition menu_order (filters : list (string * gmail_bulk_delete.Filter))
  : list (string * gmail_bulk_delete.Filter) :=
  let categories := gmail_bulk_delete.group filters in
  flat_map (fun c => match gmail_bulk_delete.dict_get categories c with
                     | Some l => l
                     | None => []
                     end)
           (gmail_bulk_delete.sorted (map fst categories)).

Definition display_filters_of
           (filters : list (string * gmail_bulk_delete.Filter))
  : list (string * string) :=
  let categories := gmail_bulk_delete.group filters in
  let keys :=
    flat_map (fun c => match gmail_bulk_delete.dict_get categories c with
                       | Some l => map fst l
                       | None => []
                       end)
             (gmail_bulk_delete.sorted (map fst categories)) in
  let keys := (keys ++ ["custom"])%list in
  combine (map gmail_bulk_delete.str_nat (seq 1 (length keys))) keys.

(** One entry of the JSON answer of [/api/filters]. *)
Record FilterEntry : Type := mkFilterEntry {
  entry_key : string;
  entry_label : string;
  entry_query : string
}.

(** [get_filters()] of the server, over a table: the dictionary handed to
    [jsonify]. *)
Definition get_filters_of (filters : list (string * gmail_bulk_delete.Filter))
  : list (string * list FilterEntry) :=
  group_by (fun row => gmail_bulk_delete.category (snd row))
           (fun row => mkFilterEntry (fst row)
                         (gmail_bulk_delete.label (snd row))
                         (gmail_bulk_delete.query (snd row)))
           filters.

(** [FILTERS] of [gmail_ui.py], in the order the dictionary is written:
    the keys, queries and categories of the command-line table, with
    labels of its own. *)
Definition ui_FILTERS : list (string * gmail_bulk_delete.Filter) := [
  ("old_2y", {| gmail_bulk_delete.label := "Emails older than 2 years";
                gmail_bulk_delete.query := "older_than:2y";
                gmail_bulk_delete.category := "Time-based" |});
  ("old_1y", {| gmail_bulk_delete.label := "Emails older than 1 year";
                gmail_bulk_delete.query := "older_than:1y";
                gmail_bulk_delete.category := "Time-based" |});
  ("old_6m", {| gmail_bulk_delete.label := "Emails older than 6 months";
                gmail_bulk_delete.query := "older_than:6m";
                gmail_bulk_delete.category := "Time-based" |});
  ("old_3m", {| gmail_bulk_delete.label := "Emails older than 3 months";
                gmail_bulk_delete.query := "older_than:3m";
                gmail_bulk_delete.category := "Time-based" |});
  ("cat_promotions", {| gmail_bulk_delete.label := "Promotions";
                gmail_bulk_delete.query := "category:promotions";
                gmail_bulk_delete.category := "Categories" |});
  ("cat_social", {| gmail_bulk_delete.label := "Social updates";
                gmail_bulk_delete.query := "category:social";
                gmail_bulk_delete.category := "Categories" |});
  ("cat_updates", {| gmail_bulk_delete.label := "Updates & notifications";
                gmail_bulk_delete.query := "category:updates";
                gmail_bulk_delete.category := "Categories" |});
  ("cat_forums", {| gmail_bulk_delete.label := "Forums";
                gmail_bulk_delete.query := "category:forums";
                gmail_bulk_delete.category := "Categories" |});
  ("no_star", {| gmail_bulk_delete.label := "Unstarred emails";
                gmail_bulk_delete.query := "-is:starred -label:Important";
                gmail_bulk_delete.category := "Star Status" |});
  ("read_all", {| gmail_bulk_delete.label := "All read emails";
                gmail_bulk_delete.query := "is:read";
                gmail_bulk_delete.category := "Read Status" |});
  ("read_old", {| gmail_bulk_delete.label := "Read emails older than 1 year";
                gmail_bulk_delete.query := "is:read older_than:1y";
                gmail_bulk_delete.category := "Read Status" |});
  ("no_attach", {| gmail_bulk_delete.label := "Emails without attachments";
                gmail_bulk_delete.query := "-has:attachment";
                gmail_bulk_delete.category := "Attachments" |});
  ("no_attach_old",
     {| gmail_bulk_delete.label := "Read, no attachments, older than 1 year";
        gmail_bulk_delete.query := "is:read -has:attachment older_than:1y";
        gmail_bulk_delete.category := "Attachments" |});
  ("trash", {| gmail_bulk_delete.label := "Already in Trash";
                gmail_bulk_delete.query := "in:trash";
                gmail_bulk_delete.category := "Labels" |});
  ("spam", {| gmail_bulk_delete.label := "Spam folder";
                gmail_bulk_delete.query := "in:spam";
                gmail_bulk_delete.category := "Labels" |});
  ("clean_up", {| gmail_bulk_delete.label := "Promotions + Social older than 6m";
        gmail_bulk_delete.query :=
          "(category:promotions OR category:social) older_than:6m";
        gmail_bulk_delete.category := "Combined" |});
  ("aggressive",
     {| gmail_bulk_delete.label := "Read, no attachments, older than 1 year";
        gmail_bulk_delete.query :=
          "is:read -has:attachment older_than:1y -is:starred -label:Important";
        gmail_bulk_delete.category := "Combined" |})
].

(** [get_filters()], the answer of [/api/filters]. *)
Definition get_filters : list (string * list FilterEntry) :=
  get_filters_of ui_FILTERS.

(** The entry of a row of the table. *)
Definition entry_of (row : string * gmail_bulk_delete.Filter) : FilterEntry :=
  mkFilterEntry (fst row) (gmail_bulk_delete.label (snd row))
                (gmail_bulk_delete.query (snd row)).

(** The category of a row of the table. *)
Definition category_of (row : string * gmail_bulk_delete.Filter) : string :=
  gmail_bulk_delete.category (snd row).

(** Whether a row belongs to category [c]. *)
Definition in_category (c : string) (row : string * gmail_bulk_delete.Filter)
  : bool :=
  String.eqb (category_of row) c.

(** ** The page of the server: its state and its handlers *)

(** The script variables [selectedFilter] and [emailCount], the text of
    the custom-query field, and whether the box [countInfo], which holds
    the delete button, is displayed. *)
Record Page : Type := mkPage {
  selectedFilter : option string;
  customQuery : string;
  emailCount : Z;
  countInfo : bool
}.

(** The page as loaded. *)
Definition initial_page : Page := mkPage None "" 0 false.

(** The [change] handler of a filter radio button. *)
Definition select_filter (q : string) (p : Page) : Page :=
  mkPage (Some q) "" (emailCount p) (countInfo p).

(** Typing in the custom-query field: the text changes and the [input]
    handler [clearSelection()] runs. *)
Definition type_custom_query (text : string) (p : Page) : Page :=
  mkPage None text (emailCount p) (countInfo p).

(** [customQuery.value.trim() || selectedFilter] *)
Definition page_query (p : Page) : option string :=
  if truthy_str (trim (customQuery p)) then Some (trim (customQuery p))
  else selectedFilter p.

(** [data.count || 0] on the parsed answer of [/api/count]: error answers
    have no [count]. *)
Definition count_of_answer (r : gmail_ui.response) : Z :=
  match r with
  | gmail_ui.JsonCount c => c
  | _ => 0
  end.

(** [checkCount()]: the request it sends, if any, and the page after the
    answer [answer q] has been handled. *)
Definition checkCount (answer : string -> gmail_ui.response) (p : Page)
  : option string * list gmail_ui.page_action * Page :=
  match page_query p with
  | Some q =>
      if negb (truthy_str q)
      then (None, [gmail_ui.ShowStatus "Please select a filter"], p)
      else
        let n := count_of_answer (answer q) in
        if n =? 0
        then (Some q, [gmail_ui.ShowStatus "No emails found"],
              mkPage (selectedFilter p) (customQuery p) n false)
        else (Some q, [],
              mkPage (selectedFilter p) (customQuery p) n true)
  | None => (None, [gmail_ui.ShowStatus "Please select a filter"], p)
  end.

(** A click on the delete button, which can only be clicked while
    [countInfo] is displayed: [deleteEmails()], and the page afterwards
    ([countInfo] is hidden once the deletion is posted). *)
Definition click_delete (answer1 answer2 : bool) (p : Page)
  : list gmail_ui.page_action * Page :=
  if countInfo p then
    let actions := gmail_ui.deleteEmails (customQuery p) (selectedFilter p)
                     (emailCount p) answer1 answer2 in
    let posted :=
      existsb (fun a => match a with
                        | gmail_ui.ShowProgress => true
                        | _ => false
                        end) actions in
    (actions,
     if posted
     then mkPage (selectedFilter p) (customQuery p) (emailCount p) false
     else p)
  else ([], p).

(** What the user does on the page. *)
Inductive page_event : Type :=
| SelectFilter (q : string)        (* a radio button is chosen *)
| TypeCustomQuery (text : string)  (* the custom-query field is edited *)
| ClickCheck
| ClickDelete (answer1 answer2 : bool).

(** One event, the request for a count being answered at once. *)
Definition page_step (answer : string -> gmail_ui.response)
           (ev : page_event) (p : Page) : list gmail_ui.page_action * Page :=
  match ev with
  | SelectFilter q => ([], select_filter q p)
  | TypeCustomQuery text => ([], type_custom_query text p)
  | ClickCheck => let '(_, actions, p') := checkCount answer p in (actions, p')
  | ClickDelete answer1 answer2 => click_delete answer1 answer2 p
  end.

Fixpoint page_run (answer : string -> gmail_ui.response)
         (evs : list page_event) (p : Page)
  : list gmail_ui.page_action * Page :=
  match evs with
  | [] => ([], p)
  | ev :: evs' =>
      let '(actions, p1) := page_step answer ev p in
      let '(actions', p2) := page_run answer evs' p1 in
      (actions ++ actions', p2)
  end.

(** The answers of [/api/count] of a server in state [s]. *)
Definition count_answers {W : Type} (service : Service W)
           (s : gmail_ui.Server W) (q : string) : gmail_ui.response :=
  fst (gmail_ui.count service (Some q) s).

(** [loadFilters()]: the categories of the answer of [/api/filters] in
    the order of [Object.keys(categories).sort()], each with its radio
    buttons in the order of the answer.  (The order of [sort()] is that of
    [sorted] on names without characters beyond the basic plane.) *)
Definition loadFilters (categories : list (string * list FilterEntry))
  : list (string * list FilterEntry) :=
  map (fun c => (c, match gmail_bulk_delete.dict_get categories c with
                    | Some l => l
                    | None => []
                    end))
      (gmail_bulk_delete.sorted (map fst categories)).

(** The radio buttons of the page, from top to bottom. *)
Definition radio_buttons (shown : list (string * list FilterEntry))
  : list FilterEntry :=
  concat (map snd shown).

(** What the callback of [trackProgress()] does with one answer [p] of
    [/api/progress].  The width of the bar is [current / total * 100]
    percent for [Some (current, total)] and 0 for [None]; the texts built
    with [toLocaleString()] are kept as the numbers they show. *)
Inductive progress_action : Type :=
| SetProgressFill (ratio : option (Z * Z))
| SetProgressDetails (current total : Z)
| ClearInterval
| ShowDeleted (current : Z)
| ShowError (msg : string)
| HideProgress.

Definition on_progress_answer (p : gmail_ui.Progress)
  : list progress_action :=
  let shown :=
    [SetProgressFill
       (if gmail_ui.total p >? 0
        then Some (gmail_ui.current p, gmail_ui.total p) else None);
     SetProgressDetails (gmail_ui.current p) (gmail_ui.total p)] in
  if String.eqb (gmail_ui.status p) "complete" then
    shown ++ [ClearInterval; ShowDeleted (gmail_ui.current p); HideProgress]
  else if String.eqb (gmail_ui.status p) "error" then
    shown ++ [ClearInterval;
              ShowError
                ("Error: " ++
                 (if truthy_opt (gmail_ui.error p)
                  then match gmail_ui.error p with
                       | Some e => e
                       | None => "Unknown"
                       end
                  else "Unknown"));
              HideProgress]
  else shown.

(** ** The progress lines of the command-line loop *)

(** The lines "Deleted batch of n | Total: t" of a trace, as pairs
    [(n, t)]. *)
Fixpoint deleted_lines (tr : list effect) : list (Z * Z) :=
  match tr with
  | [] => []
  | Print (PrintDeletedBatch n t) :: tr' => (n, t) :: deleted_lines tr'
  | _ :: tr' => deleted_lines tr'
  end.

(** The line "Deleted batch of ..." a trace begins with, if it begins with
    one. *)
Definition line_first (tr : list effect) : option (Z * Z) :=
  match tr with
  | Print (PrintDeletedBatch n t) :: _ => Some (n, t)
  | _ => None
  end.

(** Every batch-delete call of a trace with the line printed right after
    it, if the next effect is such a line. *)
Fixpoint reports (tr : list effect) : list (list string * option (Z * Z)) :=
  match tr with
  | [] => []
  | CallBatchDelete ids :: tr' => (ids, line_first tr') :: reports tr'
  | _ :: tr' => reports tr'
  end.

(** The calls of a trace issued again, in order, on the remote in world
    [w]: for every batch-delete call whether it returned ([true]) or
    raised, and the world left at the end. *)
Fixpoint replay {W : Type} (service : Service W) (w : W) (tr : list effect)
  : list (list string * bool) * W :=
  match tr with
  | [] => ([], w)
  | CallAuthorize :: tr' => replay service (snd (authorize service w)) tr'
  | CallList q m pt :: tr' =>
      replay service (snd (messages_list service q m pt w)) tr'
  | CallBatchDelete ids :: tr' =>
      let '(answers, w') :=
        replay service (snd (messages_batchDelete service ids w)) tr' in
      ((ids, match fst (messages_batchDelete service ids w) with
             | Ret _ => true
             | Raise _ => false
             end) :: answers, w')
  | Print _ :: tr' => replay service w tr'
  end.

(** What the batch-delete calls should report, given their answers and
    the total [td] so far: a call that returned, the size of its batch
    and the new total; a call that raised, nothing. *)
Fixpoint expected_reports (td : Z) (answers : list (list string * bool))
  : list (list string * option (Z * Z)) :=
  match answers with
  | [] => []
  | (ids, true) :: answers' =>
      let n := Z.of_nat (length ids) in
      (ids, Some (n, td + n)) :: expected_reports (td + n) answers'
  | (ids, false) :: answers' => (ids, None) :: expected_reports td answers'
  end.

(** The number of identifiers in the batches whose call returned. *)
Fixpoint deleted_count (answers : list (list string * bool)) : Z :=
  match answers with
  | [] => 0
  | (ids, true) :: answers' => Z.of_nat (length ids) + deleted_count answers'
  | (_, false) :: answers' => deleted_count answers'
  end.

(** ** Concrete inputs used by the examples of the further properties *)

Definition stale_credentials : Credentials :=
  mkCredentials "ya29.old" false true (Some "1//refresh").

Definition fresh_credentials : Credentials :=
  mkCredentials "ya29.new" true false (Some "1//refresh").

(** Libraries that refresh and authorize to [fresh_credentials]. *)
Definition working_oauth : OAuth :=
  mkOAuth (fun _ => Ret fresh_credentials) (Ret fresh_credentials)
          (fun _ => Ret tt).

(** Libraries that are off line: refreshing and the browser flow fail. *)
Definition offline_oauth : OAuth :=
  mkOAuth (fun _ => Raise (OtherError "TransportError"))
          (Raise (OtherError "TransportError"))
          (fun _ => Ret tt).


(** A remote with an estimate of 2 that lists two pages. *)
Definition two_pages_counted : Script :=
  mkScript (Ret tt)
           (Ret (estimate 2) :: map Ret (paginate [["m1"]; ["m2"]])) [].

(** A server whose first job has completed. *)
Definition after_first_job : gmail_ui.Server Script :=
  gmail_ui.mkServer
    (gmail_ui.mkGlobals false (gmail_ui.mkProgress 3 3 "complete" None))
    (mkIO (listing [estimate 7]) [])
    [gmail_ui.mkThread "in:spam" gmail_ui.Finished].

(** The page with the filter "Spam folder" chosen. *)
Definition spam_selected : Page := select_filter "in:spam" initial_page.

(** A schedule with two start requests, the second after the first worker
    has taken the flag. *)
Definition two_requests : list gmail_ui.event :=
  [gmail_ui.Request (gmail_ui.PostDelete (Some "in:spam"));
   gmail_ui.Schedule 0;
   gmail_ui.Request (gmail_ui.PostDelete (Some "is:read"));
   gmail_ui.Schedule 0; gmail_ui.Schedule 0; gmail_ui.Schedule 0;
   gmail_ui.Schedule 0; gmail_ui.Schedule 0;
   gmail_ui.Request (gmail_ui.PostDelete (Some "is:read"))].

(** * Properties *)

(** ** The embedding on small inputs *)

Example strip_blanks : strip "  in:spam 	" = "in:spam" /\ strip "   " = "".
Proof. split; reflexivity. Qed.

(** White space beyond ASCII is stripped as well; a zero-width space,
    U+200B, is no white space. *)
Example strip_no_break_space :
  strip ("DELETE" ++ nbsp)%string = "DELETE" /\
  strip (nbsp ++ "x" ++ nbsp)%string = "x" /\
  strip nbsp = "" /\
  trim (nbsp ++ " in:spam")%string = "in:spam" /\
  strip (String (ascii_of_nat 226) (String (ascii_of_nat 128)
           (String (ascii_of_nat 139) "x")))
  <> "x".
Proof. repeat split; vm_compute; congruence. Qed.

Example lower_yes : lower "YeS" = "yes" /\ lower " yes" <> "yes".
Proof. split; [reflexivity|discriminate]. Qed.

(** A typed [DELETE] followed by a no-break space confirms, a custom query
    between no-break spaces is taken without them, and one that consists
    of a no-break space is refused as empty. *)
Example prompts_strip_no_break_space :
  gmail_bulk_delete.confirm_deletion "in:spam" 5 [("DELETE" ++ nbsp)%string]
  = (Ret true, [], [PrintConfirmationBanner "in:spam" 5; PromptTypeDelete]) /\
  gmail_bulk_delete.get_user_filter_choice gmail_bulk_delete.display_filters
    ["18"; (nbsp ++ "x" ++ nbsp)%string]
  = (Ret ("x", "Custom query"), [],
     [PromptFilterNumber 18; PromptCustomQuery]) /\
  gmail_bulk_delete.get_user_filter_choice gmail_bulk_delete.display_filters
    ["18"; nbsp; "10"]
  = (Ret ("in:spam", "Spam folder"), [],
     [PromptFilterNumber 18; PromptCustomQuery; PrintQueryCannotBeEmpty;
      PromptFilterNumber 18]) /\
  batches (trace (snd (gmail_bulk_delete.main scripted 3
                         ["15"; ("DELETE" ++ nbsp)%string]
                         (mkIO two_pages_counted []))))
  = [["m1"]; ["m2"]].
Proof. repeat split; vm_compute; reflexivity. Qed.

(** The numbering of [display_filters]: categories in sorted order, the
    filters of a category in the order of [FILTERS], the custom query
    last. *)
Example display_filters_numbering :
  map snd gmail_bulk_delete.display_filters
  = ["no_attach"; "no_attach_old"; "cat_promotions"; "cat_social";
     "cat_updates"; "cat_forums"; "clean_up"; "aggressive"; "trash"; "spam";
     "read_all"; "read_old"; "no_star"; "old_2y"; "old_1y"; "old_6m";
     "old_3m"; "custom"] /\
  gmail_bulk_delete.dict_get gmail_bulk_delete.display_filters "18"
  = Some "custom".
Proof. split; reflexivity. Qed.

(** A whole run of [main]: filter 10 (spam), three matches, confirmed by
    typing DELETE. *)
Example main_deletes_spam :
  let out := gmail_bulk_delete.main scripted 5 ["10"; "DELETE"]
               (mkIO (listing [estimate 3; page ["m1"; "m2"; "m3"] None]) [])
  in
  fst (fst out) = Some gmail_bulk_delete.Returned /\
  batches (trace (snd out)) = [["m1"; "m2"; "m3"]] /\
  list_queries (trace (snd out)) = ["in:spam"; "in:spam"] /\
  In (Print (PrintSuccess 3)) (trace (snd out)).
Proof. vm_compute. repeat split. tauto. Qed.

(** A job of the server, step by step: the two polls in between see the
    status ['deleting'] with one and two batches done. *)
Example server_job_polled :
  let evs := [gmail_ui.Request (gmail_ui.PostDelete (Some "in:spam"));
              gmail_ui.Schedule 0; gmail_ui.Schedule 0; gmail_ui.Schedule 0;
              gmail_ui.Schedule 0; gmail_ui.Request gmail_ui.GetProgress;
              gmail_ui.Schedule 0; gmail_ui.Request gmail_ui.GetProgress;
              gmail_ui.Schedule 0; gmail_ui.Request gmail_ui.GetProgress] in
  let out := gmail_ui.exec scripted evs
               (gmail_ui.initial_server
                  (listing [estimate 3; page ["m1"; "m2"] (Some "t");
                            page ["m3"] None])) in
  fst out
  = [gmail_ui.JsonStatus "deleting";
     gmail_ui.JsonProgress (gmail_ui.mkProgress 2 3 "deleting" None);
     gmail_ui.JsonProgress (gmail_ui.mkProgress 3 3 "complete" None);
     gmail_ui.JsonProgress (gmail_ui.mkProgress 3 3 "complete" None)] /\
  gmail_ui.deletion_in_progress (gmail_ui.globals (snd out)) = false /\
  gmail_ui.running_jobs (snd out) = 0%nat.
Proof. vm_compute. repeat split. Qed.

(** ** Traces *)

Lemma batches_app : forall tr1 tr2,
  batches (tr1 ++ tr2) = batches tr1 ++ batches tr2.
Proof.
  induction tr1 as [|e tr1 IH]; intros tr2; simpl; [reflexivity|].
  destruct e; simpl; rewrite ?IH; reflexivity.
Qed.

Lemma list_sizes_app : forall tr1 tr2,
  list_sizes (tr1 ++ tr2) = list_sizes tr1 ++ list_sizes tr2.
Proof.
  induction tr1 as [|e tr1 IH]; intros tr2; simpl; [reflexivity|].
  destruct e; simpl; rewrite ?IH; reflexivity.
Qed.

Lemma list_queries_app : forall tr1 tr2,
  list_queries (tr1 ++ tr2) = list_queries tr1 ++ list_queries tr2.
Proof.
  induction tr1 as [|e tr1 IH]; intros tr2; simpl; [reflexivity|].
  destruct e; simpl; rewrite ?IH; reflexivity.
Qed.

Lemma truthy_list_false : forall (A : Type) (l : list A),
  negb (truthy_list l) = true <-> l = [].
Proof. intros A [|x l]; simpl; split; congruence. Qed.

(** ** One iteration of each loop *)

Section Iteration.
Context {W : Type} (service : Service W).

Lemma call_list_eq : forall q m pt (io : IO W),
  call_list service q m pt io =
  (fst (messages_list service q m pt (world io)),
   mkIO (snd (messages_list service q m pt (world io)))
        (trace io ++ [CallList q m pt])).
Proof.
  intros. unfold call_list.
  destruct (messages_list service q m pt (world io)); reflexivity.
Qed.

Lemma call_batchDelete_eq : forall ids (io : IO W),
  call_batchDelete service ids io =
  (fst (messages_batchDelete service ids (world io)),
   mkIO (snd (messages_batchDelete service ids (world io)))
        (trace io ++ [CallBatchDelete ids])).
Proof.
  intros. unfold call_batchDelete.
  destruct (messages_batchDelete service ids (world io)); reflexivity.
Qed.

Lemma call_authorize_eq : forall (io : IO W),
  call_authorize service io =
  (fst (authorize service (world io)),
   mkIO (snd (authorize service (world io))) (trace io ++ [CallAuthorize])).
Proof.
  intros. unfold call_authorize.
  destruct (authorize service (world io)); reflexivity.
Qed.

Lemma cli_loop_body_effects : forall q m pt td io it io',
  gmail_bulk_delete.loop_body service q m pt td io = (it, io') ->
  exists tr,
    trace io' = trace io ++ tr /\
    list_sizes tr = [m] /\ list_queries tr = [q] /\
    iteration_effects service q m pt (world io) it td (world io')
                      (batches tr).
Proof.
  intros q m pt td io it io'.
  unfold gmail_bulk_delete.loop_body.
  rewrite call_list_eq.
  destruct (messages_list service q m pt (world io)) as [[r|e] w1] eqn:EL;
    cbn [fst snd].
  - destruct (negb (truthy_list (get_messages r))) eqn:EM.
    + intros H; inversion H; subst; clear H.
      exists [CallList q m pt]; repeat split.
      apply truthy_list_false in EM. eapply it_empty; eauto.
    + assert (NE : get_messages r <> []).
      { intros E. apply truthy_list_false in E. congruence. }
      rewrite call_batchDelete_eq; cbn [world trace].
      destruct (messages_batchDelete service
                  (map msg_id (get_messages r)) w1)
        as [[u|e] w2] eqn:ED; cbn [fst snd].
      * rewrite length_map.
        destruct (negb (truthy_opt (nextPageToken r))) eqn:ET;
          intros H; inversion H; subst; clear H;
          unfold print; cbn [world trace];
          rewrite <- !app_assoc; cbn [app];
          (eexists; split; [reflexivity|]);
          cbn [batches list_sizes list_queries];
          repeat split.
        -- eapply it_last; eauto. now destruct (truthy_opt _).
        -- eapply it_more; eauto. now destruct (truthy_opt _).
      * intros H; inversion H; subst; clear H; cbn [world trace].
        rewrite <- !app_assoc; cbn [app].
        (eexists; split; [reflexivity|]);
          cbn [batches list_sizes list_queries]; repeat split.
        eapply it_delete_raises; eauto.
  - intros H; inversion H; subst; clear H.
    exists [CallList q m pt]; repeat split.
    eapply it_list_raises; eauto.
Qed.

(** The loop of the server does the same to the outside, with
    [maxResults = 500], and publishes [total_deleted] after every
    successful batch. *)
Lemma ui_loop_body_effects : forall q pt td p io it p' io',
  gmail_ui.loop_body service q pt td p io = (it, p', io') ->
  exists tr,
    trace io' = trace io ++ tr /\
    list_sizes tr = [500] /\ list_queries tr = [q] /\
    iteration_effects service q 500 pt (world io) it td (world io')
                      (batches tr) /\
    gmail_ui.total p' = gmail_ui.total p /\
    gmail_ui.status p' = gmail_ui.status p /\
    gmail_ui.error p' = gmail_ui.error p /\
    (gmail_ui.current p = td -> gmail_ui.current p' = iteration_total it).
Proof.
  intros q pt td p io it p' io'.
  unfold gmail_ui.loop_body, gmail_ui.CONFIG_batch_size.
  rewrite call_list_eq.
  destruct (messages_list service q 500 pt (world io)) as [[r|e] w1] eqn:EL;
    cbn [fst snd].
  - destruct (negb (truthy_list (get_messages r))) eqn:EM.
    + intros H; inversion H; subst; clear H.
      exists [CallList q 500 pt]; repeat split; auto.
      apply truthy_list_false in EM. eapply it_empty; eauto.
    + assert (NE : get_messages r <> []).
      { intros E. apply truthy_list_false in E. congruence. }
      rewrite call_batchDelete_eq; cbn [world trace].
      destruct (messages_batchDelete service
                  (map msg_id (get_messages r)) w1)
        as [[u|e] w2] eqn:ED; cbn [fst snd].
      * rewrite length_map.
        destruct (negb (truthy_opt (nextPageToken r))) eqn:ET;
          intros H; inversion H; subst; clear H;
          cbn [world trace];
          rewrite <- !app_assoc; cbn [app];
          (eexists; split; [reflexivity|]);
          cbn [batches list_sizes list_queries];
          repeat split; auto.
        -- eapply it_last; eauto. now destruct (truthy_opt _).
        -- eapply it_more; eauto. now destruct (truthy_opt _).
      * intros H; inversion H; subst; clear H; cbn [world trace].
        rewrite <- !app_assoc; cbn [app].
        (eexists; split; [reflexivity|]);
          cbn [batches list_sizes list_queries]; repeat split; auto.
        eapply it_delete_raises; eauto.
  - intros H; inversion H; subst; clear H.
    exists [CallList q 500 pt]; repeat split; auto.
    eapply it_list_raises; eauto.
Qed.

(** *** The loops, seen from outside *)

Lemma cli_while_true_run : forall fuel q m pt td io r io',
  gmail_bulk_delete.while_true service fuel q m pt td io = (r, io') ->
  exists tr,
    trace io' = trace io ++ tr /\
    Forall (fun x => x = m) (list_sizes tr) /\
    Forall (fun x => x = q) (list_queries tr) /\
    loop_run service q m fuel pt td (world io) r (world io') (batches tr).
Proof.
  induction fuel as [|fuel IH]; intros q m pt td io r io' H; simpl in H.
  - inversion H; subst. exists []. rewrite app_nil_r.
    repeat split; constructor.
  - destruct (gmail_bulk_delete.loop_body service q m pt td io)
      as [it io1] eqn:EB.
    apply cli_loop_body_effects in EB.
    destruct EB as (tr1 & Ht & Hs & Hq & Hit).
    destruct it as [pt' td'|td'|e td'].
    + apply IH in H. destruct H as (tr2 & Ht2 & Hs2 & Hq2 & Hrun).
      exists (tr1 ++ tr2). rewrite Ht2, Ht, app_assoc.
      rewrite list_sizes_app, list_queries_app, batches_app, Hs, Hq.
      repeat split; try (constructor; auto).
      eapply run_continue; eauto.
    + inversion H; subst. exists tr1. rewrite Hs, Hq.
      repeat split; auto. now apply run_break.
    + inversion H; subst. exists tr1. rewrite Hs, Hq.
      repeat split; auto. now apply run_throw.
Qed.

Lemma ui_while_true_run : forall fuel q pt td p io r p' io',
  gmail_ui.while_true service fuel q pt td p io = (r, p', io') ->
  exists tr,
    trace io' = trace io ++ tr /\
    Forall (fun x => x = 500) (list_sizes tr) /\
    Forall (fun x => x = q) (list_queries tr) /\
    loop_run service q 500 fuel pt td (world io) r (world io')
             (batches tr) /\
    gmail_ui.total p' = gmail_ui.total p /\
    gmail_ui.status p' = gmail_ui.status p /\
    gmail_ui.error p' = gmail_ui.error p /\
    (gmail_ui.current p = td ->
     forall e, r = Some e -> gmail_ui.current p' = loop_end_total e).
Proof.
  induction fuel as [|fuel IH]; intros q pt td p io r p' io' H; simpl in H.
  - inversion H; subst. exists []. rewrite app_nil_r.
    repeat split; try constructor. intros _ e He; discriminate.
  - destruct (gmail_ui.loop_body service q pt td p io)
      as [[it p1] io1] eqn:EB.
    apply ui_loop_body_effects in EB.
    destruct EB as (tr1 & Ht & Hs & Hq & Hit & Htot & Hst & Her & Hcur).
    destruct it as [pt' td'|td'|e td'].
    + apply IH in H.
      destruct H as (tr2 & Ht2 & Hs2 & Hq2 & Hrun & Htot2 & Hst2 & Her2
                     & Hcur2).
      exists (tr1 ++ tr2). rewrite Ht2, Ht, app_assoc.
      rewrite list_sizes_app, list_queries_app, batches_app, Hs, Hq.
      repeat split; try (constructor; auto); try congruence.
      * eapply run_continue; eauto.
      * intros Hc. apply Hcur2. now apply Hcur.
    + inversion H; subst. exists tr1. rewrite Hs, Hq.
      repeat split; auto.
      * now apply run_break.
      * intros Hc e He. inversion He; subst. now apply Hcur.
    + inversion H; subst. exists tr1. rewrite Hs, Hq.
      repeat split; auto.
      * now apply run_throw.
      * intros Hc e0 He. inversion He; subst. now apply Hcur.
Qed.
End Iteration.

(** ** Batch sizes (C3) *)

Lemma mailbox_honours_maxResults : honours_maxResults mailbox.
Proof.
  intros q m t w results w' H. simpl in H.
  injection H as Hr Hw. subst results. unfold get_messages; simpl.
  assert (L : (length (firstn (Z.to_nat m) w) <= Z.to_nat m)%nat).
  { rewrite length_firstn. apply Nat.le_min_l. }
  destruct (firstn (Z.to_nat m) w) as [|x l] eqn:E.
  - simpl. lia.
  - rewrite length_map. rewrite <- E in *. lia.
Qed.

Section Bounds.
Context {W : Type} (service : Service W).
Hypothesis honours : honours_maxResults service.

Lemma iteration_batches_bounded : forall q m pt w it td w' bs,
  iteration_effects service q m pt w it td w' bs ->
  Forall (fun ids => Z.of_nat (length ids) <= Z.max 0 m) bs.
Proof.
  intros q m pt w it td w' bs H.
  destruct H; try constructor; try constructor;
    rewrite length_map; eapply honours; eauto.
Qed.

Lemma loop_run_batches_bounded : forall q m fuel pt td w r w' bs,
  loop_run service q m fuel pt td w r w' bs ->
  Forall (fun ids => Z.of_nat (length ids) <= Z.max 0 m) bs.
Proof.
  intros q m fuel pt td w r w' bs H.
  induction H; try constructor;
    try (eapply iteration_batches_bounded; eassumption).
  apply Forall_app; split; auto.
  eapply iteration_batches_bounded; eassumption.
Qed.
End Bounds.

Lemma batches_print : forall tr line,
  batches (tr ++ [Print line]) = batches tr.
Proof. intros. rewrite batches_app. simpl. apply app_nil_r. Qed.

Lemma list_sizes_print : forall tr line,
  list_sizes (tr ++ [Print line]) = list_sizes tr.
Proof. intros. rewrite list_sizes_app. simpl. apply app_nil_r. Qed.

Lemma list_queries_print : forall tr line,
  list_queries (tr ++ [Print line]) = list_queries tr.
Proof. intros. rewrite list_queries_app. simpl. apply app_nil_r. Qed.

(** The trace [delete_emails_by_query] of the command-line tool leaves is
    the trace of its loop, up to the line it prints on an [HttpError]. *)
Lemma cli_delete_trace :
  forall (W : Type) (service : Service W) fuel q batch_size (io : IO W),
    let m := if batch_size >? 500 then 500 else batch_size in
    let run := gmail_bulk_delete.while_true service fuel q m None 0 io in
    let out := gmail_bulk_delete.delete_emails_by_query
                 service fuel q batch_size io in
    world (snd out) = world (snd run) /\
    batches (trace (snd out)) = batches (trace (snd run)) /\
    list_sizes (trace (snd out)) = list_sizes (trace (snd run)) /\
    list_queries (trace (snd out)) = list_queries (trace (snd run)).
Proof.
  intros W service fuel q batch_size io m run out.
  unfold out, gmail_bulk_delete.delete_emails_by_query.
  fold m. fold run. destruct run as [[[td|[d|d] td]|] io1]; simpl;
    rewrite ?batches_print, ?list_sizes_print, ?list_queries_print; auto.
Qed.

Lemma ui_delete_trace :
  forall (W : Type) (service : Service W) fuel q p (io : IO W),
    let run := gmail_ui.while_true service fuel q None 0
                 (gmail_ui.set_status "deleting" p) io in
    let out := gmail_ui.delete_emails_by_query service fuel q p io in
    snd out = snd run.
Proof.
  intros W service fuel q p io run out.
  unfold out, gmail_ui.delete_emails_by_query. fold run.
  destruct run as [[[[td|[d|d] td]|] p1] io1]; reflexivity.
Qed.

Lemma clamp_min : forall b, (if b >? 500 then 500 else b) = Z.min b 500.
Proof. intros b. destruct (Z.gtb_spec b 500); lia. Qed.

(** C3. Whatever batch size is requested, every listing call of
    [delete_emails_by_query] asks for [min batch_size 500] messages (a
    larger value is cut to 500 before the loop, without any error), the
    server's loop always asks for 500, and, the remote returning no more
    messages than asked for, every batch-delete call of either loop
    receives at most 500 identifiers.  This holds for every prefix of a
    run ([fuel] iterations), so also for runs that do not end. *)
Theorem C3_batch_delete_at_most_500 :
  forall (W : Type) (service : Service W),
    honours_maxResults service ->
    forall (fuel : nat) (query : string) (batch_size : Z) (w : W)
           (p : gmail_ui.Progress),
      let cli := gmail_bulk_delete.delete_emails_by_query
                   service fuel query batch_size (mkIO w []) in
      let ui := gmail_ui.delete_emails_by_query
                  service fuel query p (mkIO w []) in
      Forall (fun m => m = Z.min batch_size 500)
             (list_sizes (trace (snd cli))) /\
      Forall (fun ids => (length ids <= 500)%nat)
             (batches (trace (snd cli))) /\
      Forall (fun m => m = 500) (list_sizes (trace (snd ui))) /\
      Forall (fun ids => (length ids <= 500)%nat)
             (batches (trace (snd ui))).
Proof.
  intros W service Hh fuel query batch_size w p cli ui.
  pose proof (cli_delete_trace W service fuel query batch_size (mkIO w []))
    as (_ & Hb & Hs & _).
  fold cli in Hb, Hs. rewrite Hb, Hs. clear Hb Hs.
  pose proof (ui_delete_trace W service fuel query p (mkIO w [])) as Hu.
  cbv zeta in Hu. fold ui in Hu. rewrite Hu. clear Hu.
  rewrite clamp_min.
  destruct (gmail_bulk_delete.while_true service fuel query
              (Z.min batch_size 500) None 0 (mkIO w [])) as [r1 io1] eqn:E1.
  destruct (gmail_ui.while_true service fuel query None 0
              (gmail_ui.set_status "deleting" p) (mkIO w []))
    as [[r2 p2] io2] eqn:E2.
  apply cli_while_true_run in E1. destruct E1 as (tr1 & T1 & S1 & _ & R1).
  apply ui_while_true_run in E2. destruct E2 as (tr2 & T2 & S2 & _ & R2 & _).
  simpl in T1, T2. cbn [snd]. rewrite T1, T2.
  apply (loop_run_batches_bounded service Hh) in R1, R2.
  repeat split; auto.
  - eapply Forall_impl; [|exact R1]. simpl; intros; lia.
  - eapply Forall_impl; [|exact R2]. simpl; intros; lia.
Qed.

(** A mailbox of 1234 identifiers and a requested batch size of 700. *)
Lemma C3_batch_delete_at_most_500_witness :
  honours_maxResults mailbox /\
  let cli := gmail_bulk_delete.delete_emails_by_query
               mailbox 10 "in:spam" 700 (mkIO (ids_from 0 1234) []) in
  let ui := gmail_ui.delete_emails_by_query
              mailbox 10 "in:spam" gmail_ui.initial_progress
              (mkIO (ids_from 0 1234) []) in
  Forall (fun m => m = Z.min 700 500) (list_sizes (trace (snd cli))) /\
  Forall (fun ids => (length ids <= 500)%nat) (batches (trace (snd cli))) /\
  Forall (fun m => m = 500) (list_sizes (trace (snd ui))) /\
  Forall (fun ids => (length ids <= 500)%nat) (batches (trace (snd ui))).
Proof.
  split.
  - exact mailbox_honours_maxResults.
  - exact (C3_batch_delete_at_most_500 _ mailbox mailbox_honours_maxResults
             10%nat "in:spam" 700 (ids_from 0 1234)
             gmail_ui.initial_progress).
Defined.

(** ** The loop is a function of the remote's answers *)

Section Determinism.
Context {W : Type} (service : Service W).

Lemma iteration_effects_fun : forall q m pt w td it1 w1 bs1 it2 w2 bs2,
  iteration_effects service q m pt w it1 td w1 bs1 ->
  iteration_effects service q m pt w it2 td w2 bs2 ->
  it1 = it2 /\ w1 = w2 /\ bs1 = bs2.
Proof.
  intros q m pt w td it1 w1 bs1 it2 w2 bs2 H1 H2.
  destruct H1; destruct H2;
    repeat match goal with
           | A : messages_list _ _ _ _ _ = _,
             B : messages_list _ _ _ _ _ = _ |- _ =>
               rewrite A in B; inversion B; subst; clear B
           | A : messages_batchDelete _ _ _ = _,
             B : messages_batchDelete _ _ _ = _ |- _ =>
               rewrite A in B; inversion B; subst; clear B
           end;
    try congruence; auto.
Qed.

Lemma loop_run_fun : forall q m fuel pt td w r1 w1 bs1,
  loop_run service q m fuel pt td w r1 w1 bs1 ->
  forall r2 w2 bs2,
    loop_run service q m fuel pt td w r2 w2 bs2 ->
    r1 = r2 /\ w1 = w2 /\ bs1 = bs2.
Proof.
  intros q m fuel pt td w r1 w1 bs1 H1.
  induction H1; intros rb wb bsb H2; inversion H2; subst;
    try (match goal with
         | A : iteration_effects _ _ _ _ _ _ _ _ _,
           B : iteration_effects _ _ _ _ _ _ _ _ _ |- _ =>
             destruct (iteration_effects_fun _ _ _ _ _ _ _ _ _ _ _ A B)
               as (E1 & E2 & E3); inversion E1; subst
         end); auto.
  match goal with
  | B : loop_run _ _ _ _ _ _ _ _ _ _ |- _ =>
      apply IHloop_run in B; destruct B as (? & ? & ?); subst; auto
  end.
Qed.
End Determinism.

(** ** Error-free runs over pages (C1) *)

Lemma scripted_list : forall a r rs ds q m pt,
  messages_list scripted q m pt (mkScript a (r :: rs) ds)
  = (r, mkScript a rs ds).
Proof. reflexivity. Qed.

Lemma all_succeed_step : forall (ds : list (res unit)),
  Forall (fun d => d = Ret tt) ds ->
  forall a ls ids,
    messages_batchDelete scripted ids (mkScript a ls ds)
    = (Ret tt, mkScript a ls (tl ds)).
Proof.
  intros ds H a ls ids. destruct ds as [|d ds]; simpl; [reflexivity|].
  inversion H; subst. reflexivity.
Qed.

Lemma all_succeed_tl : forall (ds : list (res unit)),
  Forall (fun d => d = Ret tt) ds -> Forall (fun d => d = Ret tt) (tl ds).
Proof. intros ds H. destruct H; simpl; auto. Qed.

(** On a remote that serves [pages] and fails no call, the loop ends by
    [break] after one batch-delete per page, having counted every
    identifier. *)
Lemma serves_loop_run : forall pages rs,
  serves pages rs ->
  forall a ds q m fuel pt td,
    Forall (fun d => d = Ret tt) ds ->
    (length pages < fuel)%nat ->
    exists w',
      loop_run scripted q m fuel pt td (mkScript a (map Ret rs) ds)
               (Some (Broke (td + Z.of_nat (length (concat pages)))))
               w' pages.
Proof.
  intros pages rs H.
  induction H as [rs Hrs|ids r rs Hm Hne Ht|ids r pages rs Hm Hne Ht Hs IH];
    intros a ds q m fuel pt td Hds Hfuel.
  - destruct fuel as [|fuel]; [simpl in Hfuel; lia|].
    simpl. rewrite Z.add_0_r.
    destruct rs as [|r rs].
    + eexists. apply run_break. eapply it_empty; reflexivity.
    + eexists. apply run_break. eapply it_empty.
      * simpl. reflexivity.
      * eapply Hrs; reflexivity.
  - destruct fuel as [|fuel]; [simpl in Hfuel; lia|].
    assert (Hn : get_messages r <> []).
    { intros E. rewrite E in Hm. simpl in Hm. congruence. }
    simpl concat. rewrite app_nil_r, <- Hm, length_map.
    eexists. apply run_break. eapply it_last; eauto.
    + simpl. reflexivity.
    + apply all_succeed_step; assumption.
  - destruct fuel as [|fuel]; [simpl in Hfuel; lia|].
    assert (Hn : get_messages r <> []).
    { intros E. rewrite E in Hm. simpl in Hm. congruence. }
    destruct (IH a (tl ds) q m fuel (nextPageToken r)
                 (td + Z.of_nat (length (get_messages r))))
      as (w' & Hrun).
    { apply all_succeed_tl; assumption. }
    { simpl in Hfuel; lia. }
    exists w'.
    replace (td + Z.of_nat (length (concat (ids :: pages))))
      with (td + Z.of_nat (length (get_messages r))
            + Z.of_nat (length (concat pages))).
    2:{ simpl concat. rewrite length_app, <- Hm, length_map. lia. }
    change (ids :: pages) with ([ids] ++ pages). rewrite <- Hm.
    eapply run_continue; [|exact Hrun].
    eapply it_more; eauto.
    + simpl. reflexivity.
    + apply all_succeed_step; assumption.
Qed.

Lemma NoDup_app_disjoint : forall (A : Type) (l1 l2 : list A) (a : A),
  NoDup (l1 ++ l2) -> In a l1 -> In a l2 -> False.
Proof.
  intros A l1 l2 a. induction l1 as [|x l1 IH]; simpl; intros H H1 H2.
  - contradiction.
  - apply NoDup_cons_iff in H. destruct H as [Hx Hnd].
    destruct H1 as [->|H1]; auto.
    apply Hx. apply in_or_app. now right.
Qed.

Lemma NoDup_concat_disjoint : forall bs,
  NoDup (concat bs) -> disjoint_batches bs.
Proof.
  induction bs as [|b bs IH]; intros H i j b1 b2 x Hi Hj H1 H2.
  - destruct i; discriminate.
  - simpl in H.
    assert (Hin : forall k c, nth_error bs k = Some c -> In x c ->
                              In x (concat bs)).
    { intros k c Hk Hc. apply in_concat. exists c. split; auto.
      eapply nth_error_In; eauto. }
    destruct i as [|i], j as [|j]; simpl in Hi, Hj; auto.
    + inversion Hi; subst. exfalso.
      eapply NoDup_app_disjoint; eauto.
    + inversion Hj; subst. exfalso.
      eapply NoDup_app_disjoint; eauto.
    + f_equal. eapply IH; eauto. eapply NoDup_app_remove_l; eauto.
Qed.

(** Counting pages. *)
Lemma pages_at_most : forall B pages,
  Forall (fun p : list string => (length p <= B)%nat) pages ->
  (length (concat pages) <= B * length pages)%nat.
Proof.
  intros B pages H. induction H as [|p pages Hp _ IH]; simpl; [lia|].
  rewrite length_app. lia.
Qed.

Lemma ceil_div_le_pages : forall B pages,
  (0 < B)%nat ->
  Forall (fun p : list string => (length p <= B)%nat) pages ->
  (ceil_div (length (concat pages)) B <= length pages)%nat.
Proof.
  intros B pages HB H. apply pages_at_most in H. unfold ceil_div.
  apply Nat.lt_succ_r. apply Nat.Div0.div_lt_upper_bound. lia.
Qed.

Lemma full_pages_length : forall B pages,
  full_pages B pages -> pages <> [] ->
  exists r, (0 < r <= B)%nat /\
            (length (concat pages) = B * (length pages - 1) + r)%nat.
Proof.
  intros B pages. induction pages as [|p pages IH]; intros H Hne.
  - congruence.
  - destruct pages as [|p' pages].
    + simpl in *. exists (length p). rewrite app_nil_r. lia.
    + destruct H as [Hp H]. destruct (IH H) as (r & Hr & Hl); [discriminate|].
      exists r. split; auto.
      change (concat (p :: p' :: pages)) with (p ++ concat (p' :: pages)).
      rewrite length_app, Hl, Hp. simpl length. lia.
Qed.

Lemma full_pages_ceil_div : forall B pages,
  (0 < B)%nat -> full_pages B pages ->
  length pages = ceil_div (length (concat pages)) B.
Proof.
  intros B pages HB H. destruct pages as [|p pages].
  - simpl. unfold ceil_div. simpl. symmetry. apply Nat.div_small. lia.
  - destruct (full_pages_length B (p :: pages) H) as (r & Hr & Hl);
      [discriminate|].
    unfold ceil_div. rewrite Hl.
    apply (Nat.div_unique _ B _ (r - 1)); [lia|].
    simpl length. nia.
Qed.

Lemma cli_delete_on_pages : forall pages rs,
  serves pages rs ->
  forall a ds fuel q batch_size tr0,
    Forall (fun d => d = Ret tt) ds ->
    (length pages < fuel)%nat ->
    exists io',
      gmail_bulk_delete.delete_emails_by_query scripted fuel q batch_size
        (mkIO (mkScript a (map Ret rs) ds) tr0)
      = (Some (Ret (Z.of_nat (length (concat pages)))), io') /\
      batches (trace io') = batches tr0 ++ pages.
Proof.
  intros pages rs Hs a ds fuel q batch_size tr0 Hds Hfuel.
  unfold gmail_bulk_delete.delete_emails_by_query.
  set (m := if batch_size >? 500 then 500 else batch_size).
  destruct (gmail_bulk_delete.while_true scripted fuel q m None 0
              (mkIO (mkScript a (map Ret rs) ds) tr0)) as [r io1] eqn:E.
  apply cli_while_true_run in E. destruct E as (tr & Ht & _ & _ & Hrun).
  destruct (serves_loop_run pages rs Hs a ds q m fuel None 0 Hds Hfuel)
    as (w' & Hrun').
  destruct (loop_run_fun scripted _ _ _ _ _ _ _ _ _ Hrun _ _ _ Hrun')
    as (-> & _ & Hb).
  exists io1. split; [reflexivity|].
  rewrite Ht, batches_app, Hb. reflexivity.
Qed.

Lemma ui_delete_on_pages : forall pages rs,
  serves pages rs ->
  forall a ds fuel q p tr0,
    Forall (fun d => d = Ret tt) ds ->
    (length pages < fuel)%nat ->
    gmail_ui.current p = 0 ->
    exists io',
      gmail_ui.delete_emails_by_query scripted fuel q p
        (mkIO (mkScript a (map Ret rs) ds) tr0)
      = (Some (Ret (Z.of_nat (length (concat pages)))),
         gmail_ui.mkProgress (Z.of_nat (length (concat pages)))
                             (gmail_ui.total p) "complete" (gmail_ui.error p),
         io') /\
      batches (trace io') = batches tr0 ++ pages.
Proof.
  intros pages rs Hs a ds fuel q p tr0 Hds Hfuel Hcur.
  unfold gmail_ui.delete_emails_by_query.
  destruct (gmail_ui.while_true scripted fuel q None 0
              (gmail_ui.set_status "deleting" p)
              (mkIO (mkScript a (map Ret rs) ds) tr0))
    as [[r p1] io1] eqn:E.
  apply ui_while_true_run in E.
  destruct E as (tr & Ht & _ & _ & Hrun & Htot & _ & Herr & Hc).
  destruct (serves_loop_run pages rs Hs a ds q 500 fuel None 0 Hds Hfuel)
    as (w' & Hrun').
  destruct (loop_run_fun scripted _ _ _ _ _ _ _ _ _ Hrun _ _ _ Hrun')
    as (-> & _ & Hb).
  exists io1. split.
  - specialize (Hc Hcur _ eq_refl). simpl in Hc, Htot, Herr.
    unfold gmail_ui.set_status. rewrite Hc, Htot, Herr. reflexivity.
  - rewrite Ht, batches_app, Hb. reflexivity.
Qed.

Lemma ui_do_deletion_on_pages : forall pages rs,
  serves pages rs ->
  forall r0 fuel q g,
    (length pages < fuel)%nat ->
    exists io',
      gmail_ui.do_deletion scripted fuel q g (mkIO (listing (r0 :: rs)) [])
      = (true,
         gmail_ui.mkGlobals false
           (gmail_ui.mkProgress
              (Z.of_nat (length (concat pages)))
              (get_resultSizeEstimate r0) "complete"
              (gmail_ui.error (gmail_ui.deletion_progress g))),
         io') /\
      batches (trace io') = pages.
Proof.
  intros pages rs Hs r0 fuel q g Hfuel.
  unfold gmail_ui.do_deletion, gmail_ui.count_emails, listing.
  cbn [map]. rewrite call_authorize_eq.
  cbn [authorize scripted auth world trace fst snd].
  rewrite call_list_eq. cbn [world trace]. rewrite scripted_list.
  cbn [world trace fst snd map].
  cbn [gmail_ui.deletion_progress].
  set (p := gmail_ui.set_current 0 _).
  destruct (ui_delete_on_pages pages rs Hs (Ret tt) [] fuel q p
              (([] ++ [CallAuthorize]) ++ [CallList q 1 None]))
    as (io' & E & Hb); auto.
  simpl map in E. rewrite E. exists io'. split; [reflexivity|].
  rewrite Hb. reflexivity.
Qed.

(** No match: the first listing is empty, the loop leaves at once with
    count 0 and has issued one listing call and no batch-delete call; the
    server job ends with status ['complete']. *)
Lemma zero_matches : forall r rs r0 q batch_size fuel g,
  get_messages r = [] ->
  let cli := gmail_bulk_delete.delete_emails_by_query scripted (S fuel) q
               batch_size (mkIO (listing (r :: rs)) []) in
  let ui := gmail_ui.do_deletion scripted (S fuel) q g
              (mkIO (listing (r0 :: r :: rs)) []) in
  fst cli = Some (Ret 0) /\
  trace (snd cli) = [CallList q (Z.min batch_size 500) None] /\
  fst ui = (true,
            gmail_ui.mkGlobals false
              (gmail_ui.mkProgress 0 (get_resultSizeEstimate r0) "complete"
                 (gmail_ui.error (gmail_ui.deletion_progress g)))) /\
  batches (trace (snd ui)) = [].
Proof.
  intros r rs r0 q batch_size fuel g Hr cli ui.
  unfold cli, ui, gmail_bulk_delete.delete_emails_by_query,
    gmail_ui.do_deletion, gmail_ui.count_emails,
    gmail_ui.delete_emails_by_query, listing.
  rewrite clamp_min.
  cbn [gmail_bulk_delete.while_true gmail_ui.while_true map].
  unfold gmail_bulk_delete.loop_body, gmail_ui.loop_body.
  rewrite call_authorize_eq.
  cbn [authorize scripted auth world trace fst snd].
  rewrite !call_list_eq. cbn [world trace]. rewrite !scripted_list.
  cbn [world trace fst snd]. rewrite call_list_eq. cbn [world trace].
  rewrite scripted_list. cbn [fst snd]. rewrite Hr.
  cbn [truthy_list negb fst snd trace world app batches].
  repeat split.
Qed.

(** C1 (as amended). On a remote that fails no call and serves the
    identifiers as the non-empty pages [pages] (in particular pages of at
    most [B] identifiers), both deletion loops end successfully within
    [length pages + 1] iterations, issue exactly one batch-delete call per
    page, with the identifiers of that page, and return (the server:
    record in [deletion_progress], with status ['complete']) the number
    [N] of identifiers listed; the identifiers being distinct, none
    appears in two batches.  The number of calls is at least
    [ceil(N / B)], and it is exactly [ceil(N / B)] when every page but the
    last holds exactly [B] identifiers.  With no page at all ([N = 0])
    this is: count 0, status ['complete'], no batch-delete call. *)
Theorem C1_one_batch_delete_per_page :
  forall (pages : list (list string)) (rs : list ListResult)
         (r0 : ListResult) (fuel : nat) (query : string) (batch_size : Z)
         (g : gmail_ui.Globals),
    serves pages rs ->
    NoDup (concat pages) ->
    (length pages < fuel)%nat ->
    0 < batch_size ->
    let N := length (concat pages) in
    let B := Z.to_nat (Z.min batch_size 500) in
    let cli := gmail_bulk_delete.delete_emails_by_query
                 scripted fuel query batch_size (mkIO (listing rs) []) in
    let ui := gmail_ui.do_deletion
                scripted fuel query g (mkIO (listing (r0 :: rs)) []) in
    (fst cli = Some (Ret (Z.of_nat N)) /\
     batches (trace (snd cli)) = pages /\
     disjoint_batches (batches (trace (snd cli))) /\
     (Forall (fun p => (length p <= B)%nat) pages ->
      (ceil_div N B <= length (batches (trace (snd cli))))%nat) /\
     (full_pages B pages ->
      length (batches (trace (snd cli))) = ceil_div N B)) /\
    (fst ui =
       (true,
        gmail_ui.mkGlobals false
          (gmail_ui.mkProgress
             (Z.of_nat N) (get_resultSizeEstimate r0) "complete"
             (gmail_ui.error (gmail_ui.deletion_progress g)))) /\
     batches (trace (snd ui)) = pages /\
     disjoint_batches (batches (trace (snd ui))) /\
     (Forall (fun p => (length p <= 500)%nat) pages ->
      (ceil_div N 500 <= length (batches (trace (snd ui))))%nat) /\
     (full_pages 500 pages ->
      length (batches (trace (snd ui))) = ceil_div N 500)).
Proof.
  intros pages rs r0 fuel query batch_size g Hs Hnd Hfuel Hpos N B cli ui.
  destruct (cli_delete_on_pages pages rs Hs (Ret tt) [] fuel query
              batch_size [] (Forall_nil _) Hfuel) as (io1 & E1 & B1).
  destruct (ui_do_deletion_on_pages pages rs Hs r0 fuel query g Hfuel)
    as (io2 & E2 & B2).
  assert (HB : (0 < B)%nat) by (unfold B; lia).
  unfold cli, ui, listing in *. rewrite E1, E2. cbn [fst snd].
  simpl in B1. rewrite B1, B2.
  split; repeat split; auto using NoDup_concat_disjoint.
  - now apply ceil_div_le_pages.
  - now apply full_pages_ceil_div.
  - apply ceil_div_le_pages; auto; lia.
  - apply full_pages_ceil_div; lia.
Qed.

(** Two pages, of two and of one identifier, with batch size 2. *)
Lemma C1_one_batch_delete_per_page_witness :
  let pages := [["m1"; "m2"]; ["m3"]] in
  let cli := gmail_bulk_delete.delete_emails_by_query
               scripted 3 "in:spam" 2 (mkIO (listing (paginate pages)) []) in
  let ui := gmail_ui.do_deletion
              scripted 3 "in:spam" gmail_ui.initial_globals
              (mkIO (listing (estimate 3 :: paginate pages)) []) in
  (serves pages (paginate pages) /\ NoDup (concat pages) /\
   (length pages < 3)%nat /\ 0 < 2 /\
   full_pages (Z.to_nat (Z.min 2 500)) pages) /\
  fst cli = Some (Ret 3) /\
  length (batches (trace (snd cli))) = ceil_div 3 2 /\
  fst ui = (true,
            gmail_ui.mkGlobals false (gmail_ui.mkProgress 3 3 "complete" None))
  /\ disjoint_batches (batches (trace (snd ui))).
Proof.
  intros pages cli ui.
  assert (Hs : serves pages (paginate pages)).
  { apply serves_next; [reflexivity|discriminate|reflexivity|].
    apply serves_last; [reflexivity|discriminate|reflexivity]. }
  assert (Hnd : NoDup (concat pages)).
  { simpl. repeat constructor; simpl; intuition discriminate. }
  assert (Hfuel : (length pages < 3)%nat) by (simpl; lia).
  assert (Hfull : full_pages (Z.to_nat (Z.min 2 500)) pages)
    by (simpl; lia).
  pose proof (C1_one_batch_delete_per_page pages (paginate pages)
                (estimate 3) 3%nat "in:spam" 2 gmail_ui.initial_globals
                Hs Hnd Hfuel eq_refl) as H.
  cbv zeta in H.
  destruct H as ((H1 & _ & _ & _ & H5) & (H6 & _ & H8 & _)).
  split.
  { split; [exact Hs|]. split; [exact Hnd|]. split; [exact Hfuel|].
    split; [reflexivity|exact Hfull]. }
  split; [exact H1|]. split; [exact (H5 Hfull)|].
  split; [exact H6|exact H8].
Defined.

(** C1 as stated fails when the remote returns short pages: two pages of
    one identifier each are pages of at most 500 identifiers, the run is
    free of errors and deletes both identifiers, but it takes two
    batch-delete calls where [ceil(2 / 500)] is 1. *)
Lemma C1_short_pages_counterexample :
  let pages := [["m1"]; ["m2"]] in
  let cli := gmail_bulk_delete.delete_emails_by_query
               scripted 3 "in:spam" 500
               (mkIO (listing (paginate pages)) []) in
  Forall (fun p => (length p <= 500)%nat) pages /\
  fst cli = Some (Ret 2) /\
  batches (trace (snd cli)) = pages /\
  ceil_div (length (concat pages)) 500 = 1%nat /\
  length (batches (trace (snd cli)))
    <> ceil_div (length (concat pages)) 500.
Proof.
  intros pages cli. repeat split.
  - repeat constructor; simpl; lia.
  - vm_compute. discriminate.
Qed.

(** ** The loop on a mailbox that fills its pages *)

Lemma filter_all : forall (A : Type) (l : list A),
  filter (fun _ => true) l = l.
Proof. induction l as [|x l IH]; simpl; congruence. Qed.

(** Deleting the first page of a mailbox leaves the rest of it. *)
Lemma delete_first_page : forall n (w : list string),
  NoDup w ->
  filter (fun x => negb (existsb (String.eqb x) (firstn n w))) w
  = skipn n w.
Proof.
  induction n as [|n IH]; intros w Hnd.
  - simpl. apply filter_all.
  - destruct w as [|x w]; [reflexivity|].
    apply NoDup_cons_iff in Hnd. destruct Hnd as (Hx & Hnd).
    cbn [firstn skipn filter existsb].
    rewrite String.eqb_refl. cbn [orb negb].
    rewrite <- (IH w Hnd). apply filter_ext_in.
    intros y Hy. cbn [existsb].
    destruct (String.eqb_spec y x) as [->|Hne]; [contradiction|].
    reflexivity.
Qed.

Lemma map_msg_id : forall ids, map msg_id (map Build_Message ids) = ids.
Proof.
  induction ids as [|x ids IH]; simpl; congruence.
Qed.

Lemma mailbox_loop_run : forall n (w : list string),
  (length w <= n)%nat ->
  NoDup w ->
  forall q m fuel pt td,
    0 < m ->
    (length w < fuel)%nat ->
    exists bs,
      loop_run mailbox q m fuel pt td w
               (Some (Broke (td + Z.of_nat (length w)))) [] bs /\
      concat bs = w /\ full_pages (Z.to_nat m) bs.
Proof.
  induction n as [|n IH]; intros w Hn Hnd q m fuel pt td Hm Hfuel.
  - destruct w; [|simpl in Hn; lia].
    destruct fuel as [|fuel]; [simpl in Hfuel; lia|].
    exists []. simpl. rewrite Z.add_0_r. repeat split; auto.
    apply run_break. eapply it_empty; [simpl; reflexivity|].
    unfold get_messages. simpl. now rewrite firstn_nil.
  - destruct fuel as [|fuel]; [lia|].
    destruct w as [|x w].
    { exists []. simpl. rewrite Z.add_0_r. repeat split; auto.
      apply run_break. eapply it_empty; [simpl; reflexivity|].
      unfold get_messages. simpl. now rewrite firstn_nil. }
    set (B := Z.to_nat m). assert (HB : (0 < B)%nat) by (unfold B; lia).
    set (pg := firstn B (x :: w)).
    assert (Hpg : pg <> []).
    { unfold pg. destruct B; [lia|]. simpl. discriminate. }
    set (r := {| messages := Some (map Build_Message pg);
                 nextPageToken :=
                   if (length (x :: w) <=? B)%nat then None else Some "next";
                 resultSizeEstimate := Some (Z.of_nat (length (x :: w))) |}).
    assert (EL : messages_list mailbox q m pt (x :: w) = (Ret r, x :: w)).
    { unfold r, pg, B. cbn [messages_list mailbox].
      destruct (firstn (Z.to_nat m) (x :: w)) eqn:E; [|reflexivity].
      exfalso. apply Hpg. unfold pg, B. exact E. }
    assert (EM : map msg_id (get_messages r) = pg)
      by (unfold r, get_messages; simpl; apply map_msg_id).
    assert (NE : get_messages r <> []).
    { intros E. rewrite E in EM. simpl in EM. congruence. }
    assert (ED : messages_batchDelete mailbox (map msg_id (get_messages r))
                   (x :: w) = (Ret tt, skipn B (x :: w))).
    { rewrite EM. cbn [messages_batchDelete mailbox].
      unfold pg. now rewrite delete_first_page. }
    assert (Hlen : length (get_messages r) = length pg)
      by (rewrite <- EM; now rewrite length_map).
    destruct (le_lt_dec (length (x :: w)) B) as [Hle|Hgt].
    + (* the last page *)
      assert (Hall : pg = x :: w)
        by (unfold pg; apply firstn_all2; exact Hle).
      assert (Hrest : skipn B (x :: w) = [])
        by (apply skipn_all2; exact Hle).
      assert (Htok : truthy_opt (nextPageToken r) = false).
      { unfold r. cbn [nextPageToken].
        apply Nat.leb_le in Hle. now rewrite Hle. }
      assert (Hit : iteration_effects mailbox q m pt (x :: w)
                      (Break (td + Z.of_nat (length (get_messages r))))
                      td (skipn B (x :: w))
                      [map msg_id (get_messages r)])
        by (eapply it_last; eauto).
      rewrite EM, Hlen, Hrest, Hall in Hit.
      exists [x :: w]. split; [|split].
      * apply run_break. exact Hit.
      * simpl. now rewrite app_nil_r.
      * cbn [full_pages length] in *. lia.
    + (* a full page, and more to come *)
      assert (Hpl : length pg = B).
      { unfold pg. rewrite length_firstn. lia. }
      assert (Hsl : (length (skipn B (x :: w)) <= n)%nat).
      { rewrite length_skipn. cbn [length] in *. lia. }
      assert (Hsnd : NoDup (skipn B (x :: w))).
      { rewrite <- (firstn_skipn B (x :: w)) in Hnd.
        eapply NoDup_app_remove_l; eauto. }
      assert (Htok : truthy_opt (nextPageToken r) = true).
      { unfold r. cbn [nextPageToken].
        apply Nat.leb_gt in Hgt. now rewrite Hgt. }
      assert (Hit : iteration_effects mailbox q m pt (x :: w)
                      (Continue (nextPageToken r)
                         (td + Z.of_nat (length (get_messages r))))
                      td (skipn B (x :: w))
                      [map msg_id (get_messages r)])
        by (eapply it_more; eauto).
      destruct (IH (skipn B (x :: w)) Hsl Hsnd q m fuel
                   (nextPageToken r)
                   (td + Z.of_nat (length (get_messages r))) Hm)
        as (bs & Hrun & Hcat & Hfull).
      { rewrite length_skipn. cbn [length] in *. lia. }
      rewrite EM in Hit.
      exists (pg :: bs). split; [|split].
      * replace (td + Z.of_nat (length (x :: w)))
          with (td + Z.of_nat (length (get_messages r))
                + Z.of_nat (length (skipn B (x :: w)))).
        2:{ rewrite Hlen, Hpl, length_skipn. cbn [length] in *. lia. }
        change (pg :: bs) with ([pg] ++ bs).
        eapply run_continue; [exact Hit|exact Hrun].
      * simpl. rewrite Hcat. unfold pg. apply firstn_skipn.
      * assert (Hbs : bs <> []).
        { intros ->. simpl in Hcat.
          assert (Hz : length (skipn B (x :: w)) = 0%nat)
            by (rewrite <- Hcat; reflexivity).
          rewrite length_skipn in Hz. cbn [length] in *. lia. }
        destruct bs as [|b bs]; [congruence|].
        cbn [full_pages]. fold B. split; auto.
Qed.

(** On a mailbox of [N] distinct identifiers that fills every page asked
    for, the command-line loop deletes everything: it returns [N], empties
    the mailbox and issues exactly [ceil(N / B)] batch-delete calls, [B]
    being [min batch_size 500]. *)
Lemma mailbox_deleted_in_full_pages : forall (ids : list string) q batch_size
                                             fuel,
  NoDup ids ->
  0 < batch_size ->
  (length ids < fuel)%nat ->
  let B := Z.to_nat (Z.min batch_size 500) in
  let out := gmail_bulk_delete.delete_emails_by_query
               mailbox fuel q batch_size (mkIO ids []) in
  fst out = Some (Ret (Z.of_nat (length ids))) /\
  world (snd out) = [] /\
  concat (batches (trace (snd out))) = ids /\
  length (batches (trace (snd out))) = ceil_div (length ids) B.
Proof.
  intros ids q batch_size fuel Hnd Hb Hfuel B out.
  pose proof (cli_delete_trace _ mailbox fuel q batch_size (mkIO ids []))
    as (Hw & Hbt & _).
  fold out in Hw, Hbt. rewrite Hw, Hbt.
  unfold out, gmail_bulk_delete.delete_emails_by_query.
  rewrite clamp_min.
  destruct (gmail_bulk_delete.while_true mailbox fuel q
              (Z.min batch_size 500) None 0 (mkIO ids [])) as [r io1] eqn:E.
  apply cli_while_true_run in E. destruct E as (tr & Ht & _ & _ & Hrun).
  destruct (mailbox_loop_run (length ids) ids (Nat.le_refl _) Hnd q
              (Z.min batch_size 500) fuel None 0 ltac:(lia) Hfuel)
    as (bs & Hrun' & Hcat & Hfull).
  destruct (loop_run_fun mailbox _ _ _ _ _ _ _ _ _ Hrun _ _ _ Hrun')
    as (-> & Hw' & Hb').
  simpl in Ht, Hw'. cbn [fst snd]. rewrite Ht, Hb', Hw', Hcat.
  repeat split; auto.
  rewrite (full_pages_ceil_div B bs);
    [now rewrite Hcat|unfold B; lia|exact Hfull].
Qed.

(** The scenario of 1234 matches with batch size 500: three list/delete
    cycles of 500, 500 and 234 identifiers, 1234 deleted. *)
Example scenario_1234 :
  let out := gmail_bulk_delete.delete_emails_by_query
               mailbox 4 "older_than:2y" 500 (mkIO (ids_from 0 1234) []) in
  fst out = Some (Ret 1234) /\
  map (@length string) (batches (trace (snd out))) = [500; 500; 234]%nat /\
  list_sizes (trace (snd out)) = [500; 500; 500].
Proof. vm_compute. repeat split. Qed.

(** ** Remote errors in the middle of a run (C2) *)




(** C2. A remote failure after 2 of 5 batches of 100: the server job ends
    with status ['error'] and [current = 200], the worker has returned and
    cleared the admission flag, but [deletion_progress] has no ['error']
    entry: the [except HttpError] branch of the server's
    [delete_emails_by_query] sets the status and returns -1 without
    recording any detail.  The command-line tool returns 200 and prints
    the error, and the server itself records the detail when the same
    call fails with any other exception, in the [except Exception] block
    of [do_deletion]. *)
Theorem C2_server_error_detail_absent :
  let ui := gmail_ui.do_deletion scripted 10 "in:spam"
              gmail_ui.initial_globals (mkIO fails_after_two_counted []) in
  let cli := gmail_bulk_delete.delete_emails_by_query scripted 10 "in:spam"
               500 (mkIO fails_after_two []) in
  let other := gmail_ui.do_deletion scripted 10 "in:spam"
                 gmail_ui.initial_globals (mkIO reset_after_two_counted []) in
  fst ui = (true,
            gmail_ui.mkGlobals false (gmail_ui.mkProgress 200 500 "error" None))
  /\ map (@length string) (batches (trace (snd ui))) = [100; 100; 100]%nat
  /\ gmail_ui.error (gmail_ui.deletion_progress (snd (fst ui))) = None
  /\ fst cli = Some (Ret 200)
  /\ In (Print (PrintErrorDuringDeletion (HttpError "503 backend error")))
        (trace (snd cli))
  /\ snd (fst other)
     = gmail_ui.mkGlobals false
         (gmail_ui.mkProgress 200 500 "error" (Some "connection reset")).
Proof.
  intros ui cli other. split; [|split; [|split; [|split; [|split]]]].
  - vm_compute. reflexivity.
  - vm_compute. reflexivity.
  - vm_compute. reflexivity.
  - vm_compute. reflexivity.
  - apply in_or_app. right. vm_compute. now left.
  - vm_compute. reflexivity.
Qed.

(** ** The count operation (C5) *)

Section Count.
Context {W : Type} (service : Service W).

Lemma cli_count_emails_http_error : forall q (io : IO W) d w',
  messages_list service q 1 None (world io) = (Raise (HttpError d), w') ->
  gmail_bulk_delete.count_emails service q io
  = (Ret 0,
     mkIO w' (trace io ++ [CallList q 1 None;
                           Print (PrintErrorCounting (HttpError d))])).
Proof.
  intros q io d w' H. unfold gmail_bulk_delete.count_emails.
  rewrite call_list_eq, H. cbn [fst snd]. unfold print. cbn [world trace].
  rewrite <- app_assoc. reflexivity.
Qed.

Lemma cli_count_emails_returns : forall q (io : IO W) results w',
  messages_list service q 1 None (world io) = (Ret results, w') ->
  gmail_bulk_delete.count_emails service q io
  = (Ret (get_resultSizeEstimate results),
     mkIO w' (trace io ++ [CallList q 1 None])).
Proof.
  intros q io results w' H. unfold gmail_bulk_delete.count_emails.
  rewrite call_list_eq, H. reflexivity.
Qed.

Lemma ui_count_emails_http_error : forall q (io : IO W) d w',
  messages_list service q 1 None (world io) = (Raise (HttpError d), w') ->
  gmail_ui.count_emails service q io
  = (Ret (-1), mkIO w' (trace io ++ [CallList q 1 None])).
Proof.
  intros q io d w' H. unfold gmail_ui.count_emails.
  rewrite call_list_eq, H. reflexivity.
Qed.

Lemma ui_count_emails_returns : forall q (io : IO W) results w',
  messages_list service q 1 None (world io) = (Ret results, w') ->
  gmail_ui.count_emails service q io
  = (Ret (get_resultSizeEstimate results),
     mkIO w' (trace io ++ [CallList q 1 None])).
Proof.
  intros q io results w' H. unfold gmail_ui.count_emails.
  rewrite call_list_eq, H. reflexivity.
Qed.

(** The server's -1 is no count the remote can report, as long as its
    estimates are not negative. *)
Lemma ui_count_sentinel_distinct : forall q (io : IO W) results w',
  messages_list service q 1 None (world io) = (Ret results, w') ->
  0 <= get_resultSizeEstimate results ->
  fst (gmail_ui.count_emails service q io) <> Ret (-1).
Proof.
  intros q io results w' H Hpos.
  rewrite (ui_count_emails_returns _ _ _ _ H). cbn [fst].
  intros E. inversion E. lia.
Qed.
End Count.

(** C5. When the listing call fails with an [HttpError], [count_emails] of
    the command-line tool returns 0, the very value it returns when the
    remote reports no match, and [main] then tells the user that no
    e-mail was found and stops; [count_emails] of the server returns -1
    on the same failure. *)
Theorem C5_cli_count_failure_returns_zero :
  let failed := gmail_bulk_delete.count_emails scripted "in:spam"
                  (mkIO listing_down []) in
  let none := gmail_bulk_delete.count_emails scripted "in:spam"
                (mkIO (listing [estimate 0]) []) in
  let ui := gmail_ui.count_emails scripted "in:spam" (mkIO listing_down []) in
  let run := gmail_bulk_delete.main scripted 10 ["10"]
               (mkIO listing_down []) in
  fst failed = Ret 0 /\
  fst none = Ret 0 /\
  fst failed = fst none /\
  fst ui = Ret (-1) /\
  fst (fst run) = Some gmail_bulk_delete.Returned /\
  list_queries (trace (snd run)) = ["in:spam"] /\
  In (Print PrintNoEmailsFound) (trace (snd run)).
Proof.
  intros failed none ui run.
  repeat split; try (vm_compute; reflexivity).
  vm_compute. tauto.
Qed.

(** ** Admission of jobs (C4) *)

Section Admission.
Context {W : Type} (service : Service W).

(** While the flag is set every start request is refused. *)
Lemma delete_rejected_while_in_progress : forall q (s : gmail_ui.Server W),
  gmail_ui.deletion_in_progress (gmail_ui.globals s) = true ->
  gmail_ui.delete q s = (gmail_ui.JsonError "Deletion in progress" 400, s).
Proof.
  intros q s H. unfold gmail_ui.delete. rewrite H. reflexivity.
Qed.

(** With the flag clear a start request with a query is accepted: a worker
    thread is created for it, and nothing else changes. *)
Lemma delete_accepted : forall q (s : gmail_ui.Server W),
  gmail_ui.deletion_in_progress (gmail_ui.globals s) = false ->
  truthy_str q = true ->
  gmail_ui.delete (Some q) s
  = (gmail_ui.JsonStatus "deleting",
     gmail_ui.mkServer (gmail_ui.globals s) (gmail_ui.io s)
       (gmail_ui.threads s ++ [gmail_ui.mkThread q gmail_ui.AtStart])).
Proof.
  intros q s H Hq. unfold gmail_ui.delete. rewrite H, Hq. reflexivity.
Qed.

(** A worker that has returned has cleared the flag, whatever happened. *)
Lemma do_deletion_clears_flag : forall fuel q g (io : IO W) g' io',
  gmail_ui.do_deletion service fuel q g io = (true, g', io') ->
  gmail_ui.deletion_in_progress g' = false.
Proof.
  intros fuel q g io g' io'. unfold gmail_ui.do_deletion.
  destruct (call_authorize service io) as [[u|e] io1].
  - destruct (gmail_ui.count_emails service q io1) as [[cnt|e] io2].
    + destruct (gmail_ui.delete_emails_by_query service fuel q _ io2)
        as [[[[d|e]|] p'] io3]; intros H; inversion H; reflexivity.
    + intros H; inversion H; reflexivity.
  - intros H; inversion H; reflexivity.
Qed.

(** The admission flag is only written by the worker, as its first
    statement: handling a start request leaves it as it is. *)
Lemma delete_keeps_globals : forall q (s : gmail_ui.Server W),
  gmail_ui.globals (snd (gmail_ui.delete q s)) = gmail_ui.globals s.
Proof.
  intros q s. unfold gmail_ui.delete.
  destruct (gmail_ui.deletion_in_progress (gmail_ui.globals s));
    [reflexivity|].
  destruct q as [q|]; [|reflexivity].
  destruct (negb (truthy_str q)); reflexivity.
Qed.
End Admission.

(** C4. Two start requests that arrive before the first worker has run
    its first statement are both accepted, and two deletion jobs are then
    running at once: [delete] tests [deletion_in_progress] on the request
    thread, but the flag is only set inside [do_deletion], on the worker
    thread.  A third request, after the workers have set the flag, is
    refused. *)
Theorem C4_two_jobs_running :
  let evs := [gmail_ui.Request (gmail_ui.PostDelete (Some "in:spam"));
              gmail_ui.Request (gmail_ui.PostDelete (Some "in:trash"));
              gmail_ui.Schedule 0; gmail_ui.Schedule 1;
              gmail_ui.Schedule 0; gmail_ui.Schedule 1;
              gmail_ui.Schedule 0; gmail_ui.Schedule 1;
              gmail_ui.Request (gmail_ui.PostDelete (Some "in:inbox"))] in
  let out := gmail_ui.exec scripted evs
               (gmail_ui.initial_server (listing [])) in
  fst out = [gmail_ui.JsonStatus "deleting"; gmail_ui.JsonStatus "deleting";
             gmail_ui.JsonError "Deletion in progress" 400] /\
  gmail_ui.threads (snd out)
  = [gmail_ui.mkThread "in:spam" (gmail_ui.InLoop None 0);
     gmail_ui.mkThread "in:trash" (gmail_ui.InLoop None 0)] /\
  gmail_ui.running_jobs (snd out) = 2%nat /\
  gmail_ui.status (gmail_ui.deletion_progress (gmail_ui.globals (snd out)))
  = "deleting".
Proof.
  intros evs out. repeat split; vm_compute; reflexivity.
Qed.

(** ** One job at a time, when no request races the flag *)

Lemma set_thread_same : forall ths tid t,
  nth_error ths tid = Some t -> gmail_ui.set_thread tid t ths = ths.
Proof.
  induction ths as [|x ths IH]; intros [|tid] t H; simpl in *;
    try discriminate.
  - now inversion H.
  - now rewrite IH.
Qed.

Lemma live_count_app : forall ths t,
  length (filter gmail_ui.live (ths ++ [t]))
  = (length (filter gmail_ui.live ths)
     + (if gmail_ui.live t then 1 else 0))%nat.
Proof.
  intros ths t. rewrite filter_app, length_app. simpl.
  destruct (gmail_ui.live t); reflexivity.
Qed.

Lemma live_count_set_thread : forall ths tid t t',
  nth_error ths tid = Some t ->
  (length (filter gmail_ui.live (gmail_ui.set_thread tid t' ths))
   + (if gmail_ui.live t then 1 else 0)
   = length (filter gmail_ui.live ths)
     + (if gmail_ui.live t' then 1 else 0))%nat.
Proof.
  induction ths as [|x ths IH]; intros [|tid] t t' H; simpl in H;
    try discriminate.
  - inversion H; subst. simpl.
    destruct (gmail_ui.live t), (gmail_ui.live t'); simpl; lia.
  - specialize (IH _ _ t' H). simpl.
    destruct (gmail_ui.live x); simpl; lia.
Qed.

Lemma live_count_zero : forall ths,
  length (filter gmail_ui.live ths) = 0%nat <->
  Forall (fun t => gmail_ui.live t = false) ths.
Proof.
  induction ths as [|x ths IH]; simpl.
  - split; auto.
  - destruct (gmail_ui.live x) eqn:E; simpl; split; intros H.
    + discriminate.
    + inversion H; subst. congruence.
    + constructor; auto. now apply IH.
    + inversion H; subst. now apply IH.
Qed.

Lemma live_count_pos : forall ths tid t,
  nth_error ths tid = Some t -> gmail_ui.live t = true ->
  (1 <= length (filter gmail_ui.live ths))%nat.
Proof.
  induction ths as [|x ths IH]; intros [|tid] t H Hl; simpl in H;
    try discriminate; simpl.
  - inversion H; subst. rewrite Hl. simpl. lia.
  - specialize (IH _ _ H Hl). destruct (gmail_ui.live x); simpl; lia.
Qed.

Lemma Forall_set_thread : forall (P : gmail_ui.Thread -> Prop) ths tid t',
  Forall P ths -> P t' -> Forall P (gmail_ui.set_thread tid t' ths).
Proof.
  induction ths as [|x ths IH]; intros [|tid] t' H Ht; simpl; auto;
    inversion H; subst; constructor; auto.
Qed.

(** When a single worker is live, every other thread is finished. *)
Lemma only_live_thread : forall (P : gmail_ui.Thread -> Prop) ths tid t t',
  nth_error ths tid = Some t -> gmail_ui.live t = true ->
  (length (filter gmail_ui.live ths) <= 1)%nat ->
  P t' -> (forall u, gmail_ui.live u = false -> P u) ->
  Forall P (gmail_ui.set_thread tid t' ths).
Proof.
  induction ths as [|x ths IH]; intros [|tid] t t' H Hl Hc Ht Hu;
    simpl in H; try discriminate; simpl.
  - inversion H; subst. simpl in Hc. rewrite Hl in Hc. simpl in Hc.
    constructor; auto.
    assert (Hz : length (filter gmail_ui.live ths) = 0%nat) by lia.
    apply live_count_zero in Hz.
    eapply Forall_impl; [|exact Hz]. auto.
  - pose proof (live_count_pos _ _ _ H Hl) as Hp.
    simpl in Hc. destruct (gmail_ui.live x) eqn:Ex; simpl in Hc; [lia|].
    constructor; auto. eapply IH; eauto.
Qed.

Section SingleJob.
Context {W : Type} (service : Service W).

(** A live worker past its first statement either stays live and leaves
    the flag alone, or finishes and clears it. *)
Lemma thread_step_cases : forall t g (io : IO W),
  gmail_ui.live t = true -> gmail_ui.at_start t = false ->
  let '(t', g', _) := gmail_ui.thread_step service t g io in
  (gmail_ui.live t' = true /\ gmail_ui.at_start t' = false /\
   gmail_ui.deletion_in_progress g' = gmail_ui.deletion_in_progress g) \/
  (gmail_ui.live t' = false /\ gmail_ui.deletion_in_progress g' = false).
Proof.
  intros [q pc] g io Hl Ha. unfold gmail_ui.thread_step.
  cbn [gmail_ui.at_pc gmail_ui.target_query].
  destruct pc as [| | |pt td| |]; try discriminate.
  - destruct (call_authorize service io) as [[u|e] io1]; [|right; auto].
    destruct (gmail_ui.count_emails service q io1) as [[cnt|e] io2];
      [left; auto|right; auto].
  - left; auto.
  - destruct (gmail_ui.loop_body service q pt td
                (gmail_ui.deletion_progress g) io)
      as [[[pt' td'|td'|[d|d] td'] p'] io'];
      try (left; repeat split; reflexivity); right; auto.
  - right; auto.
Qed.

Lemma step_keeps_admission_invariant : forall ev (s : gmail_ui.Server W),
  admission_invariant s ->
  gmail_ui.races ev s = false ->
  admission_invariant (snd (gmail_ui.step service ev s)).
Proof.
  intros ev s (Hc & Hf) Hr. unfold admission_invariant, gmail_ui.running_jobs
    in *.
  destruct ev as [r|tid].
  - destruct r as [| |q|q|]; simpl; auto.
    + (* count *)
      unfold gmail_ui.count.
      destruct q as [q|]; [|simpl; auto].
      destruct (negb (truthy_str q)); [simpl; auto|].
      destruct (call_authorize service (gmail_ui.io s)) as [[u|e] io1];
        [|simpl; auto].
      destruct (gmail_ui.count_emails service q io1) as [[cnt|e] io2];
        simpl; auto.
    + (* delete *)
      simpl in Hr. unfold gmail_ui.delete.
      destruct (gmail_ui.deletion_in_progress (gmail_ui.globals s)) eqn:Ef;
        [simpl; rewrite Ef; auto|].
      destruct q as [q|]; [|simpl; rewrite Ef; auto].
      destruct (negb (truthy_str q)); [simpl; rewrite Ef; auto|].
      simpl. rewrite Ef.
      assert (Hz : Forall (fun t => gmail_ui.live t = false)
                          (gmail_ui.threads s)).
      { apply Forall_forall. intros t Ht.
        destruct (gmail_ui.live t) eqn:El; auto.
        pose proof (proj1 (Forall_forall _ _) Hf t Ht El) as Hs.
        assert (existsb gmail_ui.at_start (gmail_ui.threads s) = true)
          by (apply existsb_exists; eauto).
        congruence. }
      rewrite live_count_app. apply live_count_zero in Hz. rewrite Hz.
      split; [simpl; lia|].
      apply Forall_app. split; [exact Hf|].
      constructor; auto.
  - simpl.
    destruct (nth_error (gmail_ui.threads s) tid) as [t|] eqn:En;
      [|simpl; auto].
    destruct (gmail_ui.live t) eqn:El.
    2:{ unfold gmail_ui.thread_step. unfold gmail_ui.live in El.
        destruct (gmail_ui.at_pc t); try discriminate. simpl.
        rewrite (set_thread_same _ _ _ En). auto. }
    assert (Hin : In t (gmail_ui.threads s))
      by (eapply nth_error_In; eauto).
    pose proof (live_count_pos _ _ _ En El) as Hpos.
    destruct (gmail_ui.at_start t) eqn:Ea.
    + (* the first statement: the flag is set *)
      destruct (gmail_ui.deletion_in_progress (gmail_ui.globals s)) eqn:Ef.
      { destruct Hf as (_ & Hf).
        pose proof (proj1 (Forall_forall _ _) Hf t Hin). congruence. }
      unfold gmail_ui.thread_step. unfold gmail_ui.at_start in Ea.
      destruct (gmail_ui.at_pc t); try discriminate. simpl.
      pose proof (live_count_set_thread _ _ _
                    (gmail_ui.mkThread (gmail_ui.target_query t)
                                       gmail_ui.AtPrepare) En) as Hl.
      rewrite El in Hl. simpl in Hl.
      split; [lia|]. split; [lia|].
      eapply only_live_thread; eauto.
      intros u Hu. unfold gmail_ui.live in Hu. unfold gmail_ui.at_start.
      destruct (gmail_ui.at_pc u); auto; discriminate.
    + (* a later statement *)
      destruct (gmail_ui.deletion_in_progress (gmail_ui.globals s)) eqn:Ef.
      2:{ pose proof (proj1 (Forall_forall _ _) Hf t Hin El). congruence. }
      destruct Hf as (Hone & Hf).
      pose proof (thread_step_cases t (gmail_ui.globals s) (gmail_ui.io s)
                    El Ea) as Hcases.
      destruct (gmail_ui.thread_step service t (gmail_ui.globals s)
                  (gmail_ui.io s)) as [[t' g'] io'].
      pose proof (live_count_set_thread _ _ _ t' En) as Hl.
      rewrite El in Hl. simpl.
      destruct Hcases as [(Hl' & Ha' & Hg)|(Hl' & Hg)];
        rewrite Hl' in Hl; rewrite Hg; try rewrite Ef.
      * split; [lia|]. split; [lia|].
        apply Forall_set_thread; auto.
      * split; [lia|].
        assert (Hz : length (filter gmail_ui.live
                               (gmail_ui.set_thread tid t'
                                  (gmail_ui.threads s))) = 0%nat) by lia.
        apply live_count_zero in Hz.
        eapply Forall_impl; [|exact Hz]. simpl; intros; congruence.
Qed.

Lemma exec_keeps_admission_invariant : forall evs (s : gmail_ui.Server W),
  admission_invariant s ->
  gmail_ui.race_free service evs s ->
  admission_invariant (snd (gmail_ui.exec service evs s)).
Proof.
  induction evs as [|ev evs IH]; intros s Hi Hr; simpl; auto.
  destruct Hr as (Hr & Hrest).
  pose proof (step_keeps_admission_invariant ev s Hi Hr) as Hi'.
  destruct (gmail_ui.step service ev s) as [r s1]. simpl in *.
  specialize (IH s1 Hi' Hrest).
  destruct (gmail_ui.exec service evs s1) as [rs s2]. exact IH.
Qed.

(** From a fresh server, if no start request is handled between the
    admission of a job and the first statement of its worker, at most one
    job is running at any time. *)
Lemma single_job_without_race : forall evs (w : W),
  gmail_ui.race_free service evs (gmail_ui.initial_server w) ->
  (gmail_ui.running_jobs
     (snd (gmail_ui.exec service evs (gmail_ui.initial_server w))) <= 1)%nat.
Proof.
  intros evs w Hr.
  apply (exec_keeps_admission_invariant evs (gmail_ui.initial_server w));
    [|exact Hr].
  split; simpl; auto.
Qed.
End SingleJob.

(** ** Confirmation before deletion (C6) *)



(** ** Empty queries (C7) *)

Lemma FILTERS_queries_not_empty : forall key info,
  gmail_bulk_delete.dict_get gmail_bulk_delete.FILTERS key = Some info ->
  gmail_bulk_delete.query info <> "".
Proof.
  intros key info.
  unfold gmail_bulk_delete.FILTERS, gmail_bulk_delete.dict_get.
  repeat match goal with
         | |- context [if String.eqb ?a key then _ else _] =>
             destruct (String.eqb a key)
         end;
    intros H; inversion H; subst; simpl; discriminate.
Qed.

Lemma truthy_str_not_empty : forall s, truthy_str s = true <-> s <> "".
Proof. intros [|c s]; simpl; split; congruence. Qed.

(** [get_user_filter_choice] never hands an empty query to its caller. *)
Lemma get_user_filter_choice_not_empty : forall filter_map n stdin,
  (length stdin <= n)%nat ->
  forall q l rest out,
    gmail_bulk_delete.get_user_filter_choice filter_map stdin
    = (Ret (q, l), rest, out) ->
    q <> "".
Proof.
  intros filter_map. induction n as [|n IH]; intros stdin Hn q l rest out.
  - destruct stdin; [|simpl in Hn; lia]. simpl. discriminate.
  - destruct stdin as [|line stdin]; [simpl; discriminate|].
    simpl in Hn. cbn [gmail_bulk_delete.get_user_filter_choice].
    destruct (gmail_bulk_delete.dict_get filter_map (strip line))
      as [key|] eqn:EK.
    + destruct (String.eqb key "custom").
      * destruct stdin as [|line2 stdin]; [discriminate|].
        destruct (truthy_str (strip line2)) eqn:ET; cbn [negb].
        -- intros H. inversion H; subst. now apply truthy_str_not_empty.
        -- destruct (gmail_bulk_delete.get_user_filter_choice
                       filter_map stdin) as [[r rest'] out'] eqn:ER.
           intros H. inversion H; subst.
           eapply (IH stdin); [simpl in Hn; lia|exact ER].
      * destruct (gmail_bulk_delete.dict_get gmail_bulk_delete.FILTERS key)
          as [info|] eqn:EF; [|discriminate].
        intros H. inversion H; subst.
        eapply FILTERS_queries_not_empty; eauto.
    + destruct (gmail_bulk_delete.get_user_filter_choice filter_map stdin)
        as [[r rest'] out'] eqn:ER.
      intros H. inversion H; subst. eapply (IH stdin); [lia|exact ER].
Qed.

Section MainQueries.
Context {W : Type} (service : Service W).

Lemma list_queries_trace_print : forall line (io : IO W),
  list_queries (trace (print line io)) = list_queries (trace io).
Proof. intros. unfold print. simpl. apply list_queries_print. Qed.

Lemma list_queries_prints : forall out (io : IO W),
  list_queries (trace (gmail_bulk_delete.prints out io))
  = list_queries (trace io).
Proof.
  induction out as [|line out IH]; intros io; [reflexivity|].
  unfold gmail_bulk_delete.prints in *. cbn [fold_left]. rewrite IH.
  apply list_queries_trace_print.
Qed.

Lemma list_queries_authorize : forall (io : IO W),
  list_queries (trace (snd (call_authorize service io)))
  = list_queries (trace io).
Proof.
  intros io. rewrite call_authorize_eq. simpl.
  rewrite list_queries_app. simpl. apply app_nil_r.
Qed.

Lemma list_queries_count : forall q (io : IO W),
  list_queries (trace (snd (gmail_bulk_delete.count_emails service q io)))
  = list_queries (trace io) ++ [q].
Proof.
  intros q io. unfold gmail_bulk_delete.count_emails.
  rewrite call_list_eq.
  destruct (messages_list service q 1 None (world io)) as [[r|[d|d]] w1];
    cbn [fst snd]; rewrite ?list_queries_trace_print; cbn [trace];
    rewrite list_queries_app; reflexivity.
Qed.

Lemma list_queries_delete : forall fuel q batch_size (io : IO W),
  exists qs,
    list_queries
      (trace (snd (gmail_bulk_delete.delete_emails_by_query
                     service fuel q batch_size io)))
    = list_queries (trace io) ++ qs /\
    Forall (fun x => x = q) qs.
Proof.
  intros fuel q batch_size io.
  pose proof (cli_delete_trace _ service fuel q batch_size io)
    as (_ & _ & _ & Hq). rewrite Hq.
  match goal with
  | |- context [gmail_bulk_delete.while_true ?s ?f ?q ?m ?pt ?td ?io] =>
      destruct (gmail_bulk_delete.while_true s f q m pt td io)
        as [r io1] eqn:E
  end.
  apply cli_while_true_run in E. destruct E as (tr & Ht & _ & Hqs & _).
  exists (list_queries tr). simpl. rewrite Ht, list_queries_app. auto.
Qed.

(** Every listing call of a run of [main] carries a query that is not
    empty. *)
Lemma main_queries_not_empty : forall fuel stdin (io : IO W),
  Forall (fun q => q <> "") (list_queries (trace io)) ->
  Forall (fun q => q <> "")
         (list_queries
            (trace (snd (gmail_bulk_delete.main service fuel stdin io)))).
Proof.
  intros fuel stdin io H. unfold gmail_bulk_delete.main.
  pose proof (list_queries_authorize io) as Ha.
  destruct (call_authorize service io) as [[u|e] io1]; cbn [snd] in Ha;
    [|cbn [snd]; rewrite list_queries_trace_print, Ha; exact H].
  destruct (gmail_bulk_delete.get_user_filter_choice
              gmail_bulk_delete.display_filters stdin)
    as [[[[q l]|e] stdin1] out] eqn:EC;
    [|cbn [snd]; rewrite list_queries_trace_print, list_queries_prints,
        list_queries_trace_print, Ha; exact H].
  assert (Hq : q <> "").
  { eapply get_user_filter_choice_not_empty; [apply Nat.le_refl|exact EC]. }
  set (io3 := gmail_bulk_delete.prints out (print PrintFilterList io1)).
  assert (H3 : list_queries (trace io3) = list_queries (trace io)).
  { unfold io3. now rewrite list_queries_prints, list_queries_trace_print. }
  pose proof (list_queries_count q io3) as Hc.
  destruct (gmail_bulk_delete.count_emails service q io3) as [[count|e] io4];
    cbn [snd] in Hc.
  2:{ cbn [snd]. rewrite list_queries_trace_print, Hc, H3.
      apply Forall_app; split; auto. }
  assert (H4 : Forall (fun q => q <> "") (list_queries (trace io4))).
  { rewrite Hc, H3. apply Forall_app; split; auto. }
  destruct (count =? 0).
  { cbn [snd]. now rewrite !list_queries_trace_print. }
  destruct (gmail_bulk_delete.confirm_deletion q count stdin1)
    as [[[[|]|e] stdin2] out2];
    try (cbn [snd]; now rewrite list_queries_trace_print,
           list_queries_prints, list_queries_trace_print).
  set (io6 := gmail_bulk_delete.prints out2 (print (PrintFound count) io4)).
  assert (H6 : list_queries (trace io6) = list_queries (trace io4)).
  { unfold io6. now rewrite list_queries_prints, list_queries_trace_print. }
  destruct (list_queries_delete fuel q gmail_bulk_delete.CONFIG_batch_size
              io6) as (qs & Hd & Hqs).
  destruct (gmail_bulk_delete.delete_emails_by_query service fuel q
              gmail_bulk_delete.CONFIG_batch_size io6)
    as [[[deleted|e]|] io7]; cbn [snd] in Hd; cbn [snd];
    rewrite ?list_queries_trace_print, Hd, H6;
    (apply Forall_app; split; [exact H4|]);
    (eapply Forall_impl; [|exact Hqs]); simpl; intros; subst; auto.
Qed.
End MainQueries.

(** C7 (as amended). An empty custom query (also one of blanks only, on
    the command line) is refused before any listing, count or delete
    call: [get_user_filter_choice] prints "Query cannot be empty." and
    asks again, so that no listing call of [main] ever carries an empty
    query; the [/api/count] and [/api/delete] handlers of the server
    answer 400 and leave the server, the remote and its trace untouched.
    The error is "No query", except that [/api/delete] tests the admission
    flag first and answers "Deletion in progress" while it is set. *)
Theorem C7_empty_custom_query_rejected :
  (forall (filter_map : list (string * string)) (choice line : string)
          (rest : list string),
      gmail_bulk_delete.dict_get filter_map (strip choice) = Some "custom" ->
      strip line = "" ->
      let again := gmail_bulk_delete.get_user_filter_choice
                     filter_map rest in
      gmail_bulk_delete.get_user_filter_choice
        filter_map (choice :: line :: rest)
      = (fst (fst again), snd (fst again),
         PromptFilterNumber (length filter_map) :: PromptCustomQuery
           :: PrintQueryCannotBeEmpty :: snd again)) /\
  (forall (W : Type) (service : Service W) (fuel : nat)
          (stdin : list string) (w : W),
      Forall (fun q => q <> "")
             (list_queries
                (trace (snd (gmail_bulk_delete.main
                               service fuel stdin (mkIO w [])))))) /\
  (forall (W : Type) (service : Service W) (s : gmail_ui.Server W),
      gmail_ui.count service (Some "") s
      = (gmail_ui.JsonError "No query" 400, s) /\
      gmail_ui.delete (Some "") s
      = (gmail_ui.JsonError
           (if gmail_ui.deletion_in_progress (gmail_ui.globals s)
            then "Deletion in progress" else "No query") 400, s)).
Proof.
  split; [|split].
  - intros filter_map choice line rest Hc Hl again.
    cbn [gmail_bulk_delete.get_user_filter_choice].
    rewrite Hc, Hl. cbn [String.eqb Ascii.eqb Bool.eqb truthy_str negb].
    fold again. destruct again as [[r rest'] out]. reflexivity.
  - intros W service fuel stdin w.
    apply main_queries_not_empty. constructor.
  - intros W service s. split; [reflexivity|].
    unfold gmail_ui.delete.
    destruct (gmail_ui.deletion_in_progress (gmail_ui.globals s));
      reflexivity.
Qed.

(** The re-prompt on the filter map of [display_filters]: choice 18 is the
    custom query. *)
Lemma C7_empty_custom_query_rejected_witness :
  (gmail_bulk_delete.dict_get gmail_bulk_delete.display_filters (strip "18")
   = Some "custom" /\ strip "" = "") /\
  gmail_bulk_delete.get_user_filter_choice
    gmail_bulk_delete.display_filters ["18"; ""; "10"]
  = (Ret ("in:spam", "Spam folder"), [],
     [PromptFilterNumber 18; PromptCustomQuery; PrintQueryCannotBeEmpty;
      PromptFilterNumber 18]).
Proof.
  split; [split; reflexivity|].
  destruct C7_empty_custom_query_rejected as (H & _).
  rewrite (H gmail_bulk_delete.display_filters "18" "" ["10"]
             eq_refl eq_refl).
  reflexivity.
Defined.

(** C7 as stated fails on the start endpoint while a job holds the
    admission flag: the request with the empty query is refused, but as
    "Deletion in progress", not as an invalid query. *)
Lemma C7_empty_query_while_deleting :
  let evs := [gmail_ui.Request (gmail_ui.PostDelete (Some "in:spam"));
              gmail_ui.Schedule 0;
              gmail_ui.Request (gmail_ui.PostDelete (Some ""))] in
  let out := gmail_ui.exec scripted evs
               (gmail_ui.initial_server (listing [])) in
  fst out = [gmail_ui.JsonStatus "deleting";
             gmail_ui.JsonError "Deletion in progress" 400] /\
  gmail_ui.JsonError "Deletion in progress" 400
  <> gmail_ui.JsonError "No query" 400 /\
  trace (gmail_ui.io (snd out)) = [].
Proof.
  intros evs out. split; [vm_compute; reflexivity|].
  split; [discriminate|vm_compute; reflexivity].
Qed.

(** ** The worker thread and [do_deletion] *)

Section Worker.
Context {W : Type} (service : Service W).

Lemma run_alone_app : forall n m t g (io : IO W),
  gmail_ui.run_alone service (n + m) t g io
  = (let '(t', g', io') := gmail_ui.run_alone service n t g io in
     gmail_ui.run_alone service m t' g' io').
Proof.
  induction n as [|n IH]; intros m t g io; simpl; [reflexivity|].
  destruct (gmail_ui.thread_step service t g io) as [[t' g'] io'].
  apply IH.
Qed.

(** The iterations of the loop, one scheduling step each. *)
Lemma run_alone_loop : forall fuel q pt td b p (io : IO W) e p' io',
  gmail_ui.while_true service fuel q pt td p io = (Some e, p', io') ->
  exists n,
    gmail_ui.run_alone service n (gmail_ui.mkThread q (gmail_ui.InLoop pt td))
      (gmail_ui.mkGlobals b p) io
    = match e with
      | Broke _ =>
          (gmail_ui.mkThread q gmail_ui.AtReturn,
           gmail_ui.mkGlobals b (gmail_ui.set_status "complete" p'), io')
      | Threw (HttpError _) _ =>
          (gmail_ui.mkThread q gmail_ui.AtReturn,
           gmail_ui.mkGlobals b (gmail_ui.set_status "error" p'), io')
      | Threw e' _ =>
          (gmail_ui.mkThread q gmail_ui.Finished,
           gmail_ui.on_exception e' (gmail_ui.mkGlobals b p'), io')
      end.
Proof.
  induction fuel as [|fuel IH]; intros q pt td b p io e p' io' H;
    simpl in H; [discriminate|].
  destruct (gmail_ui.loop_body service q pt td p io)
    as [[it p1] io1] eqn:EB.
  destruct it as [pt1 td1|td1|e1 td1].
  - destruct (IH _ _ _ b _ _ _ _ _ H) as (n & Hn).
    exists (S n). cbn [gmail_ui.run_alone]. unfold gmail_ui.thread_step.
    cbn [gmail_ui.at_pc gmail_ui.target_query gmail_ui.deletion_progress
           gmail_ui.deletion_in_progress].
    rewrite EB. exact Hn.
  - inversion H; subst. exists 1%nat.
    cbn [gmail_ui.run_alone]. unfold gmail_ui.thread_step.
    cbn [gmail_ui.at_pc gmail_ui.target_query gmail_ui.deletion_progress
           gmail_ui.deletion_in_progress].
    rewrite EB. reflexivity.
  - inversion H; subst. exists 1%nat.
    cbn [gmail_ui.run_alone]. unfold gmail_ui.thread_step.
    cbn [gmail_ui.at_pc gmail_ui.target_query gmail_ui.deletion_progress
           gmail_ui.deletion_in_progress].
    rewrite EB. destruct e1; reflexivity.
Qed.

(** [do_deletion] is the worker thread scheduled without interruption
    from its first statement to its last. *)
Lemma do_deletion_run_alone : forall fuel q g (io : IO W) g' io',
  gmail_ui.do_deletion service fuel q g io = (true, g', io') ->
  exists n,
    gmail_ui.run_alone service n (gmail_ui.mkThread q gmail_ui.AtStart) g io
    = (gmail_ui.mkThread q gmail_ui.Finished, g', io').
Proof.
  intros fuel q g io g' io'. unfold gmail_ui.do_deletion.
  destruct (call_authorize service io) as [[u|e] io1] eqn:EA.
  - destruct (gmail_ui.count_emails service q io1) as [[cnt|e] io2] eqn:EC.
    + unfold gmail_ui.delete_emails_by_query.
      cbn [gmail_ui.deletion_progress].
      set (p0 := gmail_ui.set_status "deleting" _).
      destruct (gmail_ui.while_true service fuel q None 0 p0 io2)
        as [[[e|] p1] io3] eqn:EW.
      * destruct (run_alone_loop _ _ _ _ true _ _ _ _ _ EW) as (n & Hn).
        destruct e as [td|[d|d] td]; intros H; inversion H; subst;
          [exists (3 + (n + 1))%nat|exists (3 + (n + 1))%nat
           |exists (3 + n)%nat];
          cbn [Nat.add gmail_ui.run_alone gmail_ui.thread_step
                 gmail_ui.at_pc gmail_ui.target_query
                 gmail_ui.deletion_progress gmail_ui.deletion_in_progress];
          rewrite EA, EC;
          cbn [gmail_ui.run_alone gmail_ui.thread_step
                 gmail_ui.at_pc gmail_ui.target_query
                 gmail_ui.deletion_progress gmail_ui.deletion_in_progress];
          fold p0; rewrite ?run_alone_app, Hn; reflexivity.
      * intros H; inversion H.
    + intros H; inversion H; subst. exists 2%nat.
      cbn [gmail_ui.run_alone gmail_ui.thread_step gmail_ui.at_pc
             gmail_ui.target_query].
      rewrite EA, EC. reflexivity.
  - intros H; inversion H; subst. exists 2%nat.
    cbn [gmail_ui.run_alone gmail_ui.thread_step gmail_ui.at_pc
           gmail_ui.target_query].
    rewrite EA. reflexivity.
Qed.
End Worker.

(** ** Reading the progress after a job (C8) *)

Section Polling.
Context {W : Type} (service : Service W).

(** A worker that has returned leaves a terminal status behind. *)
Lemma do_deletion_terminal_status : forall fuel q g (io : IO W) g' io',
  gmail_ui.do_deletion service fuel q g io = (true, g', io') ->
  gmail_ui.status (gmail_ui.deletion_progress g') = "complete" \/
  gmail_ui.status (gmail_ui.deletion_progress g') = "error".
Proof.
  intros fuel q g io g' io'. unfold gmail_ui.do_deletion.
  destruct (call_authorize service io) as [[u|e] io1].
  - destruct (gmail_ui.count_emails service q io1) as [[cnt|e] io2].
    + unfold gmail_ui.delete_emails_by_query.
      destruct (gmail_ui.while_true service fuel q None 0 _ io2)
        as [[[[td|[d|d] td]|] p'] io3];
        intros H; inversion H; subst; simpl; auto.
    + intros H; inversion H; subst; simpl; auto.
  - intros H; inversion H; subst; simpl; auto.
Qed.

(** A request that starts no job, or the scheduling of a finished worker,
    leaves the globals and the threads as they are, and a progress
    response shows the current [deletion_progress]. *)
Lemma step_starts_no_job : forall ev (s : gmail_ui.Server W),
  starts_no_job ev = true ->
  Forall (fun t => gmail_ui.live t = false) (gmail_ui.threads s) ->
  gmail_ui.globals (snd (gmail_ui.step service ev s)) = gmail_ui.globals s /\
  gmail_ui.threads (snd (gmail_ui.step service ev s)) = gmail_ui.threads s /\
  (forall p, fst (gmail_ui.step service ev s)
             = Some (gmail_ui.JsonProgress p) ->
             p = gmail_ui.deletion_progress (gmail_ui.globals s)).
Proof.
  intros ev s Hev Hths. destruct ev as [r|tid].
  - destruct r as [| |q|q|]; simpl.
    + repeat split; auto. intros p H; discriminate.
    + repeat split; auto. intros p H; discriminate.
    + unfold gmail_ui.count.
      destruct q as [q|]; [|repeat split; auto; intros p H; discriminate].
      destruct (negb (truthy_str q));
        [repeat split; auto; intros p H; discriminate|].
      destruct (call_authorize service (gmail_ui.io s)) as [[u|e] io1];
        [|repeat split; auto; intros p H; discriminate].
      destruct (gmail_ui.count_emails service q io1) as [[cnt|e] io2];
        repeat split; auto; intros p H; discriminate.
    + simpl in Hev. unfold gmail_ui.delete.
      destruct (gmail_ui.deletion_in_progress (gmail_ui.globals s));
        [repeat split; auto; intros p H; discriminate|].
      destruct q as [q|]; simpl in Hev;
        [|repeat split; auto; intros p H; discriminate].
      destruct (truthy_str q); [discriminate|].
      repeat split; auto; intros p H; discriminate.
    + repeat split; auto. intros p H. now inversion H.
  - simpl.
    destruct (nth_error (gmail_ui.threads s) tid) as [t|] eqn:E;
      [|repeat split; auto; intros p H; discriminate].
    assert (Hl : gmail_ui.live t = false).
    { eapply Forall_forall in Hths; [exact Hths|].
      eapply nth_error_In; eauto. }
    unfold gmail_ui.thread_step. unfold gmail_ui.live in Hl.
    destruct (gmail_ui.at_pc t); try discriminate. simpl.
    rewrite (set_thread_same _ _ _ E).
    repeat split; auto. intros p H; discriminate.
Qed.

Lemma exec_starts_no_job : forall evs (s : gmail_ui.Server W),
  Forall (fun ev => starts_no_job ev = true) evs ->
  Forall (fun t => gmail_ui.live t = false) (gmail_ui.threads s) ->
  gmail_ui.globals (snd (gmail_ui.exec service evs s)) = gmail_ui.globals s /\
  gmail_ui.threads (snd (gmail_ui.exec service evs s)) = gmail_ui.threads s /\
  (forall p, In (gmail_ui.JsonProgress p)
                (fst (gmail_ui.exec service evs s)) ->
             p = gmail_ui.deletion_progress (gmail_ui.globals s)).
Proof.
  induction evs as [|ev evs IH]; intros s Hevs Hths.
  - simpl. repeat split; auto. intros p [].
  - inversion Hevs as [|? ? Hev Hevs']; subst.
    destruct (step_starts_no_job ev s Hev Hths) as (Hg & Ht & Hp).
    simpl. destruct (gmail_ui.step service ev s) as [r s1] eqn:ES.
    simpl in Hg, Ht, Hp.
    assert (Hths1 : Forall (fun t => gmail_ui.live t = false)
                           (gmail_ui.threads s1)) by now rewrite Ht.
    destruct (IH s1 Hevs' Hths1) as (Hg' & Ht' & Hp').
    destruct (gmail_ui.exec service evs s1) as [rs s2].
    simpl in *. rewrite Hg', Ht', Hg, Ht. repeat split; auto.
    intros p Hin. destruct r as [x|].
    + destruct Hin as [->|Hin]; [now apply Hp|].
      rewrite <- Hg. now apply Hp'.
    + rewrite <- Hg. now apply Hp'.
Qed.
End Polling.

(** While no other worker is live, a job that has returned leaves a
    terminal status (['complete'] or ['error']) in [deletion_progress]
    and the snapshot stays until another job is admitted: after any
    sequence of requests that start no job (progress reads, counts, page
    loads, start requests without a query) and of scheduling steps of
    finished workers, the globals are unchanged, every progress read in
    between returned the terminal snapshot, and so does the next one. *)
Theorem terminal_snapshot_stays_readable :
  forall (W : Type) (service : Service W) (fuel : nat) (query : string)
         (g g' : gmail_ui.Globals) (io0 io' : IO W)
         (ths : list gmail_ui.Thread) (evs : list gmail_ui.event),
    gmail_ui.do_deletion service fuel query g io0 = (true, g', io') ->
    Forall (fun t => gmail_ui.live t = false) ths ->
    Forall (fun ev => starts_no_job ev = true) evs ->
    let terminal := gmail_ui.deletion_progress g' in
    let after := gmail_ui.exec service evs (gmail_ui.mkServer g' io' ths) in
    (gmail_ui.status terminal = "complete" \/
     gmail_ui.status terminal = "error") /\
    gmail_ui.globals (snd after) = g' /\
    (forall p, In (gmail_ui.JsonProgress p) (fst after) -> p = terminal) /\
    fst (gmail_ui.progress (snd after)) = gmail_ui.JsonProgress terminal.
Proof.
  intros W service fuel query g g' io0 io' ths evs Hrun Hths Hevs
         terminal after.
  destruct (exec_starts_no_job service evs (gmail_ui.mkServer g' io' ths)
              Hevs Hths) as (Hg & _ & Hp).
  fold after in Hg, Hp. simpl in Hg, Hp.
  split; [eapply do_deletion_terminal_status; eauto|].
  split; [exact Hg|]. split; [exact Hp|].
  unfold gmail_ui.progress. simpl. now rewrite Hg.
Qed.

(** After the job that failed in its third batch: reads, a count, the
    scheduling of the finished worker and a start request without a query
    leave the snapshot in place. *)
Lemma terminal_snapshot_stays_readable_witness :
  let job := gmail_ui.do_deletion scripted 10 "in:spam"
               gmail_ui.initial_globals (mkIO fails_after_two_counted []) in
  let ths := [gmail_ui.mkThread "in:spam" gmail_ui.Finished] in
  let evs := [gmail_ui.Request gmail_ui.GetProgress;
              gmail_ui.Request (gmail_ui.PostCount (Some "in:trash"));
              gmail_ui.Schedule 0;
              gmail_ui.Request (gmail_ui.PostDelete (Some ""));
              gmail_ui.Request gmail_ui.GetProgress] in
  let after := gmail_ui.exec scripted evs
                 (gmail_ui.mkServer (snd (fst job)) (snd job) ths) in
  (fst (fst job) = true /\
   Forall (fun t => gmail_ui.live t = false) ths /\
   Forall (fun ev => starts_no_job ev = true) evs) /\
  fst (gmail_ui.progress (snd after))
  = gmail_ui.JsonProgress (gmail_ui.mkProgress 200 500 "error" None).
Proof.
  intros job ths evs after.
  assert (Hths : Forall (fun t => gmail_ui.live t = false) ths)
    by (repeat constructor).
  assert (Hevs : Forall (fun ev => starts_no_job ev = true) evs)
    by (repeat constructor).
  split; [split; [vm_compute; reflexivity|split; assumption]|].
  assert (Hjob : gmail_ui.do_deletion scripted 10 "in:spam"
                   gmail_ui.initial_globals (mkIO fails_after_two_counted [])
                 = (true, snd (fst job), snd job))
    by (vm_compute; reflexivity).
  destruct (terminal_snapshot_stays_readable
              _ scripted 10%nat "in:spam" gmail_ui.initial_globals
              (snd (fst job)) (mkIO fails_after_two_counted []) (snd job)
              ths evs Hjob Hths Hevs) as (_ & _ & _ & H).
  fold after in H. rewrite H. vm_compute. reflexivity.
Defined.

(** C8. The terminal snapshot of a job does not stay readable in every
    execution.  Two start requests are accepted before either worker has
    run (the race on the admission flag); the first job deletes its three
    messages and returns, leaving [current = 3], [total = 3], status
    ['complete'].  No job is started after that, and yet the first
    progress read that follows, once the second worker has counted and
    entered its loop, answers [current = 0], [total = 7], status
    ['deleting']: the workers share one [deletion_progress], and the
    completion of the first job is never seen. *)
Theorem C8_terminal_snapshot_overwritten :
  let remote :=
    mkScript (Ret tt)
             [Ret (estimate 3); Ret (page ["m1"; "m2"; "m3"] None);
              Ret (estimate 7)] [] in
  let first_job :=
    [gmail_ui.Request (gmail_ui.PostDelete (Some "in:spam"));
     gmail_ui.Request (gmail_ui.PostDelete (Some "in:trash"));
     gmail_ui.Schedule 0; gmail_ui.Schedule 1;
     gmail_ui.Schedule 0; gmail_ui.Schedule 0; gmail_ui.Schedule 0;
     gmail_ui.Schedule 0] in
  let later :=
    [gmail_ui.Schedule 1; gmail_ui.Schedule 1;
     gmail_ui.Request gmail_ui.GetProgress] in
  let s1 := snd (gmail_ui.exec scripted first_job
                   (gmail_ui.initial_server remote)) in
  gmail_ui.threads s1
  = [gmail_ui.mkThread "in:spam" gmail_ui.Finished;
     gmail_ui.mkThread "in:trash" gmail_ui.AtPrepare] /\
  batches (trace (gmail_ui.io s1)) = [["m1"; "m2"; "m3"]] /\
  gmail_ui.deletion_progress (gmail_ui.globals s1)
  = gmail_ui.mkProgress 3 3 "complete" None /\
  Forall (fun ev => starts_no_job ev = true) later /\
  fst (gmail_ui.exec scripted later s1)
  = [gmail_ui.JsonProgress (gmail_ui.mkProgress 0 7 "deleting" None)].
Proof.
  intros remote first_job later s1.
  split; [vm_compute; reflexivity|].
  split; [vm_compute; reflexivity|].
  split; [vm_compute; reflexivity|].
  split; [repeat constructor|].
  vm_compute. reflexivity.
Qed.

(** ** The start endpoint (C9) *)

(** The worker deletes every page whatever the count listing answered,
    also when it failed with an [HttpError] (the total is then -1). *)
Lemma ui_do_deletion_any_count : forall pages rs,
  serves pages rs ->
  forall (c : res ListResult) fuel q g,
    (forall d, c <> Raise (OtherError d)) ->
    (length pages < fuel)%nat ->
    exists io',
      gmail_ui.do_deletion scripted fuel q g
        (mkIO (mkScript (Ret tt) (c :: map Ret rs) []) [])
      = (true,
         gmail_ui.mkGlobals false
           (gmail_ui.mkProgress
              (Z.of_nat (length (concat pages)))
              (match c with
               | Ret r0 => get_resultSizeEstimate r0
               | Raise _ => -1
               end) "complete"
              (gmail_ui.error (gmail_ui.deletion_progress g))),
         io') /\
      batches (trace io') = pages.
Proof.
  intros pages rs Hs c fuel q g Hc Hfuel.
  unfold gmail_ui.do_deletion, gmail_ui.count_emails.
  rewrite call_authorize_eq.
  cbn [authorize scripted auth world trace fst snd].
  rewrite call_list_eq. cbn [world trace]. rewrite scripted_list.
  cbn [world trace fst snd gmail_ui.deletion_progress].
  destruct c as [r0|[d|d]]; [| |now elim (Hc d)].
  - set (p := gmail_ui.set_current 0 _).
    destruct (ui_delete_on_pages pages rs Hs (Ret tt) [] fuel q p
                (([] ++ [CallAuthorize]) ++ [CallList q 1 None]))
      as (io' & E & Hb); auto.
    rewrite E. exists io'. split; [reflexivity|]. now rewrite Hb.
  - set (p := gmail_ui.set_current 0 _).
    destruct (ui_delete_on_pages pages rs Hs (Ret tt) [] fuel q p
                (([] ++ [CallAuthorize]) ++ [CallList q 1 None]))
      as (io' & E & Hb); auto.
    rewrite E. exists io'. split; [reflexivity|]. now rewrite Hb.
Qed.

(** C9. With the admission flag clear, [/api/delete] accepts every query
    that is not empty: it answers [{'status': 'deleting'}], starts a
    worker for that query and consults neither a count nor a
    confirmation (its result depends on the flag and the query only).
    The worker then deletes every page the remote lists, whatever the
    count listing answered: an estimate above 1000, 0, or an [HttpError].
    The two confirmations exist in [deleteEmails] of the page only. *)
Theorem C9_delete_endpoint_has_no_confirmation_gate :
  forall (W : Type) (s : gmail_ui.Server W) (q : string),
    gmail_ui.deletion_in_progress (gmail_ui.globals s) = false ->
    q <> "" ->
    gmail_ui.delete (Some q) s
    = (gmail_ui.JsonStatus "deleting",
       gmail_ui.mkServer (gmail_ui.globals s) (gmail_ui.io s)
         (gmail_ui.threads s ++ [gmail_ui.mkThread q gmail_ui.AtStart])) /\
    (forall (pages : list (list string)) (rs : list ListResult)
            (c : res ListResult) (fuel : nat) (g : gmail_ui.Globals),
        serves pages rs ->
        (forall d, c <> Raise (OtherError d)) ->
        (length pages < fuel)%nat ->
        let job := gmail_ui.do_deletion scripted fuel q g
                     (mkIO (mkScript (Ret tt) (c :: map Ret rs) []) []) in
        fst (fst job) = true /\
        batches (trace (snd job)) = pages /\
        gmail_ui.current (gmail_ui.deletion_progress (snd (fst job)))
        = Z.of_nat (length (concat pages))).
Proof.
  intros W s q Hflag Hq. split.
  - apply delete_accepted; auto. now apply truthy_str_not_empty.
  - intros pages rs c fuel g Hs Hc Hfuel job.
    destruct (ui_do_deletion_any_count pages rs Hs c fuel q g Hc Hfuel)
      as (io' & E & Hb).
    unfold job. rewrite E. cbn [fst snd]. repeat split; auto.
Qed.

(** A fresh server and a count estimate of 5000: the job is started and
    deletes both pages. *)
Lemma C9_delete_endpoint_has_no_confirmation_gate_witness :
  let s := gmail_ui.initial_server (listing []) in
  let pages := [["m1"; "m2"]; ["m3"]] in
  let job := gmail_ui.do_deletion scripted 3 "in:spam"
               gmail_ui.initial_globals
               (mkIO (mkScript (Ret tt)
                        (Ret (estimate 5000) :: map Ret (paginate pages)) [])
                     []) in
  (gmail_ui.deletion_in_progress (gmail_ui.globals s) = false /\
   "in:spam" <> "" /\ serves pages (paginate pages) /\
   (length pages < 3)%nat) /\
  fst (gmail_ui.delete (Some "in:spam") s) = gmail_ui.JsonStatus "deleting" /\
  batches (trace (snd job)) = pages /\
  gmail_ui.total (gmail_ui.deletion_progress (snd (fst job))) = 5000.
Proof.
  intros s pages job.
  assert (Hq : "in:spam" <> "") by discriminate.
  assert (Hs : serves pages (paginate pages)).
  { apply serves_next; [reflexivity|discriminate|reflexivity|].
    apply serves_last; [reflexivity|discriminate|reflexivity]. }
  assert (Hfuel : (length pages < 3)%nat) by (simpl; lia).
  destruct (C9_delete_endpoint_has_no_confirmation_gate
              _ s "in:spam" eq_refl Hq) as (H1 & H2).
  destruct (H2 pages (paginate pages) (Ret (estimate 5000)) 3%nat
               gmail_ui.initial_globals Hs
               ltac:(intros d; discriminate) Hfuel) as (_ & H3 & _).
  split; [repeat split; auto|].
  rewrite H1. split; [reflexivity|]. split; [exact H3|].
  vm_compute. reflexivity.
Defined.

(** ** The two loops against each other (C10) *)

Section Agreement.
Context {W : Type} (service : Service W).

Lemma iteration_effects_same_pages : forall q m m' pt w it td w' bs,
  (forall pt w, messages_list service q m pt w
                = messages_list service q m' pt w) ->
  iteration_effects service q m pt w it td w' bs ->
  iteration_effects service q m' pt w it td w' bs.
Proof.
  intros q m m' pt w it td w' bs Hsame H.
  destruct H;
    match goal with
    | A : messages_list _ _ _ _ _ = _ |- _ => rewrite Hsame in A
    end.
  - eapply it_list_raises; eauto.
  - eapply it_empty; eauto.
  - eapply it_delete_raises; eauto.
  - eapply it_last; eauto.
  - eapply it_more; eauto.
Qed.

Lemma loop_run_same_pages : forall q m m' fuel pt td w r w' bs,
  (forall pt w, messages_list service q m pt w
                = messages_list service q m' pt w) ->
  loop_run service q m fuel pt td w r w' bs ->
  loop_run service q m' fuel pt td w r w' bs.
Proof.
  intros q m m' fuel pt td w r w' bs Hsame H.
  induction H.
  - constructor.
  - apply run_break. eapply iteration_effects_same_pages; eauto.
  - apply run_throw. eapply iteration_effects_same_pages; eauto.
  - eapply run_continue; eauto.
    eapply iteration_effects_same_pages; eauto.
Qed.

Lemma iteration_total_ge : forall q m pt w it td w' bs,
  iteration_effects service q m pt w it td w' bs ->
  td <= iteration_total it.
Proof. intros q m pt w it td w' bs H. destruct H; simpl; lia. Qed.

Lemma loop_run_total_ge : forall q m fuel pt td w r w' bs,
  loop_run service q m fuel pt td w r w' bs ->
  forall e, r = Some e -> td <= loop_end_total e.
Proof.
  intros q m fuel pt td w r w' bs H.
  induction H; intros e0 He; try discriminate.
  - inversion He; subst. apply iteration_total_ge in H. exact H.
  - inversion He; subst. apply iteration_total_ge in H. exact H.
  - apply iteration_total_ge in H. simpl in H.
    specialize (IHloop_run _ He). lia.
Qed.

(** A remote that fails no call never makes the loop raise. *)
Lemma loop_run_never_throws : forall q m fuel pt td w r w' bs,
  (forall pt w, exists r w',
      messages_list service q m pt w = (Ret r, w')) ->
  (forall ids w, exists u w',
      messages_batchDelete service ids w = (Ret u, w')) ->
  loop_run service q m fuel pt td w r w' bs ->
  forall e td', r <> Some (Threw e td').
Proof.
  intros q m fuel pt td w r w' bs Hl Hd H.
  induction H; intros e0 td0; try discriminate; auto.
  intros E. inversion E; subst.
  inversion H; subst.
  - destruct (Hl pt w) as (r1 & w1 & E1). congruence.
  - match goal with
    | A : messages_batchDelete _ ?ids ?w1 = (Raise _, _) |- _ =>
        destruct (Hd ids w1) as (u & w2 & E2); congruence
    end.
Qed.
End Agreement.

(** C10. When the listing answers the command-line loop (which asks for
    [min batch_size 500] messages) with the same pages as the server loop
    (which asks for 500), the two [delete_emails_by_query] issue the same
    batch-delete calls and leave the remote in the same state, after any
    number of iterations.  Their results are equal (the same total, the
    same exception, or both still running) unless a call raised an
    [HttpError]: then the command-line function returns the partial
    count, which is not negative, and the server function returns -1
    with status ['error'].  On a remote that fails no call the results
    are always equal. *)
Theorem C10_loops_agree :
  forall (W : Type) (service : Service W) (query : string) (batch_size : Z),
    (forall pt w, messages_list service query (Z.min batch_size 500) pt w
                  = messages_list service query 500 pt w) ->
    forall (fuel : nat) (p : gmail_ui.Progress) (w : W),
      let cli := gmail_bulk_delete.delete_emails_by_query
                   service fuel query batch_size (mkIO w []) in
      let ui := gmail_ui.delete_emails_by_query
                  service fuel query p (mkIO w []) in
      batches (trace (snd cli)) = batches (trace (snd ui)) /\
      world (snd cli) = world (snd ui) /\
      ((fst cli = fst (fst ui) /\ gmail_ui.status (snd (fst ui)) <> "error")
       \/
       (exists k, fst cli = Some (Ret k) /\ 0 <= k /\
                  fst (fst ui) = Some (Ret (-1)) /\
                  gmail_ui.status (snd (fst ui)) = "error")) /\
      ((forall pt w, exists r w',
           messages_list service query 500 pt w = (Ret r, w')) ->
       (forall ids w, exists u w',
           messages_batchDelete service ids w = (Ret u, w')) ->
       fst cli = fst (fst ui)).
Proof.
  intros W service query batch_size Hsame fuel p w cli ui.
  pose proof (cli_delete_trace W service fuel query batch_size (mkIO w []))
    as (Hw & Hb & _).
  fold cli in Hw, Hb. rewrite Hb, Hw. clear Hb Hw.
  unfold cli, ui, gmail_bulk_delete.delete_emails_by_query,
    gmail_ui.delete_emails_by_query.
  rewrite clamp_min.
  destruct (gmail_bulk_delete.while_true service fuel query
              (Z.min batch_size 500) None 0 (mkIO w [])) as [r1 io1] eqn:E1.
  destruct (gmail_ui.while_true service fuel query None 0
              (gmail_ui.set_status "deleting" p) (mkIO w []))
    as [[r2 p2] io2] eqn:E2.
  apply cli_while_true_run in E1. destruct E1 as (tr1 & T1 & _ & _ & R1).
  apply ui_while_true_run in E2.
  destruct E2 as (tr2 & T2 & _ & _ & R2 & _ & Hst & _).
  apply (loop_run_same_pages service _ _ 500 _ _ _ _ _ _ _ Hsame) in R1.
  destruct (loop_run_fun service _ _ _ _ _ _ _ _ _ R1 _ _ _ R2)
    as (-> & Hw & Hb).
  pose proof (loop_run_total_ge service _ _ _ _ _ _ _ _ _ R2) as Hge.
  simpl in T1, T2, Hst.
  destruct r2 as [[td|[d|d] td]|]; cbn [fst snd]; rewrite T1, T2, Hb;
    (split; [reflexivity|]); (split; [exact Hw|]);
    (split;
     [|intros Hl Hd;
       pose proof (loop_run_never_throws service _ _ _ _ _ _ _ _ _
                     Hl Hd R2) as Hnt;
       try reflexivity; now elim (Hnt (HttpError d) td)]).
  - left. split; [reflexivity|]. simpl. discriminate.
  - right. exists td. specialize (Hge _ eq_refl). simpl in Hge.
    repeat split; auto.
  - left. split; [reflexivity|]. rewrite Hst. simpl. discriminate.
  - left. split; [reflexivity|]. rewrite Hst. simpl. discriminate.
Qed.

(** The scripted remote answers both loops alike; with a failure in the
    third batch the results are 200 and -1. *)
Lemma C10_loops_agree_witness :
  (forall pt w, messages_list scripted "in:spam" (Z.min 100 500) pt w
                = messages_list scripted "in:spam" 500 pt w) /\
  let cli := gmail_bulk_delete.delete_emails_by_query
               scripted 10 "in:spam" 100 (mkIO fails_after_two []) in
  let ui := gmail_ui.delete_emails_by_query
              scripted 10 "in:spam" gmail_ui.initial_progress
              (mkIO fails_after_two []) in
  batches (trace (snd cli)) = batches (trace (snd ui)) /\
  fst cli = Some (Ret 200) /\ fst (fst ui) = Some (Ret (-1)).
Proof.
  assert (Hsame : forall pt w,
             messages_list scripted "in:spam" (Z.min 100 500) pt w
             = messages_list scripted "in:spam" 500 pt w)
    by (intros; reflexivity).
  split; [exact Hsame|]. intros cli ui.
  destruct (C10_loops_agree _ scripted "in:spam" 100 Hsame 10%nat
              gmail_ui.initial_progress fails_after_two) as (H & _).
  split; [exact H|]. split; vm_compute; reflexivity.
Defined.

(** * Further properties *)

(** ** Credentials *)

(** The credentials a successful [get_gmail_service()] built the service
    with are the ones [token.pickle] holds afterwards, and when they are
    valid the next call, whatever the libraries would answer, loads them
    and builds the service without a refresh, a browser flow or a write. *)
Theorem saved_credentials_are_reused :
  forall (not_found : string) (oauth oauth' : OAuth) (d d' : Disk)
         (c : Credentials) (evs : list auth_event),
    get_gmail_service not_found oauth d = (Ret c, d', evs) ->
    token_pickle d' = Pickled c /\
    credentials_json d' = credentials_json d /\
    In (Build c) evs /\
    (valid c = true ->
     snd (get_gmail_service not_found oauth' d') = [Build c] /\
     snd (fst (get_gmail_service not_found oauth' d')) = d').
Proof.
  intros not_found oauth oauth' d d' c evs H.
  assert (Hfast : forall d0, token_pickle d0 = Pickled c ->
            valid c = true ->
            snd (get_gmail_service not_found oauth' d0) = [Build c] /\
            snd (fst (get_gmail_service not_found oauth' d0)) = d0).
  { intros d0 Ht Hv. unfold get_gmail_service. rewrite Ht, Hv.
    destruct (build oauth' c); split; reflexivity. }
  revert Hfast. generalize (get_gmail_service not_found oauth').
  intros again Hfast.
  unfold get_gmail_service in H.
  repeat (match type of H with
          | context [match ?x with _ => _ end] => destruct x eqn:?
          end; cbn in H; try discriminate);
    inversion H; subst; clear H; cbn;
    (split; [try reflexivity; assumption|]);
    (split; [reflexivity|]);
    (split; [rewrite ?in_app_iff; simpl; intuition|]);
    intros Hv; apply Hfast; auto.
Qed.

(** What [get_gmail_service()] never does: it leaves [credentials.json]
    alone; it changes [token.pickle] only by writing the credentials it
    has just obtained; it refreshes only a stored token that is invalid,
    expired and has a refresh token, and never falls back to the browser
    flow after trying a refresh; it starts the browser flow only when
    [credentials.json] exists and no stored token is valid; and when it
    fails before building the service, nothing has been written. *)
Theorem get_gmail_service_is_careful :
  forall (not_found : string) (oauth : OAuth) (d : Disk),
    let out := get_gmail_service not_found oauth d in
    let d' := snd (fst out) in
    let evs := snd out in
    credentials_json d' = credentials_json d /\
    (d' = d \/ exists c, token_pickle d' = Pickled c /\ In (WriteToken c) evs)
    /\
    (forall c, In (Refresh c) evs ->
               token_pickle d = Pickled c /\ valid c = false /\
               expired c = true /\ truthy_opt (refresh_token c) = true /\
               ~ In RunLocalServer evs) /\
    (In RunLocalServer evs ->
     credentials_json d = true /\
     forall c, token_pickle d = Pickled c -> valid c = false) /\
    ((forall c, ~ In (Build c) evs) -> d' = d).
Proof.
  intros not_found oauth d out d' evs. subst out d' evs.
  unfold get_gmail_service.
  destruct d as [tok cj]. cbn [token_pickle credentials_json].
  destruct tok as [|c0|], cj; cbn [negb];
    repeat match goal with
           | |- context [match ?x with _ => _ end] => destruct x eqn:?
           end;
    cbn;
    repeat match goal with
           | Hab : andb _ _ = true |- _ =>
               apply andb_prop in Hab; destruct Hab
           end;
    (split; [reflexivity|]);
    (split;
     [first [left; reflexivity
            |right; eexists; split; [reflexivity|simpl; intuition]]|]);
    (split;
     [intros c Hin; simpl in Hin;
      repeat (destruct Hin as [Hin|Hin]; try discriminate);
      try contradiction;
      inversion Hin; subst; repeat split; auto;
      simpl; intuition discriminate|]);
    (split;
     [intros Hin; simpl in Hin;
      repeat (destruct Hin as [Hin|Hin]; try discriminate);
      try contradiction;
      (split; [reflexivity|intros c Ht; inversion Ht; subst; assumption])|]);
    intros Hnb; first [reflexivity|exfalso; eapply Hnb; simpl; intuition].
Qed.

(** [get_gmail_service()] stops before any library call in two cases only:
    [token.pickle] cannot be loaded, or [credentials.json] is missing
    while [token.pickle] is absent or holds a token that is neither valid
    nor refreshable; in the second case it raises the
    [FileNotFoundError] and leaves both files as they are. *)
Theorem get_gmail_service_without_credentials_file :
  forall (not_found : string) (oauth : OAuth) (d : Disk),
    let out := get_gmail_service not_found oauth d in
    let unusable :=
      match token_pickle d with
      | Absent => true
      | Pickled c =>
          negb (valid c)
          && negb (expired c && truthy_opt (refresh_token c))
      | Unreadable => false
      end in
    (unusable && negb (credentials_json d) = true ->
     out = (Raise (OtherError not_found), d, [])) /\
    (snd out = [] ->
     token_pickle d = Unreadable \/
     unusable && negb (credentials_json d) = true).
Proof.
  intros not_found oauth d out unusable. subst out unusable.
  unfold get_gmail_service.
  destruct d as [tok cj]. cbn [token_pickle credentials_json].
  destruct tok as [|c0|], cj; cbn [negb andb]; split;
    try (intros; discriminate); try (intros; reflexivity);
    try (intros _; left; reflexivity); try (intros _; right; reflexivity);
    try (destruct (valid c0), (expired c0), (truthy_opt (refresh_token c0)));
    cbn;
    repeat match goal with
           | |- context [match ?x with _ => _ end] => destruct x
           end; cbn;
    intros H; try discriminate H; try reflexivity; auto;
    try (exfalso; revert H; clear;
         repeat match goal with
                | |- context [?l ++ [?e]] => destruct l
                end; cbn; discriminate).
Qed.

(** ** Grouping by category *)

Lemma dict_get_dict_append : forall (A : Type) cat (item : A) categories k,
  gmail_bulk_delete.dict_get (dict_append cat item categories) k
  = if String.eqb cat k
    then Some (match gmail_bulk_delete.dict_get categories k with
               | Some l => l ++ [item]
               | None => [item]
               end)
    else gmail_bulk_delete.dict_get categories k.
Proof.
  intros A cat item categories k.
  induction categories as [|[c l] rest IH]; cbn [dict_append].
  - cbn [gmail_bulk_delete.dict_get]. reflexivity.
  - destruct (String.eqb_spec c cat) as [->|Hc];
      cbn [gmail_bulk_delete.dict_get].
    + destruct (String.eqb cat k); reflexivity.
    + rewrite IH. destruct (String.eqb_spec c k) as [->|Hk]; [|reflexivity].
      destruct (String.eqb_spec cat k) as [->|_]; [congruence|reflexivity].
Qed.

Lemma keys_dict_append : forall (A : Type) cat (item : A) categories,
  map fst (dict_append cat item categories)
  = if existsb (String.eqb cat) (map fst categories)
    then map fst categories
    else map fst categories ++ [cat].
Proof.
  intros A cat item categories.
  induction categories as [|[c l] rest IH]; cbn [dict_append]; [reflexivity|].
  cbn [map fst existsb]. rewrite (String.eqb_sym cat c).
  destruct (String.eqb c cat); cbn [map fst orb]; [reflexivity|].
  rewrite IH. destruct (existsb (String.eqb cat) (map fst rest)); reflexivity.
Qed.

Lemma group_by_snoc : forall (R A : Type) (cat : R -> string) (val : R -> A)
                             rows row,
  group_by cat val (rows ++ [row])
  = dict_append (cat row) (val row) (group_by cat val rows).
Proof. intros. unfold group_by. now rewrite fold_left_app. Qed.

(** Under a category the grouping dictionary holds the rows of that
    category, in the order of the table; a category without rows is no
    key. *)
Lemma group_by_lookup : forall (R A : Type) (cat : R -> string)
                               (val : R -> A) rows c,
  gmail_bulk_delete.dict_get (group_by cat val rows) c
  = match filter (fun row => String.eqb (cat row) c) rows with
    | [] => None
    | l => Some (map val l)
    end.
Proof.
  intros R A cat val rows c.
  induction rows as [|row rows IH] using rev_ind; [reflexivity|].
  rewrite group_by_snoc, dict_get_dict_append, IH, filter_app.
  cbn [filter]. destruct (String.eqb (cat row) c).
  - destruct (filter (fun row0 => String.eqb (cat row0) c) rows);
      cbn [app map]; [reflexivity|]. now rewrite map_app.
  - rewrite app_nil_r. reflexivity.
Qed.

Lemma existsb_eqb_In : forall (c : string) l,
  existsb (String.eqb c) l = true <-> In c l.
Proof.
  intros c l. rewrite existsb_exists. split.
  - intros (x & Hx & E). apply String.eqb_eq in E. now subst.
  - intros H. exists c. split; [exact H|apply String.eqb_refl].
Qed.

Lemma group_by_keys : forall (R A : Type) (cat : R -> string) (val : R -> A)
                             rows,
  NoDup (map fst (group_by cat val rows)) /\
  forall c, In c (map fst (group_by cat val rows)) <-> In c (map cat rows).
Proof.
  intros R A cat val rows.
  induction rows as [|row rows (IHn & IHi)] using rev_ind.
  - split; [constructor|]. intros c. reflexivity.
  - rewrite group_by_snoc, keys_dict_append, map_app. cbn [map].
    destruct (existsb (String.eqb (cat row))
                      (map fst (group_by cat val rows))) eqn:E.
    + split; [exact IHn|]. intros c. rewrite in_app_iff, IHi. cbn [In].
      apply existsb_eqb_In in E. apply IHi in E.
      split; [tauto|]. intros [H|[<-|[]]]; auto.
    + split.
      * apply NoDup_app; [exact IHn|repeat constructor; intros []|].
        intros a Ha [<-|[]].
        apply existsb_eqb_In in Ha. congruence.
      * intros c. rewrite !in_app_iff, IHi. reflexivity.
Qed.

Lemma group_add_dict_append : forall cat item categories,
  gmail_bulk_delete.group_add cat item categories
  = dict_append cat item categories.
Proof.
  intros cat item categories.
  induction categories as [|[c l] rest IH]; cbn; [reflexivity|].
  now rewrite IH.
Qed.

Lemma group_group_by : forall filters,
  gmail_bulk_delete.group filters
  = group_by (fun row => gmail_bulk_delete.category (snd row))
             (fun row => row) filters.
Proof.
  intros filters. unfold gmail_bulk_delete.group, group_by.
  generalize (@nil (string * list (string * gmail_bulk_delete.Filter))).
  induction filters as [|row filters IH]; intros acc; cbn [fold_left];
    [reflexivity|].
  now rewrite group_add_dict_append, IH.
Qed.

(** [/api/filters] serves every filter of the table exactly where it
    belongs: the keys of the answer are the categories of the table, each
    once; under a category stand the entries of its filters, in the order
    of the table; and every filter of [FILTERS] is found under its own
    category with its key, label and query. *)
Theorem get_filters_groups_every_filter :
  forall (filters : list (string * gmail_bulk_delete.Filter)),
    let categories := get_filters_of filters in
    NoDup (map fst categories) /\
    (forall c, In c (map fst categories) <-> In c (map category_of filters)) /\
    (forall c,
        gmail_bulk_delete.dict_get categories c
        = match filter (in_category c) filters with
          | [] => None
          | l => Some (map entry_of l)
          end) /\
    (forall key info,
        In (key, info) ui_FILTERS ->
        exists l,
          gmail_bulk_delete.dict_get get_filters
            (gmail_bulk_delete.category info) = Some l /\
          In (mkFilterEntry key (gmail_bulk_delete.label info)
                            (gmail_bulk_delete.query info)) l).
Proof.
  intros filters categories. subst categories. unfold get_filters_of.
  destruct (group_by_keys _ _
              (fun row : string * gmail_bulk_delete.Filter =>
                 gmail_bulk_delete.category (snd row))
              (fun row => mkFilterEntry (fst row)
                            (gmail_bulk_delete.label (snd row))
                            (gmail_bulk_delete.query (snd row)))
              filters) as (Hn & Hi).
  split; [exact Hn|]. split; [exact Hi|]. split.
  - intros c. apply group_by_lookup.
  - intros key info Hin. unfold get_filters, get_filters_of.
    rewrite group_by_lookup.
    assert (Hf : In (key, info)
                    (filter (fun row : string * gmail_bulk_delete.Filter =>
                               String.eqb (gmail_bulk_delete.category (snd row))
                                          (gmail_bulk_delete.category info))
                            ui_FILTERS)).
    { apply filter_In. split; [exact Hin|]. apply String.eqb_refl. }
    destruct (filter _ ui_FILTERS) as [|x l] eqn:E; [destruct Hf|].
    eexists. split; [reflexivity|].
    apply (in_map (fun row : string * gmail_bulk_delete.Filter =>
                     mkFilterEntry (fst row)
                       (gmail_bulk_delete.label (snd row))
                       (gmail_bulk_delete.query (snd row)))) in Hf.
    exact Hf.
Qed.

(** ** The menu of [display_filters] *)

Lemma insert_sorted_perm : forall s l,
  Permutation (gmail_bulk_delete.insert_sorted s l) (s :: l).
Proof.
  intros s l. induction l as [|x l IH]; cbn; [reflexivity|].
  destruct (String.leb s x); [reflexivity|].
  rewrite IH. apply perm_swap.
Qed.

Lemma sorted_perm : forall l, Permutation (gmail_bulk_delete.sorted l) l.
Proof.
  induction l as [|x l IH]; cbn; [reflexivity|].
  fold (gmail_bulk_delete.sorted l).
  rewrite insert_sorted_perm. now constructor.
Qed.

Lemma insert_sorted_Sorted : forall s l,
  Sorted (fun a b => String.leb a b = true) l ->
  Sorted (fun a b => String.leb a b = true)
         (gmail_bulk_delete.insert_sorted s l).
Proof.
  intros s l H. induction H as [|x l Hs IH Hh]; cbn.
  - repeat constructor.
  - destruct (String.leb s x) eqn:E.
    + constructor; [constructor; assumption|constructor; exact E].
    + constructor; [exact IH|].
      assert (Hx : String.leb x s = true).
      { destruct (String.leb_total s x) as [H|H]; congruence. }
      destruct Hh as [|y l Hy]; cbn; [constructor; exact Hx|].
      destruct (String.leb s y); constructor; assumption.
Qed.

Lemma sorted_Sorted : forall l,
  Sorted (fun a b => String.leb a b = true) (gmail_bulk_delete.sorted l).
Proof.
  induction l as [|x l IH]; cbn; [constructor|].
  now apply insert_sorted_Sorted.
Qed.

Lemma filter_none : forall (A : Type) (p : A -> bool) l,
  (forall x, In x l -> p x = false) -> filter p l = [].
Proof.
  intros A p l. induction l as [|x l IH]; intros H; cbn; [reflexivity|].
  rewrite (H x (or_introl eq_refl)). apply IH. intros y Hy. apply H. now right.
Qed.

Lemma filter_every : forall (A : Type) (p : A -> bool) l,
  (forall x, In x l -> p x = true) -> filter p l = l.
Proof.
  intros A p l. induction l as [|x l IH]; intros H; cbn; [reflexivity|].
  rewrite (H x (or_introl eq_refl)). f_equal. apply IH.
  intros y Hy. apply H. now right.
Qed.

(** Splitting a table along distinct categories loses and repeats
    nothing. *)
Lemma by_category_perm : forall cats filters,
  NoDup cats ->
  Permutation
    (flat_map (fun c => filter (in_category c) filters) cats)
    (filter (fun row => existsb (String.eqb (category_of row)) cats) filters).
Proof.
  induction cats as [|c cats IH]; intros filters Hn; cbn [flat_map].
  - rewrite filter_none; [reflexivity|]. intros; reflexivity.
  - inversion Hn as [|? ? Hc Hn']; subst. rewrite (IH filters Hn').
    clear IH Hn Hn'. induction filters as [|row filters IHf]; [reflexivity|].
    cbn [filter existsb]. unfold in_category at 1.
    destruct (String.eqb_spec (category_of row) c) as [E|E]; cbn [orb].
    + assert (Hx : existsb (String.eqb (category_of row)) cats = false).
      { destruct (existsb (String.eqb (category_of row)) cats) eqn:X;
          [|reflexivity].
        apply existsb_eqb_In in X. congruence. }
      rewrite Hx. cbn [app]. now constructor.
    + destruct (existsb (String.eqb (category_of row)) cats).
      * rewrite <- Permutation_middle. now constructor.
      * exact IHf.
Qed.

Lemma filter_flat_map_by_category : forall cats filters c,
  NoDup cats ->
  filter (in_category c)
         (flat_map (fun c' => filter (in_category c') filters) cats)
  = if existsb (String.eqb c) cats then filter (in_category c) filters
    else [].
Proof.
  induction cats as [|c' cats IH]; intros filters c Hn; [reflexivity|].
  inversion Hn as [|? ? Hc Hn']; subst.
  cbn [flat_map existsb]. rewrite filter_app, (IH filters c Hn').
  destruct (String.eqb_spec c c') as [->|E]; cbn [orb].
  - rewrite filter_every.
    + destruct (existsb (String.eqb c') cats) eqn:X;
        [apply existsb_eqb_In in X; contradiction|apply app_nil_r].
    + intros x Hx. apply filter_In in Hx. tauto.
  - rewrite filter_none; [reflexivity|].
    intros x Hx. apply filter_In in Hx. destruct Hx as (_ & Hx).
    unfold in_category in *. apply String.eqb_eq in Hx.
    apply String.eqb_neq. congruence.
Qed.

Lemma menu_order_by_category : forall filters,
  menu_order filters
  = flat_map (fun c => filter (in_category c) filters)
      (gmail_bulk_delete.sorted
         (map fst (gmail_bulk_delete.group filters))).
Proof.
  intros filters. unfold menu_order. apply flat_map_ext. intros c.
  rewrite group_group_by, group_by_lookup. unfold in_category, category_of.
  destruct (filter _ filters); [reflexivity|].
  now rewrite map_id.
Qed.

Lemma group_keys : forall filters,
  NoDup (map fst (gmail_bulk_delete.group filters)) /\
  forall c, In c (map fst (gmail_bulk_delete.group filters))
            <-> In c (map category_of filters).
Proof.
  intros filters. rewrite group_group_by. apply group_by_keys.
Qed.

Lemma str_nat_inj : forall n m,
  gmail_bulk_delete.str_nat n = gmail_bulk_delete.str_nat m -> n = m.
Proof.
  intros n m H. unfold gmail_bulk_delete.str_nat in H.
  apply DecimalNat.Unsigned.to_uint_inj.
  assert (E : Some (Nat.to_uint n) = Some (Nat.to_uint m)).
  { rewrite <- (NilEmpty.usu (Nat.to_uint n)),
            <- (NilEmpty.usu (Nat.to_uint m)).
    now rewrite H. }
  now inversion E.
Qed.

Lemma dict_get_numbered : forall (vs : list string) start i,
  gmail_bulk_delete.dict_get
    (combine (map gmail_bulk_delete.str_nat (seq start (length vs))) vs)
    (gmail_bulk_delete.str_nat (start + i))
  = nth_error vs i.
Proof.
  induction vs as [|v vs IH]; intros start i.
  - destruct i; reflexivity.
  - cbn [length seq map combine gmail_bulk_delete.dict_get].
    destruct i as [|i].
    + rewrite Nat.add_0_r, String.eqb_refl. reflexivity.
    + destruct (String.eqb_spec (gmail_bulk_delete.str_nat start)
                                (gmail_bulk_delete.str_nat (start + S i)))
        as [E|_].
      * apply str_nat_inj in E. lia.
      * rewrite <- Nat.add_succ_comm. apply IH.
Qed.

Lemma dict_get_key : forall (A : Type) (d : list (string * A)) k v,
  gmail_bulk_delete.dict_get d k = Some v -> In (k, v) d.
Proof.
  intros A d k v. induction d as [|[k' v'] d IH];
    cbn [gmail_bulk_delete.dict_get]; [discriminate|].
  destruct (String.eqb_spec k' k) as [->|_].
  - intros H. inversion H. now left.
  - intros H. right. now apply IH.
Qed.

Lemma fst_combine : forall (A B : Type) (ks : list A) (vs : list B),
  length ks = length vs -> map fst (combine ks vs) = ks.
Proof.
  intros A B ks. induction ks as [|k ks IH]; intros [|v vs] H;
    try discriminate; [reflexivity|].
  cbn. f_equal. apply IH. now inversion H.
Qed.

Lemma snd_combine : forall (A B : Type) (ks : list A) (vs : list B),
  length ks = length vs -> map snd (combine ks vs) = vs.
Proof.
  intros A B ks. induction ks as [|k ks IH]; intros [|v vs] H;
    try discriminate; [reflexivity|].
  cbn. f_equal. apply IH. now inversion H.
Qed.

Lemma NoDup_numbers : forall start n,
  NoDup (map gmail_bulk_delete.str_nat (seq start n)).
Proof.
  intros start n. revert start.
  induction n as [|n IH]; intros start; cbn; constructor; [|apply IH].
  intros H. apply in_map_iff in H. destruct H as (m & E & Hm).
  apply str_nat_inj in E. apply in_seq in Hm. lia.
Qed.

Lemma menu_keys : forall filters,
  flat_map
    (fun c => match gmail_bulk_delete.dict_get
                      (gmail_bulk_delete.group filters) c with
              | Some l => map fst l
              | None => []
              end)
    (gmail_bulk_delete.sorted (map fst (gmail_bulk_delete.group filters)))
  = map fst (menu_order filters).
Proof.
  intros filters. unfold menu_order.
  induction (gmail_bulk_delete.sorted
               (map fst (gmail_bulk_delete.group filters))) as [|c cats IH];
    [reflexivity|].
  cbn [flat_map]. rewrite map_app, IH.
  destruct (gmail_bulk_delete.dict_get (gmail_bulk_delete.group filters) c);
    reflexivity.
Qed.

(** Every filter of the table is on the menu exactly once. *)
Lemma menu_order_perm : forall filters,
  Permutation (menu_order filters) filters.
Proof.
  intros filters. rewrite menu_order_by_category.
  destruct (group_keys filters) as (Hn & Hi).
  rewrite by_category_perm.
  - rewrite filter_every; [reflexivity|].
    intros row Hrow. apply existsb_eqb_In.
    apply (Permutation_in _ (Permutation_sym (sorted_perm _))).
    apply Hi. now apply in_map.
  - apply (Permutation_NoDup (Permutation_sym (sorted_perm _))). exact Hn.
Qed.

(** [display_filters()] numbers the menu from 1 without gaps: the map it
    returns has one number for every filter of the table and one more
    for the custom query, which comes last; the numbers are distinct, the
    number [i + 1] stands for entry [i] of the menu, and nothing but
    these numbers is a key of the map. *)
Theorem display_filters_numbers_the_menu :
  forall (filters : list (string * gmail_bulk_delete.Filter)),
    let filter_map := display_filters_of filters in
    let keys := map fst (menu_order filters) ++ ["custom"] in
    length filter_map = S (length filters) /\
    map snd filter_map = keys /\
    NoDup (map fst filter_map) /\
    (forall i,
        gmail_bulk_delete.dict_get filter_map (gmail_bulk_delete.str_nat (S i))
        = nth_error keys i) /\
    (forall choice key,
        gmail_bulk_delete.dict_get filter_map choice = Some key ->
        exists i, (i <= length filters)%nat /\
                  choice = gmail_bulk_delete.str_nat (S i)) /\
    gmail_bulk_delete.dict_get filter_map
      (gmail_bulk_delete.str_nat (S (length filters))) = Some "custom" /\
    gmail_bulk_delete.display_filters
    = display_filters_of gmail_bulk_delete.FILTERS.
Proof.
  intros filters filter_map keys.
  assert (Hlen : length keys = S (length filters)).
  { unfold keys. rewrite length_app, length_map.
    rewrite (Permutation_length (menu_order_perm filters)). cbn. lia. }
  assert (Hmap : filter_map
                 = combine (map gmail_bulk_delete.str_nat
                                (seq 1 (length keys))) keys).
  { unfold filter_map, display_filters_of, keys.
    now rewrite menu_keys. }
  assert (Hks : length (map gmail_bulk_delete.str_nat (seq 1 (length keys)))
                = length keys).
  { now rewrite length_map, length_seq. }
  rewrite Hmap.
  split; [now rewrite length_combine, Hks, Nat.min_id|].
  split; [now apply snd_combine|].
  split; [rewrite (fst_combine _ _ _ _ Hks); apply NoDup_numbers|].
  split; [intros i; apply (dict_get_numbered keys 1 i)|].
  split; [|split].
  - intros choice key H. apply dict_get_key in H.
    apply in_combine_l in H. apply in_map_iff in H.
    destruct H as (m & E & Hm). apply in_seq in Hm.
    exists (Nat.pred m). split; [lia|].
    rewrite <- E. f_equal. lia.
  - change (S (length filters)) with (1 + length filters)%nat.
    rewrite (dict_get_numbered keys 1 (length filters)).
    unfold keys. rewrite nth_error_app2; rewrite length_map;
      rewrite (Permutation_length (menu_order_perm filters)); [|lia].
    now rewrite Nat.sub_diag.
  - reflexivity.
Qed.

(** The menu shows the categories in ascending order, each once, and
    under a category its filters in the order of the table; so the
    filters of a category keep their order and every filter of the table
    is on the menu exactly once. *)
Theorem menu_is_sorted_by_category :
  forall (filters : list (string * gmail_bulk_delete.Filter)),
    (exists cats,
        Sorted (fun a b => String.leb a b = true) cats /\
        NoDup cats /\
        (forall c, In c cats <-> In c (map category_of filters)) /\
        menu_order filters
        = flat_map (fun c => filter (in_category c) filters) cats) /\
    (forall c, filter (in_category c) (menu_order filters)
               = filter (in_category c) filters) /\
    Permutation (menu_order filters) filters.
Proof.
  intros filters.
  destruct (group_keys filters) as (Hn & Hi).
  set (cats := gmail_bulk_delete.sorted
                 (map fst (gmail_bulk_delete.group filters))).
  assert (Hp : Permutation cats (map fst (gmail_bulk_delete.group filters)))
    by apply sorted_perm.
  assert (Hnd : NoDup cats)
    by (apply (Permutation_NoDup (Permutation_sym Hp)); exact Hn).
  split; [|split].
  - exists cats. split; [apply sorted_Sorted|]. split; [exact Hnd|].
    split; [|apply menu_order_by_category].
    intros c. rewrite <- Hi. split; intros H.
    + exact (Permutation_in _ Hp H).
    + exact (Permutation_in _ (Permutation_sym Hp) H).
  - intros c. rewrite menu_order_by_category. fold cats.
    rewrite filter_flat_map_by_category by exact Hnd.
    destruct (existsb (String.eqb c) cats) eqn:E; [reflexivity|].
    symmetry. apply filter_none. intros row Hrow.
    unfold in_category. apply String.eqb_neq. intros Hc.
    assert (Hin : In c cats).
    { apply (Permutation_in _ (Permutation_sym Hp)). apply Hi.
      rewrite <- Hc. now apply in_map. }
    apply existsb_eqb_In in Hin. congruence.
  - apply menu_order_perm.
Qed.

(** ** Choosing a filter *)

(** The numbers of the menu stand for keys of [FILTERS], the last one for
    the custom query. *)
Lemma display_filters_keys : forall choice key,
  gmail_bulk_delete.dict_get gmail_bulk_delete.display_filters choice
  = Some key ->
  key = "custom" \/
  exists info, In (key, info) gmail_bulk_delete.FILTERS /\
               gmail_bulk_delete.dict_get gmail_bulk_delete.FILTERS key
               = Some info.
Proof.
  intros choice key H. apply dict_get_key in H.
  apply (in_map snd) in H. cbn [snd] in H.
  assert (E : map snd gmail_bulk_delete.display_filters
              = map fst (menu_order gmail_bulk_delete.FILTERS) ++ ["custom"]).
  { reflexivity. }
  rewrite E in H. clear E.
  apply in_app_or in H. destruct H as [H|[H|[]]]; [right|now left].
  apply in_map_iff in H. destruct H as ([k info] & Ek & Hin).
  cbn [fst] in Ek. subst k. exists info.
  cbn in Hin.
  repeat (destruct Hin as [Hin|Hin];
          [inversion Hin; subst; split; [cbn; tauto|reflexivity]|]).
  destruct Hin.
Qed.

Lemma get_user_filter_choice_cases : forall n stdin,
  (length stdin <= n)%nat ->
  let out := gmail_bulk_delete.get_user_filter_choice
               gmail_bulk_delete.display_filters stdin in
  (exists used, stdin = used ++ snd (fst out)) /\
  match fst (fst out) with
  | Raise e => e = OtherError "EOFError" /\ snd (fst out) = []
  | Ret (q, l) =>
      (l = "Custom query" /\ q <> "" /\
       exists line, In line stdin /\ q = strip line) \/
      (exists key info,
          In (key, info) gmail_bulk_delete.FILTERS /\
          q = gmail_bulk_delete.query info /\
          l = gmail_bulk_delete.label info)
  end.
Proof.
  induction n as [|n IH]; intros stdin Hn.
  - destruct stdin; [|cbn in Hn; lia]. cbn. split; [now exists []|auto].
  - destruct stdin as [|line stdin].
    { cbn. split; [now exists []|auto]. }
    cbn [length] in Hn. cbn zeta.
    cbn [gmail_bulk_delete.get_user_filter_choice].
    destruct (gmail_bulk_delete.dict_get gmail_bulk_delete.display_filters
                (strip line)) as [key|] eqn:EK.
    + destruct (display_filters_keys _ _ EK) as [->|(info & Hin & Hinfo)].
      * cbn [String.eqb Ascii.eqb Bool.eqb andb].
        destruct stdin as [|line2 stdin].
        { cbn. split; [now exists [line]|auto]. }
        destruct (truthy_str (strip line2)) eqn:ET; cbn [negb].
        -- cbn [fst snd]. split; [now exists [line; line2]|].
           left. split; [reflexivity|]. split.
           ++ now apply truthy_str_not_empty.
           ++ exists line2. split; [cbn; tauto|reflexivity].
        -- specialize (IH stdin ltac:(cbn in Hn; lia)). cbn zeta in IH.
           destruct (gmail_bulk_delete.get_user_filter_choice
                       gmail_bulk_delete.display_filters stdin)
             as [[r rest'] out'].
           cbn [fst snd] in *. destruct IH as ((used & Hu) & Hr). split.
           ++ exists (line :: line2 :: used). cbn. now rewrite <- Hu.
           ++ destruct r as [[q l]|e]; [|exact Hr].
              destruct Hr as [(Hl & Hq & line' & Hin' & Hs)|Hr];
                [left|now right].
              split; [exact Hl|]. split; [exact Hq|].
              exists line'. split; [cbn; tauto|exact Hs].
      * destruct (String.eqb_spec key "custom") as [->|Hk].
        { cbn in Hinfo. discriminate Hinfo. }
        rewrite Hinfo. cbn [fst snd]. split; [now exists [line]|].
        right. exists key, info. auto.
    + specialize (IH stdin ltac:(lia)). cbn zeta in IH.
      destruct (gmail_bulk_delete.get_user_filter_choice
                  gmail_bulk_delete.display_filters stdin)
        as [[r rest'] out'].
      cbn [fst snd] in *. destruct IH as ((used & Hu) & Hr). split.
      * exists (line :: used). cbn. now rewrite <- Hu.
      * destruct r as [[q l]|e]; [|exact Hr].
        destruct Hr as [(Hl & Hq & line' & Hin' & Hs)|Hr]; [left|now right].
        split; [exact Hl|]. split; [exact Hq|].
        exists line'. split; [cbn; tauto|exact Hs].
Qed.

(** On the menu of [display_filters()], [get_user_filter_choice] reads
    lines from the front of the input until one choice is complete.  It
    returns the query and label of a filter of [FILTERS], or a custom
    query, which is a line of the input with its white space stripped by
    [strip()] and is not empty; it raises nothing but the [EOFError] of an input that has
    run out, and in particular no [KeyError]. *)
Theorem get_user_filter_choice_outcomes :
  forall (stdin : list string),
    let out := gmail_bulk_delete.get_user_filter_choice
                 gmail_bulk_delete.display_filters stdin in
    (exists used, stdin = used ++ snd (fst out)) /\
    match fst (fst out) with
    | Raise e => e = OtherError "EOFError" /\ snd (fst out) = []
    | Ret (q, l) =>
        (l = "Custom query" /\ q <> "" /\
         exists line, In line stdin /\ q = strip line) \/
        (exists key info,
            In (key, info) gmail_bulk_delete.FILTERS /\
            q = gmail_bulk_delete.query info /\
            l = gmail_bulk_delete.label info)
    end.
Proof.
  intros stdin. exact (get_user_filter_choice_cases (length stdin) stdin
                         (Nat.le_refl _)).
Qed.

(** ** What [main] does to the mailbox *)

Lemma confirm_deletion_true : forall query count stdin rest out,
  gmail_bulk_delete.confirm_deletion query count stdin
  = (Ret true, rest, out) ->
  exists line, In line stdin /\ strip line = "DELETE".
Proof.
  intros query count stdin rest out.
  unfold gmail_bulk_delete.confirm_deletion, gmail_bulk_delete.input.
  destruct (count >? 1000).
  - destruct stdin as [|line1 stdin]; [discriminate|].
    destruct (negb (String.eqb (lower line1) "yes")); [discriminate|].
    destruct stdin as [|line2 stdin]; [discriminate|].
    intros H. exists line2. split; [cbn; tauto|].
    apply String.eqb_eq. congruence.
  - destruct stdin as [|line2 stdin]; [discriminate|].
    intros H. exists line2. split; [cbn; tauto|].
    apply String.eqb_eq. congruence.
Qed.

Section MainSafety.
Context {W : Type} (service : Service W).

Lemma batches_trace_print : forall line (io : IO W),
  batches (trace (print line io)) = batches (trace io).
Proof. intros. unfold print. cbn [trace]. apply batches_print. Qed.

Lemma batches_prints : forall out (io : IO W),
  batches (trace (gmail_bulk_delete.prints out io)) = batches (trace io).
Proof.
  induction out as [|line out IH]; intros io; [reflexivity|].
  unfold gmail_bulk_delete.prints in *. cbn [fold_left]. rewrite IH.
  apply batches_trace_print.
Qed.

Lemma batches_authorize : forall (io : IO W),
  batches (trace (snd (call_authorize service io))) = batches (trace io).
Proof.
  intros io. rewrite call_authorize_eq. cbn [snd trace].
  rewrite batches_app. cbn. apply app_nil_r.
Qed.

Lemma batches_cli_count : forall q (io : IO W),
  batches (trace (snd (gmail_bulk_delete.count_emails service q io)))
  = batches (trace io).
Proof.
  intros q io. unfold gmail_bulk_delete.count_emails.
  rewrite call_list_eq.
  destruct (messages_list service q 1 None (world io)) as [[r|[d|d]] w1];
    cbn [fst snd]; rewrite ?batches_trace_print; cbn [trace];
    rewrite batches_app; cbn; apply app_nil_r.
Qed.

Lemma main_run : forall fuel stdin (io : IO W),
  let out := gmail_bulk_delete.main service fuel stdin io in
  (exists q qs,
      q <> "" /\ Forall (fun x => x = q) qs /\
      list_queries (trace (snd out)) = list_queries (trace io) ++ qs) /\
  (batches (trace (snd out)) <> batches (trace io) ->
   exists line, In line stdin /\ strip line = "DELETE").
Proof.
  intros fuel stdin io. cbn zeta. unfold gmail_bulk_delete.main.
  assert (Hnone : forall (A : Type) (l : list A), l = l ++ [])
    by (intros; now rewrite app_nil_r).
  pose proof (list_queries_authorize service io) as Ha.
  pose proof (batches_authorize io) as Hb.
  destruct (call_authorize service io) as [[u|e] io1];
    cbn [snd] in Ha, Hb.
  2:{ cbn [snd].
      rewrite list_queries_trace_print, batches_trace_print, Ha, Hb.
      split; [|intros H; now elim H].
      exists "-", []. split; [discriminate|]. split; [constructor|auto]. }
  pose proof (get_user_filter_choice_cases (length stdin) stdin
                (Nat.le_refl _)) as Hc.
  cbn zeta in Hc.
  destruct (gmail_bulk_delete.get_user_filter_choice
              gmail_bulk_delete.display_filters stdin)
    as [[[[q l]|e] stdin1] out] eqn:EC; cbn [fst snd] in Hc.
  2:{ cbn [snd].
      rewrite list_queries_trace_print, list_queries_prints,
        list_queries_trace_print, batches_trace_print, batches_prints,
        batches_trace_print, Ha, Hb.
      split; [|intros H; now elim H].
      exists "-", []. split; [discriminate|]. split; [constructor|auto]. }
  destruct Hc as ((used & Hused) & _).
  assert (Hq : q <> "").
  { eapply get_user_filter_choice_not_empty; [apply Nat.le_refl|exact EC]. }
  set (io3 := gmail_bulk_delete.prints out (print PrintFilterList io1)).
  assert (H3 : list_queries (trace io3) = list_queries (trace io)).
  { unfold io3. now rewrite list_queries_prints, list_queries_trace_print. }
  assert (B3 : batches (trace io3) = batches (trace io)).
  { unfold io3. now rewrite batches_prints, batches_trace_print. }
  pose proof (list_queries_count service q io3) as Hcq.
  pose proof (batches_cli_count q io3) as Hcb.
  destruct (gmail_bulk_delete.count_emails service q io3) as [[count|e] io4];
    cbn [snd] in Hcq, Hcb.
  2:{ cbn [snd].
      rewrite list_queries_trace_print, batches_trace_print, Hcq, Hcb, H3, B3.
      split; [|intros H; now elim H].
      exists q, [q]. split; [exact Hq|]. split; [repeat constructor|auto]. }
  destruct (count =? 0).
  { cbn [snd].
    rewrite !list_queries_trace_print, !batches_trace_print, Hcq, Hcb, H3, B3.
    split; [|intros H; now elim H].
    exists q, [q]. split; [exact Hq|]. split; [repeat constructor|auto]. }
  destruct (gmail_bulk_delete.confirm_deletion q count stdin1)
    as [[[[|]|e] stdin2] out2] eqn:ED.
  - split.
    + set (io6 := gmail_bulk_delete.prints out2
                    (print (PrintFound count) io4)).
      assert (H6 : list_queries (trace io6) = list_queries (trace io4)).
      { unfold io6.
        now rewrite list_queries_prints, list_queries_trace_print. }
      destruct (list_queries_delete service fuel q
                  gmail_bulk_delete.CONFIG_batch_size io6)
        as (qs & Hd & Hqs).
      exists q, (q :: qs). split; [exact Hq|]. split; [now constructor|].
      destruct (gmail_bulk_delete.delete_emails_by_query service fuel q
                  gmail_bulk_delete.CONFIG_batch_size io6)
        as [[[deleted|e]|] io7]; cbn [snd] in Hd; cbn [snd];
        rewrite ?list_queries_trace_print, Hd, H6, Hcq, H3, <- app_assoc;
        reflexivity.
    + intros _. apply confirm_deletion_true in ED.
      destruct ED as (line & Hin & Hs). exists line. split; [|exact Hs].
      rewrite Hused. apply in_or_app. now right.
  - cbn [snd].
    rewrite list_queries_trace_print, list_queries_prints,
      list_queries_trace_print, batches_trace_print, batches_prints,
      batches_trace_print, Hcq, Hcb, H3, B3.
    split; [|intros H; now elim H].
    exists q, [q]. split; [exact Hq|]. split; [repeat constructor|auto].
  - cbn [snd].
    rewrite list_queries_trace_print, list_queries_prints,
      list_queries_trace_print, batches_trace_print, batches_prints,
      batches_trace_print, Hcq, Hcb, H3, B3.
    split; [|intros H; now elim H].
    exists q, [q]. split; [exact Hq|]. split; [repeat constructor|auto].
Qed.
End MainSafety.

(** [main] sends a batch-delete call only if some line of the input,
    with its white space stripped by [strip()], is [DELETE]; and all the listing calls of a run,
    the one that counts and the ones that delete, carry one and the same
    query, which is not empty: what is deleted is what was counted. *)
Theorem main_deletes_only_after_DELETE :
  forall (W : Type) (service : Service W) (fuel : nat)
         (stdin : list string) (io : IO W),
    let out := gmail_bulk_delete.main service fuel stdin io in
    (exists q qs,
        q <> "" /\ Forall (fun x => x = q) qs /\
        list_queries (trace (snd out)) = list_queries (trace io) ++ qs) /\
    (batches (trace (snd out)) <> batches (trace io) ->
     exists line, In line stdin /\ strip line = "DELETE").
Proof.
  intros W service fuel stdin io out.
  destruct (main_run service fuel stdin io) as (Hq & Hb).
  split; [exact Hq|exact Hb].
Qed.

(** ** The count endpoint of the server *)

(** [/api/count] only reads: it leaves the globals and the worker threads
    as they are and sends no batch-delete call; it calls the remote at
    most once for a listing, of one message.  Without a query it answers
    400 ["No query"] and touches nothing; otherwise it answers a count or,
    for an exception, 500. *)
Theorem count_endpoint_only_reads :
  forall (W : Type) (service : Service W) (query : option string)
         (s : gmail_ui.Server W),
    let out := gmail_ui.count service query s in
    gmail_ui.globals (snd out) = gmail_ui.globals s /\
    gmail_ui.threads (snd out) = gmail_ui.threads s /\
    (exists tr,
        trace (gmail_ui.io (snd out)) = trace (gmail_ui.io s) ++ tr /\
        batches tr = [] /\
        (list_sizes tr = [] \/ list_sizes tr = [1])) /\
    match fst out with
    | gmail_ui.JsonCount _ => truthy_opt query = true
    | gmail_ui.JsonError msg code =>
        (truthy_opt query = false /\ msg = "No query" /\ code = 400 /\
         snd out = s) \/
        (truthy_opt query = true /\ code = 500)
    | _ => False
    end.
Proof.
  intros W service query s out. subst out. unfold gmail_ui.count.
  destruct query as [[|c q]|]; cbn [truthy_str truthy_opt negb fst snd].
  - repeat split; auto. exists []. rewrite app_nil_r. auto.
  - rewrite call_authorize_eq.
    destruct (authorize service (world (gmail_ui.io s))) as [[u|e] w1];
      cbn [fst snd].
    + unfold gmail_ui.count_emails. rewrite call_list_eq. cbn [world trace].
      destruct (messages_list service (String c q) 1 None w1)
        as [[r|[d|d]] w2]; cbn [fst snd gmail_ui.globals gmail_ui.threads
                                  gmail_ui.io trace];
        (split; [reflexivity|]); (split; [reflexivity|]);
        (split; [|auto]);
        exists [CallAuthorize; CallList (String c q) 1 None];
        rewrite <- app_assoc; auto.
    + cbn [gmail_ui.globals gmail_ui.threads gmail_ui.io trace].
      split; [reflexivity|]. split; [reflexivity|]. split; [|auto].
      exists [CallAuthorize]. auto.
  - repeat split; auto. exists []. rewrite app_nil_r. auto.
Qed.

(** ** The page: counting, then deleting *)

Lemma click_delete_posts : forall p q,
  countInfo p = true -> page_query p = Some q -> q <> "" ->
  emailCount p <> 0 ->
  click_delete true true p
  = ([gmail_ui.ConfirmDelete (emailCount p); gmail_ui.ConfirmFinal;
      gmail_ui.ShowProgress; gmail_ui.FetchDelete q],
     mkPage (selectedFilter p) (customQuery p) (emailCount p) false).
Proof.
  intros p q Hc Hq Hne Hn. unfold click_delete, gmail_ui.deleteEmails.
  rewrite Hc. unfold page_query in Hq. rewrite Hq.
  apply truthy_str_not_empty in Hne. rewrite Hne.
  apply Z.eqb_neq in Hn. rewrite Hn. reflexivity.
Qed.

Lemma checkCount_sends : forall answer p q,
  page_query p = Some q -> q <> "" ->
  checkCount answer p
  = (Some q,
     if count_of_answer (answer q) =? 0
     then [gmail_ui.ShowStatus "No emails found"] else [],
     mkPage (selectedFilter p) (customQuery p) (count_of_answer (answer q))
            (negb (count_of_answer (answer q) =? 0))).
Proof.
  intros answer p q Hq Hne. unfold checkCount. rewrite Hq.
  apply truthy_str_not_empty in Hne. rewrite Hne. cbn [negb].
  destruct (count_of_answer (answer q) =? 0); reflexivity.
Qed.

(** When the listing behind [/api/count] fails with an [HttpError], the
    server answers the count -1 and the page takes it for a count: it
    shows the delete button, and accepting the two dialogs posts the
    deletion of the query. *)
Theorem failed_count_still_offers_deletion :
  forall (W : Type) (service : Service W) (s : gmail_ui.Server W)
         (p : Page) (q d : string) (u : unit) (w1 w2 : W),
    page_query p = Some q ->
    q <> "" ->
    authorize service (world (gmail_ui.io s)) = (Ret u, w1) ->
    messages_list service q 1 None w1 = (Raise (HttpError d), w2) ->
    let checked := checkCount (count_answers service s) p in
    let p' := snd checked in
    fst (fst checked) = Some q /\
    emailCount p' = -1 /\
    countInfo p' = true /\
    fst (click_delete true true p')
    = [gmail_ui.ConfirmDelete (-1); gmail_ui.ConfirmFinal;
       gmail_ui.ShowProgress; gmail_ui.FetchDelete q].
Proof.
  intros W service s p q d u w1 w2 Hq Hne Ha Hl checked p'.
  assert (Hc : count_answers service s q = gmail_ui.JsonCount (-1)).
  { unfold count_answers, gmail_ui.count.
    pose proof Hne as Ht. apply truthy_str_not_empty in Ht. rewrite Ht.
    cbn [negb]. rewrite call_authorize_eq, Ha. cbn [fst snd].
    unfold gmail_ui.count_emails. rewrite call_list_eq. cbn [world].
    rewrite Hl. reflexivity. }
  assert (Hp : checked
               = (Some q, [],
                  mkPage (selectedFilter p) (customQuery p) (-1) true)).
  { unfold checked. rewrite (checkCount_sends _ p q Hq Hne), Hc.
    reflexivity. }
  unfold p'. rewrite Hp. cbn [fst snd emailCount countInfo].
  split; [reflexivity|]. split; [reflexivity|]. split; [reflexivity|].
  rewrite (click_delete_posts _ q); [reflexivity|reflexivity|exact Hq| |];
    [exact Hne|cbn; lia].
Qed.

(** The count on the page is not tied to a query: after a count for one
    query, choosing another filter leaves the count and the delete button
    in place, and the deletion then posted, without any further count
    request, is for the newly chosen query, while the first dialog shows
    the count of the old one. *)
Theorem page_deletes_the_selected_query :
  forall (answer : string -> gmail_ui.response) (p : Page)
         (q1 q2 : string) (n : Z),
    page_query p = Some q1 ->
    q1 <> "" ->
    count_of_answer (answer q1) = n ->
    n <> 0 ->
    q2 <> "" ->
    page_run answer [ClickCheck; SelectFilter q2; ClickDelete true true] p
    = ([gmail_ui.ConfirmDelete n; gmail_ui.ConfirmFinal;
        gmail_ui.ShowProgress; gmail_ui.FetchDelete q2],
       mkPage (Some q2) "" n false).
Proof.
  intros answer p q1 q2 n Hq Hne Hn Hnz Hne2.
  cbn [page_run page_step].
  rewrite (checkCount_sends answer p q1 Hq Hne), Hn.
  apply Z.eqb_neq in Hnz. rewrite Hnz. cbn [negb app].
  rewrite (click_delete_posts _ q2); [reflexivity|reflexivity| | |].
  - reflexivity.
  - exact Hne2.
  - cbn. now apply Z.eqb_neq.
Qed.

Lemma click_delete_cases : forall a1 a2 p q,
  In (gmail_ui.FetchDelete q) (fst (click_delete a1 a2 p)) ->
  q <> "" /\ a1 = true /\ a2 = true /\ countInfo p = true /\
  emailCount p <> 0 /\ page_query p = Some q.
Proof.
  intros a1 a2 p q. unfold click_delete, page_query, gmail_ui.deleteEmails.
  destruct (countInfo p); [|intros []].
  destruct (if truthy_str (trim (customQuery p))
            then Some (trim (customQuery p)) else selectedFilter p)
    as [q'|]; cbn [fst].
  - destruct (truthy_str q') eqn:Eq; cbn [negb orb].
    + destruct (Z.eqb_spec (emailCount p) 0) as [E|E].
      * intros [H|[]]; discriminate.
      * destruct a1, a2; cbn;
          intros H; repeat (destruct H as [H|H]; try discriminate);
          try contradiction.
        inversion H; subst. apply truthy_str_not_empty in Eq.
        repeat split; auto.
    + intros [H|[]]; discriminate.
  - intros [H|[]]; discriminate.
Qed.

Lemma page_step_countInfo : forall answer ev p,
  countInfo (snd (page_step answer ev p)) = true ->
  (countInfo p = true \/ ev = ClickCheck) /\
  emailCount (snd (page_step answer ev p)) <> 0 \/
  (countInfo p = true /\
   emailCount (snd (page_step answer ev p)) = emailCount p).
Proof.
  intros answer ev p. destruct ev as [q|text| |a1 a2]; cbn [page_step].
  - cbn. auto.
  - cbn. auto.
  - unfold checkCount.
    destruct (page_query p) as [q|]; [|cbn; auto].
    destruct (negb (truthy_str q)); [cbn; auto|].
    destruct (Z.eqb_spec (count_of_answer (answer q)) 0) as [E|E]; cbn.
    + discriminate.
    + auto.
  - unfold click_delete. destruct (countInfo p) eqn:E; [|cbn; congruence].
    destruct (existsb _ _); cbn; auto; discriminate.
Qed.

(** The page as a whole, from its loading on: a deletion is posted only
    for a query that is not empty, only after a count has been asked for,
    and only by a click on the delete button with both dialogs accepted;
    and whenever the delete button is shown the count on the page is not
    0. *)
Theorem page_posts_only_after_count_and_confirmation :
  forall (answer : string -> gmail_ui.response) (evs : list page_event),
    let out := page_run answer evs initial_page in
    (forall q, In (gmail_ui.FetchDelete q) (fst out) ->
               q <> "" /\ In ClickCheck evs /\
               In (ClickDelete true true) evs) /\
    (countInfo (snd out) = true -> emailCount (snd out) <> 0).
Proof.
  intros answer evs.
  assert (G : forall evs p,
             (countInfo p = true -> emailCount p <> 0) ->
             let out := page_run answer evs p in
             (forall q, In (gmail_ui.FetchDelete q) (fst out) ->
                        q <> "" /\ (countInfo p = true \/ In ClickCheck evs)
                        /\ In (ClickDelete true true) evs) /\
             (countInfo (snd out) = true -> emailCount (snd out) <> 0)).
  { clear evs. induction evs as [|ev evs IH]; intros p Hp; cbn zeta.
    - cbn. split; [intros q []|exact Hp].
    - cbn [page_run].
      pose proof (page_step_countInfo answer ev p) as Hs.
      assert (Hfetch : forall q,
                 In (gmail_ui.FetchDelete q) (fst (page_step answer ev p)) ->
                 q <> "" /\ countInfo p = true /\ ev = ClickDelete true true).
      { intros q. destruct ev as [q'|text| |a1 a2]; cbn [page_step].
        - intros [].
        - intros [].
        - unfold checkCount. destruct (page_query p) as [q'|].
          + destruct (negb (truthy_str q')).
            * cbn. intros [H|[]]; discriminate.
            * destruct (count_of_answer (answer q') =? 0); cbn.
              -- intros [H|[]]; discriminate.
              -- intros [].
          + cbn. intros [H|[]]; discriminate.
        - intros H. apply click_delete_cases in H.
          destruct H as (H1 & -> & -> & H2 & _). auto. }
      destruct (page_step answer ev p) as [actions p1]. cbn [fst snd] in *.
      assert (Hp1 : countInfo p1 = true -> emailCount p1 <> 0).
      { intros H1. destruct (Hs H1) as [(_ & H)|(Hc & He)]; [exact H|].
        rewrite He. now apply Hp. }
      specialize (IH p1 Hp1). cbn zeta in IH.
      destruct (page_run answer evs p1) as [actions' p2]. cbn [fst snd] in *.
      destruct IH as (IHf & IHc). split; [|exact IHc].
      intros q Hin. apply in_app_or in Hin. destruct Hin as [Hin|Hin].
      + destruct (Hfetch q Hin) as (H1 & H2 & ->).
        split; [exact H1|]. split; [now left|now left].
      + destruct (IHf q Hin) as (H1 & H2 & H3).
        split; [exact H1|]. split; [|now right].
        destruct H2 as [H2|H2]; [|right; now right].
        destruct (Hs H2) as [([Hc | ->] & _)|(Hc & _)]; auto.
        right. now left. }
  destruct (G evs initial_page) as (Gf & Gc); [cbn; discriminate|].
  cbn zeta. split; [|exact Gc].
  intros q Hin. destruct (Gf q Hin) as (H1 & [H2|H2] & H3);
    [cbn in H2; discriminate|auto].
Qed.

(** ** The progress a job reports *)



Lemma nth_error_last : forall (A : Type) (l : list A) x,
  nth_error (l ++ [x]) (length l) = Some x.
Proof.
  intros A l x. rewrite nth_error_app2 by lia.
  now rewrite Nat.sub_diag.
Qed.

Lemma set_thread_last : forall l t t',
  gmail_ui.set_thread (length l) t' (l ++ [t]) = l ++ [t'].
Proof.
  induction l as [|x l IH]; intros t t'; cbn; [reflexivity|].
  now rewrite IH.
Qed.

(** Admission does not reset the progress: after a job has been accepted,
    [/api/progress] keeps answering the snapshot the previous job left,
    status and error included, until the worker has authenticated and
    counted; and once it has, [total] and [current] are those of the new
    job while the status and the error are still the old ones, until the
    loop is entered.  When the previous job has completed, the page that
    polls in this window announces the old count as deleted and stops
    polling. *)
Theorem progress_is_stale_until_the_loop_starts :
  forall (W : Type) (service : Service W) (s : gmail_ui.Server W)
         (q : string),
    gmail_ui.deletion_in_progress (gmail_ui.globals s) = false ->
    q <> "" ->
    let old := gmail_ui.deletion_progress (gmail_ui.globals s) in
    let tid := length (gmail_ui.threads s) in
    let start := gmail_ui.Request (gmail_ui.PostDelete (Some q)) in
    let poll := gmail_ui.Request gmail_ui.GetProgress in
    fst (gmail_ui.exec service [start; poll] s)
    = [gmail_ui.JsonStatus "deleting"; gmail_ui.JsonProgress old] /\
    fst (gmail_ui.exec service [start; gmail_ui.Schedule tid; poll] s)
    = [gmail_ui.JsonStatus "deleting"; gmail_ui.JsonProgress old] /\
    (forall u w1 r w2,
        authorize service (world (gmail_ui.io s)) = (Ret u, w1) ->
        messages_list service q 1 None w1 = (Ret r, w2) ->
        fst (gmail_ui.exec service
               [start; gmail_ui.Schedule tid; gmail_ui.Schedule tid; poll] s)
        = [gmail_ui.JsonStatus "deleting";
           gmail_ui.JsonProgress
             (gmail_ui.mkProgress 0 (get_resultSizeEstimate r)
                (gmail_ui.status old) (gmail_ui.error old))]) /\
    (gmail_ui.status old = "complete" ->
     on_progress_answer old
     = [SetProgressFill
          (if gmail_ui.total old >? 0
           then Some (gmail_ui.current old, gmail_ui.total old) else None);
        SetProgressDetails (gmail_ui.current old) (gmail_ui.total old);
        ClearInterval; ShowDeleted (gmail_ui.current old); HideProgress]).
Proof.
  intros W service s q Hflag Hq old tid start poll.
  apply truthy_str_not_empty in Hq.
  assert (Hstart : gmail_ui.step service start s
                   = (Some (gmail_ui.JsonStatus "deleting"),
                      gmail_ui.mkServer (gmail_ui.globals s) (gmail_ui.io s)
                        (gmail_ui.threads s
                           ++ [gmail_ui.mkThread q gmail_ui.AtStart]))).
  { unfold start. cbn [gmail_ui.step gmail_ui.handle].
    now rewrite (delete_accepted q s Hflag Hq). }
  split; [|split; [|split]].
  - cbn [gmail_ui.exec]. rewrite Hstart. reflexivity.
  - cbn [gmail_ui.exec]. rewrite Hstart.
    cbn [gmail_ui.step gmail_ui.threads gmail_ui.globals gmail_ui.io].
    unfold tid. rewrite nth_error_last.
    cbn [gmail_ui.thread_step gmail_ui.at_pc gmail_ui.target_query].
    reflexivity.
  - intros u w1 r w2 Ha Hl. cbn [gmail_ui.exec]. rewrite Hstart.
    cbn [gmail_ui.step gmail_ui.threads gmail_ui.globals gmail_ui.io].
    unfold tid. rewrite nth_error_last.
    cbn [gmail_ui.thread_step gmail_ui.at_pc gmail_ui.target_query].
    cbn [gmail_ui.step gmail_ui.threads gmail_ui.globals gmail_ui.io].
    rewrite set_thread_last, nth_error_last.
    cbn [gmail_ui.thread_step gmail_ui.at_pc gmail_ui.target_query].
    rewrite call_authorize_eq, Ha. cbn [fst snd].
    unfold gmail_ui.count_emails. rewrite call_list_eq. cbn [world].
    rewrite Hl. reflexivity.
  - intros Hst. unfold on_progress_answer. rewrite Hst. reflexivity.
Qed.

(** When the loop of the server stops on an [HttpError], which is when
    [delete_emails_by_query] returns -1, the status is ['error'] and the
    error entry is the one that was there before the job: the page then
    stops polling and shows ["Error: Unknown"], or the error text of an
    earlier job, and never the detail of this failure. *)
Theorem http_error_is_shown_without_detail :
  forall (W : Type) (service : Service W) (fuel : nat) (q : string)
         (p p' : gmail_ui.Progress) (io io' : IO W),
    gmail_ui.delete_emails_by_query service fuel q p io
    = (Some (Ret (-1)), p', io') ->
    gmail_ui.status p' = "error" /\
    gmail_ui.error p' = gmail_ui.error p /\
    on_progress_answer p'
    = [SetProgressFill
         (if gmail_ui.total p >? 0
          then Some (gmail_ui.current p', gmail_ui.total p) else None);
       SetProgressDetails (gmail_ui.current p') (gmail_ui.total p);
       ClearInterval;
       ShowError
         ("Error: " ++
          (if truthy_opt (gmail_ui.error p)
           then match gmail_ui.error p with
                | Some e => e
                | None => "Unknown"
                end
           else "Unknown"));
       HideProgress].
Proof.
  intros W service fuel q p p' io io'.
  unfold gmail_ui.delete_emails_by_query.
  destruct (gmail_ui.while_true service fuel q None 0
              (gmail_ui.set_status "deleting" p) io)
    as [[r p1] io1] eqn:EW.
  apply ui_while_true_run in EW.
  destruct EW as (tr & _ & _ & _ & Hrun & Htot & _ & Herr & _).
  cbn [gmail_ui.set_status gmail_ui.total gmail_ui.error] in Htot, Herr.
  destruct r as [[td|[d|d] td]|]; intros H; inversion H; subst.
  - pose proof (loop_run_total_ge _ _ _ _ _ _ _ _ _ _ Hrun _ eq_refl)
      as Hge.
    cbn in Hge. lia.
  - unfold on_progress_answer.
    cbn [gmail_ui.set_status gmail_ui.status gmail_ui.error gmail_ui.total
           gmail_ui.current].
    rewrite Htot, Herr. repeat split; reflexivity.
Qed.

(** ** The filters on the page *)

Lemma group_by_keys_any : forall (R A B : Type) (cat : R -> string)
                                 (val : R -> A) (val' : R -> B) rows,
  map fst (group_by cat val rows) = map fst (group_by cat val' rows).
Proof.
  intros R A B cat val val' rows.
  induction rows as [|row rows IH] using rev_ind; [reflexivity|].
  now rewrite !group_by_snoc, !keys_dict_append, IH.
Qed.

Lemma concat_map_map : forall (A B C : Type) (f : A -> list B) (g : B -> C) l,
  concat (map (fun x => map g (f x)) l) = map g (flat_map f l).
Proof.
  intros A B C f g l. induction l as [|x l IH]; cbn; [reflexivity|].
  now rewrite map_app, IH.
Qed.

(** The page shows the filters as the menu of the command-line tool does:
    [loadFilters()] on the answer of [/api/filters] puts the categories in
    ascending order and the radio buttons, one for every filter of the
    table, in the order of the menu of [display_filters()]; and the two
    tables of the repository give the same keys and the same queries,
    button by button. *)
Theorem page_lists_the_filters_in_menu_order :
  forall (filters : list (string * gmail_bulk_delete.Filter)),
    let shown := loadFilters (get_filters_of filters) in
    map fst shown
    = gmail_bulk_delete.sorted
        (map fst (gmail_bulk_delete.group filters)) /\
    radio_buttons shown = map entry_of (menu_order filters) /\
    Permutation (radio_buttons shown) (map entry_of filters) /\
    map entry_key (radio_buttons (loadFilters get_filters))
    = map fst (menu_order gmail_bulk_delete.FILTERS) /\
    map entry_query (radio_buttons (loadFilters get_filters))
    = map (fun row => gmail_bulk_delete.query (snd row))
          (menu_order gmail_bulk_delete.FILTERS).
Proof.
  intros filters shown.
  assert (Hkeys : map fst (get_filters_of filters)
                  = map fst (gmail_bulk_delete.group filters)).
  { unfold get_filters_of. rewrite group_group_by.
    apply group_by_keys_any. }
  assert (Hradio : radio_buttons shown = map entry_of (menu_order filters)).
  { unfold shown, radio_buttons, loadFilters. rewrite map_map. cbn [snd].
    rewrite Hkeys, menu_order_by_category, <- concat_map_map.
    f_equal. apply map_ext. intros c. unfold get_filters_of.
    rewrite group_by_lookup. unfold in_category, category_of, entry_of.
    destruct (filter _ filters); reflexivity. }
  split.
  - unfold shown, loadFilters. rewrite map_map. cbn [fst].
    rewrite map_id. now rewrite Hkeys.
  - split; [exact Hradio|]. split.
    + rewrite Hradio. apply Permutation_map. apply menu_order_perm.
    + split; vm_compute; reflexivity.
Qed.

(** ** What the command-line loop prints *)

Lemma deleted_lines_app : forall tr1 tr2,
  deleted_lines (tr1 ++ tr2) = deleted_lines tr1 ++ deleted_lines tr2.
Proof.
  induction tr1 as [|e tr1 IH]; intros tr2; [reflexivity|].
  destruct e as [| | |line]; cbn; auto.
  destruct line; cbn; rewrite ?IH; reflexivity.
Qed.

Lemma reports_app : forall tr1 tr2,
  line_first tr2 = None ->
  reports (tr1 ++ tr2) = reports tr1 ++ reports tr2.
Proof.
  induction tr1 as [|e tr1 IH]; intros tr2 H; [reflexivity|].
  destruct e as [|q m pt|ids|line]; cbn [app reports]; auto.
  rewrite (IH tr2 H). cbn [app]. f_equal. f_equal.
  destruct tr1 as [|e1 tr1]; [exact H|reflexivity].
Qed.

Lemma expected_reports_app : forall a1 a2 td,
  expected_reports td (a1 ++ a2)
  = expected_reports td a1 ++ expected_reports (td + deleted_count a1) a2.
Proof.
  induction a1 as [|[ids [|]] a1 IH]; intros a2 td;
    cbn [app expected_reports deleted_count].
  - now rewrite Z.add_0_r.
  - rewrite IH. cbn [app]. do 3 f_equal. lia.
  - rewrite IH. reflexivity.
Qed.

Lemma deleted_count_app : forall a1 a2,
  deleted_count (a1 ++ a2) = deleted_count a1 + deleted_count a2.
Proof.
  induction a1 as [|[ids [|]] a1 IH]; intros a2; cbn [app deleted_count];
    rewrite ?IH; lia.
Qed.

Section Lines.
Context {W : Type} (service : Service W).

Lemma replay_app : forall tr1 tr2 (w : W),
  replay service w (tr1 ++ tr2)
  = (fst (replay service w tr1)
       ++ fst (replay service (snd (replay service w tr1)) tr2),
     snd (replay service (snd (replay service w tr1)) tr2)).
Proof.
  induction tr1 as [|e tr1 IH]; intros tr2 w; cbn [app replay].
  - cbn [fst snd app]. now destruct (replay service w tr2).
  - destruct e as [|q m pt|ids|line]; try apply IH.
    rewrite IH.
    destruct (replay service (snd (messages_batchDelete service ids w)) tr1)
      as [a1 w1].
    reflexivity.
Qed.

(** One iteration: its calls, replayed, give the world it leaves; a
    batch-delete call that returned is followed at once by its line, with
    the size of the batch and the new total; one that raised is followed
    by nothing and ends the loop. *)
Lemma cli_loop_body_lines : forall q m pt td (io : IO W) it io',
  gmail_bulk_delete.loop_body service q m pt td io = (it, io') ->
  exists tr answers,
    trace io' = trace io ++ tr /\
    line_first tr = None /\
    replay service (world io) tr = (answers, world io') /\
    reports tr = expected_reports td answers /\
    length (deleted_lines tr) = length (filter snd answers) /\
    iteration_total it = td + deleted_count answers /\
    ((forallb snd answers = true /\ (length answers <= 1)%nat) \/
     (exists ids e, answers = [(ids, false)] /\ it = Throw e td)).
Proof.
  intros q m pt td io it io'.
  unfold gmail_bulk_delete.loop_body.
  rewrite call_list_eq.
  destruct (messages_list service q m pt (world io)) as [[r|e] w1] eqn:EL;
    cbn [fst snd].
  - destruct (negb (truthy_list (get_messages r))).
    + intros H; inversion H; subst; clear H.
      exists [CallList q m pt], []. cbn [replay]. rewrite EL.
      cbn [snd world iteration_total deleted_count]. repeat split; auto.
      lia.
    + rewrite call_batchDelete_eq; cbn [world trace].
      destruct (messages_batchDelete service
                  (map msg_id (get_messages r)) w1) as [[u|e] w2] eqn:ED;
        cbn [fst snd].
      * destruct (negb (truthy_opt (nextPageToken r)));
          intros H; inversion H; subst; clear H;
          unfold print; cbn [world trace];
          rewrite <- !app_assoc; cbn [app];
          (eexists; exists [(map msg_id (get_messages r), true)]);
          (split; [reflexivity|]); (split; [reflexivity|]);
          cbn [replay]; rewrite EL; cbn [snd]; rewrite ED;
          cbn [fst snd reports line_first expected_reports deleted_lines
                 filter length forallb andb iteration_total deleted_count];
          repeat split; auto; lia.
      * intros H; inversion H; subst; clear H; cbn [world trace].
        rewrite <- !app_assoc; cbn [app].
        eexists; exists [(map msg_id (get_messages r), false)].
        split; [reflexivity|]. split; [reflexivity|].
        cbn [replay]. rewrite EL. cbn [snd]. rewrite ED.
        cbn [fst snd reports line_first expected_reports deleted_lines
               filter length iteration_total deleted_count].
        repeat split; auto; [lia|].
        right. exists (map msg_id (get_messages r)), e. auto.
  - intros H; inversion H; subst; clear H.
    exists [CallList q m pt], []. cbn [replay]. rewrite EL.
    cbn [snd world iteration_total deleted_count]. repeat split; auto.
    lia.
Qed.

Lemma cli_while_true_lines : forall fuel q m pt td (io : IO W) r io',
  gmail_bulk_delete.while_true service fuel q m pt td io = (r, io') ->
  exists tr answers,
    trace io' = trace io ++ tr /\
    line_first tr = None /\
    replay service (world io) tr = (answers, world io') /\
    reports tr = expected_reports td answers /\
    length (deleted_lines tr) = length (filter snd answers) /\
    (forall e, r = Some e -> loop_end_total e = td + deleted_count answers) /\
    (forall done ids rest,
        answers = done ++ (ids, false) :: rest ->
        rest = [] /\ exists e td', r = Some (Threw e td')).
Proof.
  induction fuel as [|fuel IH]; intros q m pt td io r io' H;
    cbn [gmail_bulk_delete.while_true] in H.
  - inversion H; subst. exists [], []. rewrite app_nil_r.
    repeat split; auto; try (intros e He; discriminate);
      destruct done; discriminate.
  - destruct (gmail_bulk_delete.loop_body service q m pt td io)
      as [it io1] eqn:EB.
    apply cli_loop_body_lines in EB.
    destruct EB as (tr1 & a1 & Ht1 & Hf1 & Hr1 & Hrep1 & Hlen1 & Htot1
                    & Hcase).
    assert (Hend : forall e,
               (it = Break (loop_end_total e) \/
                exists x, it = Throw x (loop_end_total e) /\
                          e = Threw x (loop_end_total e)) ->
               (forall e', Some e = Some e' ->
                           loop_end_total e' = td + deleted_count a1) /\
               (forall done ids rest,
                   a1 = done ++ (ids, false) :: rest ->
                   (it = Break (loop_end_total e) -> False) /\ rest = [])).
    { intros e He. split.
      - intros e' E. inversion E; subst e'.
        destruct He as [->|(x & -> & _)]; exact Htot1.
      - intros done ids rest E.
        destruct Hcase as [(Hall & Hone)|(ids' & x & Ha & Hit)].
        + rewrite E, forallb_app in Hall. cbn in Hall.
          rewrite andb_false_r in Hall. discriminate.
        + subst a1. split; [intros Hb; congruence|].
          destruct done as [|d done]; [now inversion E|].
          inversion E as [[Hd Hnil]]. destruct done; discriminate. }
    destruct it as [pt1 td1|td1|e1 td1].
    + apply IH in H.
      destruct H as (tr2 & a2 & Ht2 & Hf2 & Hr2 & Hrep2 & Hlen2 & Htot2
                     & Hlast2).
      cbn [iteration_total] in Htot1. subst td1.
      exists (tr1 ++ tr2), (a1 ++ a2).
      rewrite Ht2, Ht1, app_assoc. split; [reflexivity|].
      split.
      { destruct tr1; [exact Hf2|exact Hf1]. }
      split.
      { rewrite replay_app, Hr1. cbn [fst snd]. now rewrite Hr2. }
      split.
      { rewrite (reports_app _ _ Hf2), expected_reports_app, Hrep1, Hrep2.
        reflexivity. }
      split.
      { rewrite deleted_lines_app, filter_app, !length_app. lia. }
      split.
      { intros e He. rewrite (Htot2 e He), deleted_count_app. lia. }
      intros done ids rest E.
      destruct Hcase as [(Hall & Hone)|(ids' & x & _ & Hit)];
        [|discriminate].
      destruct a1 as [|[i1 [|]] a1]; cbn [app] in E.
      * eapply Hlast2; eauto.
      * destruct a1; [|cbn in Hone; lia].
        destruct done as [|d done]; [discriminate|].
        inversion E as [[Hd E']]. eapply Hlast2; eauto.
      * cbn in Hall. discriminate.
    + inversion H; subst. exists tr1, a1.
      destruct (Hend (Broke td1) (or_introl eq_refl)) as (Htot & Hlast).
      repeat split; auto.
      * destruct (Hlast done ids rest H0) as (Hb & _). now elim Hb.
      * destruct (Hlast done ids rest H0) as (Hb & _). now elim Hb.
    + inversion H; subst. exists tr1, a1.
      destruct (Hend (Threw e1 td1)
                  (or_intror (ex_intro _ e1 (conj eq_refl eq_refl))))
        as (Htot & Hlast).
      repeat split; auto.
      * now destruct (Hlast done ids rest H0).
      * eauto.
Qed.
End Lines.

(** The lines "Deleted batch of n | Total: t" of [delete_emails_by_query]
    account for what the remote did.  Issue the calls of the run again:
    every batch-delete call that returned is followed at once by one line,
    with the size of its batch and the total of the batches that returned
    so far; a call that raised is followed by no line and is the last
    call; there is no other such line; and the value the function returns
    is the number of identifiers in the batches whose call returned. *)
Theorem progress_lines_add_up :
  forall (W : Type) (service : Service W) (fuel : nat) (q : string)
         (batch_size : Z) (io : IO W),
    let out := gmail_bulk_delete.delete_emails_by_query
                 service fuel q batch_size io in
    exists tr answers,
      trace (snd out) = trace io ++ tr /\
      replay service (world io) tr = (answers, world (snd out)) /\
      reports tr = expected_reports 0 answers /\
      length (deleted_lines tr) = length (filter snd answers) /\
      (forall done ids rest,
          answers = done ++ (ids, false) :: rest -> rest = []) /\
      (forall n, fst out = Some (Ret n) -> n = deleted_count answers).
Proof.
  intros W service fuel q batch_size io out. subst out.
  unfold gmail_bulk_delete.delete_emails_by_query.
  destruct (gmail_bulk_delete.while_true service fuel q
              (if batch_size >? 500 then 500 else batch_size) None 0 io)
    as [r io1] eqn:EW.
  apply cli_while_true_lines in EW.
  destruct EW as (tr & answers & Ht & Hf & Hr & Hrep & Hlen & Htot & Hlast).
  assert (Hl : forall done ids rest,
             answers = done ++ (ids, false) :: rest -> rest = []).
  { intros done ids rest E. now destruct (Hlast done ids rest E). }
  destruct r as [[td|[d|d] td]|]; cbn [fst snd].
  - exists tr, answers. repeat split; auto.
    intros n Hn. inversion Hn; subst.
    specialize (Htot _ eq_refl). cbn in Htot. lia.
  - exists (tr ++ [Print (PrintErrorDuringDeletion (HttpError d))]), answers.
    unfold print. cbn [trace world]. rewrite Ht, <- app_assoc.
    split; [reflexivity|]. split.
    { rewrite replay_app, Hr. cbn [fst snd replay].
      now rewrite app_nil_r. }
    split.
    { rewrite reports_app by reflexivity. cbn [reports].
      now rewrite app_nil_r. }
    split.
    { rewrite deleted_lines_app. cbn [deleted_lines].
      now rewrite app_nil_r. }
    split; [exact Hl|].
    intros n Hn. inversion Hn; subst.
    specialize (Htot _ eq_refl). cbn in Htot. lia.
  - exists tr, answers. repeat split; auto. intros n Hn. discriminate.
  - exists tr, answers. repeat split; auto. intros n Hn. discriminate.
Qed.

(** ** The properties on concrete inputs *)

(** The run whose third batch-delete call fails: two lines, with the
    totals 100 and 200, none for the third call, and 200 returned. *)
Example progress_lines_of_a_failing_run :
  let out := gmail_bulk_delete.delete_emails_by_query scripted 10 "in:spam"
               500 (mkIO fails_after_two []) in
  map snd (fst (replay scripted fails_after_two (trace (snd out))))
  = [true; true; false] /\
  map snd (reports (trace (snd out)))
  = [Some (100, 100); Some (100, 200); None] /\
  deleted_lines (trace (snd out)) = [(100, 100); (100, 200)] /\
  fst out = Some (Ret 200).
Proof. repeat split; vm_compute; reflexivity. Qed.

(** A token that has expired is refreshed and saved; the next run, with
    the libraries off line, builds the service from the saved token. *)
Lemma saved_credentials_are_reused_witness :
  let d := mkDisk (Pickled stale_credentials) false in
  let d' := mkDisk (Pickled fresh_credentials) false in
  get_gmail_service ui_not_found working_oauth d
  = (Ret fresh_credentials, d',
     [Refresh stale_credentials; WriteToken fresh_credentials;
      Build fresh_credentials]) /\
  snd (get_gmail_service ui_not_found offline_oauth d')
  = [Build fresh_credentials] /\
  snd (fst (get_gmail_service ui_not_found offline_oauth d')) = d'.
Proof.
  intros d d'.
  assert (H : get_gmail_service ui_not_found working_oauth d
              = (Ret fresh_credentials, d',
                 [Refresh stale_credentials; WriteToken fresh_credentials;
                  Build fresh_credentials])) by reflexivity.
  split; [exact H|].
  destruct (saved_credentials_are_reused ui_not_found working_oauth
              offline_oauth d d' fresh_credentials _ H)
    as (_ & _ & _ & Hv).
  exact (Hv eq_refl).
Defined.

(** Choice 15 is the spam folder; with two matches counted and [DELETE]
    typed, [main] deletes, and the input holds the line the theorem
    asks for. *)
Lemma main_deletes_only_after_DELETE_witness :
  let stdin := ["15"; "DELETE"] in
  let out := gmail_bulk_delete.main scripted 3 stdin
               (mkIO two_pages_counted []) in
  batches (trace (snd out)) = [["m1"]; ["m2"]] /\
  exists line, In line stdin /\ strip line = "DELETE".
Proof.
  intros stdin out.
  assert (Hb : batches (trace (snd out)) = [["m1"]; ["m2"]])
    by (vm_compute; reflexivity).
  split; [exact Hb|].
  destruct (main_deletes_only_after_DELETE _ scripted 3%nat stdin
              (mkIO two_pages_counted [])) as (_ & H).
  apply H. fold out. rewrite Hb. discriminate.
Defined.

(** The listing behind the count is down: the page shows a count of -1
    and posts the deletion of the spam folder. *)
Lemma failed_count_still_offers_deletion_witness :
  let s := gmail_ui.initial_server listing_down in
  let checked := checkCount (count_answers scripted s) spam_selected in
  (page_query spam_selected = Some "in:spam" /\
   authorize scripted (world (gmail_ui.io s)) = (Ret tt, listing_down) /\
   messages_list scripted "in:spam" 1 None listing_down
   = (Raise (HttpError "503 backend error"), mkScript (Ret tt) [] [])) /\
  emailCount (snd checked) = -1 /\
  In (gmail_ui.FetchDelete "in:spam")
     (fst (click_delete true true (snd checked))).
Proof.
  intros s checked.
  assert (Hq : page_query spam_selected = Some "in:spam") by reflexivity.
  assert (Ha : authorize scripted (world (gmail_ui.io s))
               = (Ret tt, listing_down)) by reflexivity.
  assert (Hl : messages_list scripted "in:spam" 1 None listing_down
               = (Raise (HttpError "503 backend error"),
                  mkScript (Ret tt) [] [])) by reflexivity.
  split; [repeat split; assumption|].
  destruct (failed_count_still_offers_deletion _ scripted s spam_selected
              "in:spam" "503 backend error" tt listing_down
              (mkScript (Ret tt) [] []) Hq ltac:(discriminate) Ha Hl)
    as (_ & Hc & _ & Hd).
  split; [exact Hc|]. unfold checked. rewrite Hd. cbn. tauto.
Defined.

(** 42 messages are counted in the spam folder; the filter "All read
    emails" is chosen next and the deletion posted is for [is:read]. *)
Lemma page_deletes_the_selected_query_witness :
  let answer := fun _ : string => gmail_ui.JsonCount 42 in
  (page_query spam_selected = Some "in:spam" /\
   count_of_answer (answer "in:spam") = 42) /\
  page_run answer [ClickCheck; SelectFilter "is:read"; ClickDelete true true]
           spam_selected
  = ([gmail_ui.ConfirmDelete 42; gmail_ui.ConfirmFinal;
      gmail_ui.ShowProgress; gmail_ui.FetchDelete "is:read"],
     mkPage (Some "is:read") "" 42 false).
Proof.
  intros answer. split; [split; reflexivity|].
  apply (page_deletes_the_selected_query answer spam_selected
           "in:spam" "is:read" 42);
    try reflexivity; try discriminate.
Defined.


(** A second job on a server whose first job has completed: the polls
    still show ['complete']. *)
Lemma progress_is_stale_until_the_loop_starts_witness :
  let start := gmail_ui.Request (gmail_ui.PostDelete (Some "is:read")) in
  let poll := gmail_ui.Request gmail_ui.GetProgress in
  gmail_ui.deletion_in_progress (gmail_ui.globals after_first_job) = false /\
  fst (gmail_ui.exec scripted [start; gmail_ui.Schedule 1; poll]
         after_first_job)
  = [gmail_ui.JsonStatus "deleting";
     gmail_ui.JsonProgress (gmail_ui.mkProgress 3 3 "complete" None)] /\
  fst (gmail_ui.exec scripted
         [start; gmail_ui.Schedule 1; gmail_ui.Schedule 1; poll]
         after_first_job)
  = [gmail_ui.JsonStatus "deleting";
     gmail_ui.JsonProgress (gmail_ui.mkProgress 0 7 "complete" None)].
Proof.
  intros start poll.
  destruct (progress_is_stale_until_the_loop_starts _ scripted
              after_first_job "is:read" eq_refl ltac:(discriminate))
    as (_ & H1 & H2 & _).
  split; [reflexivity|]. split; [exact H1|].
  exact (H2 tt (listing [estimate 7]) (estimate 7) (listing []) eq_refl
            eq_refl).
Defined.

(** A worker whose count listing fails has cleared the flag on return. *)
Lemma do_deletion_clears_flag_witness :
  let run := gmail_ui.do_deletion scripted 3 "in:spam"
               gmail_ui.initial_globals (mkIO listing_down []) in
  fst (fst run) = true /\
  gmail_ui.deletion_in_progress (snd (fst run)) = false.
Proof.
  intros run.
  assert (Hrun : run = (true, snd (fst run), snd run))
    by (vm_compute; reflexivity).
  split; [vm_compute; reflexivity|].
  exact (do_deletion_clears_flag scripted 3%nat "in:spam"
           gmail_ui.initial_globals (mkIO listing_down [])
           (snd (fst run)) (snd run) Hrun).
Defined.

(** Two start requests, the second handled after the first worker has
    taken the flag: it is refused, and so is a third one after the worker
    has finished its count; one job runs. *)
Lemma single_job_without_race_witness :
  let s := gmail_ui.initial_server (listing [estimate 1]) in
  gmail_ui.race_free scripted two_requests s /\
  (gmail_ui.running_jobs (snd (gmail_ui.exec scripted two_requests s))
   <= 1)%nat.
Proof.
  intros s.
  assert (Hr : gmail_ui.race_free scripted two_requests s)
    by (cbn; repeat split).
  split; [exact Hr|].
  exact (single_job_without_race scripted two_requests
           (listing [estimate 1]) Hr).
Defined.


(** Three identifiers, two per page: two batch-delete calls empty the
    mailbox. *)
Lemma mailbox_deleted_in_full_pages_witness :
  let ids := ["a"; "b"; "c"] in
  let out := gmail_bulk_delete.delete_emails_by_query
               mailbox 4 "in:spam" 2 (mkIO ids []) in
  (NoDup ids /\ 0 < 2 /\ (length ids < 4)%nat) /\
  fst out = Some (Ret 3) /\
  world (snd out) = [] /\
  length (batches (trace (snd out))) = 2%nat.
Proof.
  intros ids out.
  assert (Hn : NoDup ids).
  { repeat constructor; cbn; intuition discriminate. }
  assert (Hb : 0 < 2) by lia.
  assert (Hf : (length ids < 4)%nat) by (cbn; lia).
  split; [repeat split; assumption|].
  destruct (mailbox_deleted_in_full_pages ids "in:spam" 2 4%nat Hn Hb Hf)
    as (H1 & H2 & _ & H4).
  split; [exact H1|]. split; [exact H2|exact H4].
Defined.

(** The third batch-delete of five fails with an [HttpError]: the server
    loop returns -1 and the page shows ["Error: Unknown"]. *)
Lemma http_error_is_shown_without_detail_witness :
  let run := gmail_ui.delete_emails_by_query scripted 10 "in:spam"
               gmail_ui.initial_progress (mkIO fails_after_two []) in
  fst (fst run) = Some (Ret (-1)) /\
  gmail_ui.current (snd (fst run)) = 200 /\
  In (ShowError "Error: Unknown") (on_progress_answer (snd (fst run))).
Proof.
  intros run.
  assert (Hrun : run = (Some (Ret (-1)), snd (fst run), snd run))
    by (vm_compute; reflexivity).
  split; [vm_compute; reflexivity|]. split; [vm_compute; reflexivity|].
  destruct (http_error_is_shown_without_detail _ scripted 10%nat "in:spam"
              gmail_ui.initial_progress (snd (fst run))
              (mkIO fails_after_two []) (snd run) Hrun) as (_ & _ & H).
  rewrite H. cbn. tauto.
Defined.
